(** * ib_async: the order lifecycle, P&L subscriptions and the startup
      synchronisation of [ib_async/ib.py], as a shallow embedding.

    The methods of class [IB] are embedded as computations in a small
    state-and-exception monad over a [World]: the attributes of the
    wrapper that [ib.py] reads and writes, the client's connection state,
    the store of the mutable Python objects (orders, trades, P&L entries)
    addressed by identity, and the trace of everything the methods do to
    their collaborators (calls on the client, events emitted, log lines). *)

From Stdlib Require Import ZArith QArith.
From stdpp Require Import base tactics option list gmap strings pretty.

Local Open Scope Z_scope.

(** ** Python objects are addressed by identity *)

Definition loc := positive.
Definition Timestamp := Z.

(** ** Exceptions and results *)

Inductive ErrArgs :=
  | ArgText (msg : string)
  | ArgList (msgs : list string).

Inductive Exn :=
  | AssertionError
  | ConnectionError (args : ErrArgs)
  | TimeoutError
  | OtherError (name : string).

Inductive Result (A : Type) :=
  | Ok (a : A)
  | Raise (e : Exn).
Arguments Ok {A} a.
Arguments Raise {A} e.

(** ** The data of [ib_async.order], [ib_async.objects], [ib_async.contract] *)

(** Modelled from the spec: [Contract] (contract.py is not part of the
    sources at hand), "an instrument descriptor (symbol, security type,
    exchange, currency, etc.)". *)
Record Contract := mkContract {
  conId : Z;
  symbol : string;
  secType : string;
  exchange : string;
  currency : string
}.

(** Which constructor of order.py built the order. *)
Inductive OrderClass := PlainOrder | LimitOrderClass | StopOrderClass.

(** Modelled from the spec: [Order] (order.py is not part of the sources
    at hand), with the fields that ib.py reads or writes.  [price] is the
    third positional argument of [LimitOrder] and [StopOrder]. *)
Record Order := mkOrder {
  orderClass : OrderClass;
  orderId : Z;
  clientId : Z;
  permId : Z;
  action : string;
  totalQuantity : Q;
  price : Q;
  transmit : bool;
  parentId : Z;
  ocaGroup : string;
  ocaType : Z
}.

(** Modelled from the spec: [OrderStatus(orderId=..., status=...)]. *)
Record OrderStatus := mkOrderStatus {
  os_orderId : Z;
  status : string
}.

(** Modelled from the spec: [TradeLogEntry(time, status, message)], "each
    carrying a timestamp, the resulting status, and an optional free-text
    note (e.g. "Modify")". *)
Record TradeLogEntry := mkTradeLogEntry {
  le_time : Timestamp;
  le_status : string;
  le_message : string
}.

(** Modelled from the spec: [Fill], "(execution, commission-report)". *)
Record Fill := mkFill {
  execId : string;
  commission : Q
}.

(** Modelled from the spec: "Trade = (contract, order, orderStatus, fills,
    log)".  The order is held by reference: [placeOrder] writes to the
    caller's order object after the trade is built from it. *)
Record Trade := mkTrade {
  contract : Contract;
  order : loc;
  orderStatus : OrderStatus;
  fills : list Fill;
  log : list TradeLogEntry
}.

(** Modelled from the spec: [PnL(account, modelCode)] and
    [PnLSingle(account, modelCode, conId)], the keys of the live P&L
    entries (their value fields are filled by the decoder). *)
Record PnL := mkPnL {
  pnl_account : string;
  pnl_modelCode : string
}.

Record PnLSingle := mkPnLSingle {
  pnls_account : string;
  pnls_modelCode : string;
  pnls_conId : Z
}.

(** [BracketOrder(parent, takeProfit, stopLoss)], a named tuple of orders. *)
Record BracketOrder := mkBracketOrder {
  parent : loc;
  takeProfit : loc;
  stopLoss : loc
}.

(** ** What the methods do to their collaborators *)

(** Calls on [self.client]. *)
Inductive ClientCall :=
  | client_connectAsync (host : string) (port clientId : Z) (timeout : option Q)
  | client_disconnect
  | client_placeOrder (orderId : Z) (contract : Contract) (order : loc)
  | client_cancelOrder (orderId : Z) (manualCancelOrderTime : string)
  | client_reqPnL (reqId : Z) (account modelCode : string)
  | client_reqPnLSingle (reqId : Z) (account modelCode : string) (conId : Z)
  | client_reqAutoOpenOrders (autoBind : bool)
  | client_reqPositions
  | client_reqOpenOrders
  | client_reqCompletedOrders (apiOnly : bool)
  | client_reqAccountUpdates (subscribe : bool) (account : string)
  | client_reqExecutions (reqId : Z).

(** Keys of [wrapper.startReq]: a well-known name or a request id. *)
Inductive ReqKey :=
  | KeyName (name : string)
  | KeyId (reqId : Z).

(** The channels of [IB] that the embedded methods emit on. *)
Inductive IBEvent :=
  | connectedEvent
  | disconnectedEvent
  | newOrderEvent
  | orderModifyEvent
  | cancelOrderEvent
  | orderStatusEvent.

(** The channels of a [Trade] that the embedded methods emit on. *)
Inductive TradeEvent :=
  | modifyEvent
  | statusEvent
  | cancelEvent
  | cancelledEvent.

Inductive Effect :=
  | Call (c : ClientCall)
  | StartReq (key : ReqKey)
  | EmitIB (ev : IBEvent) (arg : option loc)
  | EmitTrade (trade : loc) (ev : TradeEvent) (arg : loc)
  | LogInfo (msg : string) (obj : option loc)
  | LogError (msg : string) (obj : option loc).

Global Instance IBEvent_eq_dec : EqDecision IBEvent.
Proof. solve_decision. Defined.
Global Instance TradeEvent_eq_dec : EqDecision TradeEvent.
Proof. solve_decision. Defined.

(** Is the effect an emission on the given channel of [IB]? *)
Definition emitsIB (ev : IBEvent) (e : Effect) : bool :=
  match e with
  | EmitIB ev' _ => bool_decide (ev' = ev)
  | _ => false
  end.

(** Is the effect an emission on the given channel of some trade? *)
Definition emitsTrade (ev : TradeEvent) (e : Effect) : bool :=
  match e with
  | EmitTrade _ ev' _ => bool_decide (ev' = ev)
  | _ => false
  end.

(** Is the effect an emission at all? *)
Definition isEmission (e : Effect) : bool :=
  match e with
  | EmitIB _ _ | EmitTrade _ _ _ => true
  | _ => false
  end.

(** Modelled from the spec: the connection statistics that [disconnect]
    reports (client.py is not part of the sources at hand). *)
Record ConnectionStats := mkStats {
  numBytesSent : Z;
  numMsgSent : Z;
  numBytesRecv : Z;
  numMsgRecv : Z;
  duration : Q
}.

(** Modelled from the spec: the client (client.py is not part of the
    sources at hand), as far as ib.py observes it: "isConnected()/isReady();
    serverVersion(); getNextRequestId()", the accounts it manages and the
    endpoint it is bound to. *)
Record Client := mkClient {
  isConnected : bool;
  isReady : bool;
  reqIdSeq : Z;
  host : string;
  port : Z;
  client_clientId : Z;
  accounts : list string;
  serverVersion : Z;
  connectionStats : ConnectionStats
}.

(** The store of Python objects, by class. *)
Record Heap := mkHeap {
  orderObjs : gmap loc Order;
  tradeObjs : gmap loc Trade;
  pnlObjs : gmap loc PnL;
  pnlSingleObjs : gmap loc PnLSingle
}.

(** ** The session: wrapper, client, objects, clock and trace *)

Section Session.

Set Default Proof Using "Type".

(** [Wrapper.orderKey] lives in wrapper.py, which is not part of the
    sources at hand: the key type and the derivation are left open, and
    every result below holds for any of them. *)
Context {K : Type} `{Countable K}.
Variable orderKey : Z → Z → Z → K.

(** The constants of class [OrderStatus] (order.py) that ib.py names: four
    status strings and the set of terminal states.  Their values are left
    open as well. *)
Variable PendingSubmit : string.
Variable PendingCancel : string.
Variable Cancelled : string.
Variable Inactive : string.
Variable DoneStates : gset string.

(** [util.formatSI] (util.py), used for the status line of [disconnect]. *)
Variable formatSI : Q → string.

(** The attributes of [self.wrapper] that ib.py reads and writes. *)
Record Wrapper := mkWrapper {
  wrapper_clientId : Z;
  trades : gmap K loc;
  pnlKey2ReqId : gmap (string * string) Z;
  reqId2PnL : gmap Z loc;
  pnlSingleKey2ReqId : gmap (string * string * Z) Z;
  reqId2PnlSingle : gmap Z loc
}.

Record World := mkWorld {
  wrapper : Wrapper;
  client : Client;
  heap : Heap;
  MaxSyncedSubAccounts : Z;
  clock : Timestamp;
  trace : list Effect
}.

Definition with_wrapper (f : Wrapper → Wrapper) (w : World) : World :=
  mkWorld (f (wrapper w)) (client w) (heap w) (MaxSyncedSubAccounts w)
          (clock w) (trace w).

Definition with_client (f : Client → Client) (w : World) : World :=
  mkWorld (wrapper w) (f (client w)) (heap w) (MaxSyncedSubAccounts w)
          (clock w) (trace w).

Definition with_heap (f : Heap → Heap) (w : World) : World :=
  mkWorld (wrapper w) (client w) (f (heap w)) (MaxSyncedSubAccounts w)
          (clock w) (trace w).

Definition with_trace (f : list Effect → list Effect) (w : World) : World :=
  mkWorld (wrapper w) (client w) (heap w) (MaxSyncedSubAccounts w)
          (clock w) (f (trace w)).

(** ** The monad: state that survives an exception *)

Definition M (A : Type) : Type := World → Result A * World.

Definition ret {A} (a : A) : M A := λ w, (Ok a, w).

Definition bind {A B} (m : M A) (k : A → M B) : M B :=
  λ w, match m w with
       | (Ok a, w') => k a w'
       | (Raise e, w') => (Raise e, w')
       end.

Definition raise {A} (e : Exn) : M A := λ w, (Raise e, w).

Definition gets {A} (f : World → A) : M A := λ w, (Ok (f w), w).

Definition modify (f : World → World) : M unit := λ w, (Ok tt, f w).

(** [try: m except BaseException as e: h e]. *)
Definition try_except {A} (m : M A) (h : Exn → M A) : M A :=
  λ w, match m w with
       | (Ok a, w') => (Ok a, w')
       | (Raise e, w') => h e w'
       end.

Global Instance M_ret : MRet M := @ret.
Global Instance M_bind : MBind M := λ A B k m, bind m k.

(** [assert b]. *)
Definition assert (b : bool) : M unit :=
  if b then ret tt else raise AssertionError.

(** Appending to the trace: calls, emissions, log lines. *)
Definition perform (e : Effect) : M unit :=
  modify (with_trace (λ t, t ++ [e])).

(** Modelled from the spec: [Client.getReqId] (client.py is not part of the
    sources at hand), "a monotonically increasing integer issued per
    outbound request". *)
Definition getReqId : M Z :=
  reqId ← gets (λ w, reqIdSeq (client w));
  modify (with_client (λ c,
    mkClient (isConnected c) (isReady c) (reqId + 1) (host c) (port c)
             (client_clientId c) (accounts c) (serverVersion c)
             (connectionStats c)));;
  ret reqId.

(** [datetime.datetime.now(self.wrapper.defaultTimezone)]. *)
Definition now : M Timestamp := gets clock.

(** Reading and writing objects.  A reference that names no object of the
    expected class cannot arise in Python; the embedding reports it as an
    error of its own. *)
Definition deref {A} (sel : Heap → gmap loc A) (l : loc) : M A :=
  o ← gets (λ w, sel (heap w) !! l);
  match o with
  | Some a => ret a
  | None => raise (OtherError "dangling reference")
  end.

Definition setOrderObjs (f : gmap loc Order → gmap loc Order) (h : Heap) :=
  mkHeap (f (orderObjs h)) (tradeObjs h) (pnlObjs h) (pnlSingleObjs h).
Definition setTradeObjs (f : gmap loc Trade → gmap loc Trade) (h : Heap) :=
  mkHeap (orderObjs h) (f (tradeObjs h)) (pnlObjs h) (pnlSingleObjs h).
Definition setPnlObjs (f : gmap loc PnL → gmap loc PnL) (h : Heap) :=
  mkHeap (orderObjs h) (tradeObjs h) (f (pnlObjs h)) (pnlSingleObjs h).
Definition setPnlSingleObjs
    (f : gmap loc PnLSingle → gmap loc PnLSingle) (h : Heap) :=
  mkHeap (orderObjs h) (tradeObjs h) (pnlObjs h) (f (pnlSingleObjs h)).

(** A new object gets an identity that no object of its class has. *)
Definition newLoc {A} (m : gmap loc A) : loc := fresh (dom m).

Definition setTrades (f : gmap K loc → gmap K loc) (wr : Wrapper) :=
  mkWrapper (wrapper_clientId wr) (f (trades wr)) (pnlKey2ReqId wr)
            (reqId2PnL wr) (pnlSingleKey2ReqId wr) (reqId2PnlSingle wr).

(** ** [OrderStatus.DoneStates] and [Trade.isDone] *)

Definition inDoneStates (s : string) : bool := bool_decide (s ∈ DoneStates).

(** Modelled from the spec: [Trade.isDone] (order.py is not part of the
    sources at hand): the trade's status is "a terminal order status", a
    member of [OrderStatus.DoneStates]. *)
Definition isDone (t : Trade) : bool := inDoneStates (status (orderStatus t)).

(** ** [IB.placeOrder] (ib.py, lines 780-814) *)

Definition appendLog (e : TradeLogEntry) (t : Trade) : Trade :=
  mkTrade (contract t) (order t) (orderStatus t) (fills t) (log t ++ [e]).

Definition setStatus (s : string) (t : Trade) : Trade :=
  mkTrade (contract t) (order t)
          (mkOrderStatus (os_orderId (orderStatus t)) s) (fills t) (log t).

Definition setOrderIds (cid oid : Z) (o : Order) : Order :=
  mkOrder (orderClass o) oid cid (permId o) (action o) (totalQuantity o)
          (price o) (transmit o) (parentId o) (ocaGroup o) (ocaType o).

Definition placeOrder (c : Contract) (ord : loc) : M loc :=
  o ← deref orderObjs ord;
  (* orderId = order.orderId or self.client.getReqId() *)
  oid ← (if orderId o =? 0 then getReqId else ret (orderId o));
  perform (Call (client_placeOrder oid c ord));;
  t ← now;
  cid ← gets (λ w, wrapper_clientId (wrapper w));
  let key := orderKey cid oid (permId o) in
  found ← gets (λ w, trades (wrapper w) !! key);
  match found with
  | Some tr =>
      (* this is a modification of an existing order *)
      trade ← deref tradeObjs tr;
      assert (negb (inDoneStates (status (orderStatus trade))));;
      let logEntry := mkTradeLogEntry t (status (orderStatus trade)) "Modify" in
      modify (with_heap (setTradeObjs (alter (appendLog logEntry) tr)));;
      perform (LogInfo "placeOrder: Modify order " (Some tr));;
      perform (EmitTrade tr modifyEvent tr);;
      perform (EmitIB orderModifyEvent (Some tr));;
      ret tr
  | None =>
      (* this is a new order *)
      modify (with_heap (setOrderObjs (alter (setOrderIds cid oid) ord)));;
      let orderStatus := mkOrderStatus oid PendingSubmit in
      let logEntry := mkTradeLogEntry t (status orderStatus) "" in
      tr ← gets (λ w, newLoc (tradeObjs (heap w)));
      modify (with_heap (setTradeObjs
        (insert tr (mkTrade c ord orderStatus [] [logEntry]))));;
      modify (with_wrapper (setTrades (insert key tr)));;
      perform (LogInfo "placeOrder: New order " (Some tr));;
      perform (EmitIB newOrderEvent (Some tr));;
      ret tr
  end.

(** ** [IB.cancelOrder] (ib.py, lines 816-855) *)

Definition cancelStatus (current : string) (transmitted : bool) : string :=
  if (String.eqb current PendingSubmit && negb transmitted)
     || String.eqb current Inactive
  then Cancelled
  else PendingCancel.

Definition cancelOrder (ord : loc) (manualCancelOrderTime : string)
  : M (option loc) :=
  o ← deref orderObjs ord;
  perform (Call (client_cancelOrder (orderId o) manualCancelOrderTime));;
  t ← now;
  let key := orderKey (clientId o) (orderId o) (permId o) in
  found ← gets (λ w, trades (wrapper w) !! key);
  match found with
  | Some tr =>
      trade ← deref tradeObjs tr;
      (if negb (isDone trade) then
         let newStatus := cancelStatus (status (orderStatus trade)) (transmit o) in
         let logEntry := mkTradeLogEntry t newStatus "" in
         modify (with_heap (setTradeObjs (alter (appendLog logEntry) tr)));;
         modify (with_heap (setTradeObjs (alter (setStatus newStatus) tr)));;
         perform (LogInfo "cancelOrder: " (Some tr));;
         perform (EmitTrade tr cancelEvent tr);;
         perform (EmitTrade tr statusEvent tr);;
         perform (EmitIB cancelOrderEvent (Some tr));;
         perform (EmitIB orderStatusEvent (Some tr));;
         if String.eqb newStatus Cancelled
         then perform (EmitTrade tr cancelledEvent tr)
         else ret tt
       else ret tt);;
      ret (Some tr)
  | None =>
      perform (LogError ("cancelOrder: Unknown orderId " +:+ pretty (orderId o))
                        None);;
      ret None
  end.

(** ** [IB.bracketOrder] (ib.py, lines 694-750) *)

(** Modelled from the spec: the constructors [LimitOrder] and [StopOrder]
    of order.py, called with the keywords that ib.py passes; the fields
    that are not passed keep the defaults of [Order] (zero, empty). *)
Definition LimitOrder (action : string) (totalQuantity lmtPrice : Q)
    (orderId : Z) (transmit : bool) (parentId : Z) : Order :=
  mkOrder LimitOrderClass orderId 0 0 action totalQuantity lmtPrice
          transmit parentId "" 0.

Definition StopOrder (action : string) (totalQuantity stopPrice : Q)
    (orderId : Z) (transmit : bool) (parentId : Z) : Order :=
  mkOrder StopOrderClass orderId 0 0 action totalQuantity stopPrice
          transmit parentId "" 0.

(** Constructing an order object. *)
Definition newOrder (o : Order) : M loc :=
  l ← gets (λ w, newLoc (orderObjs (heap w)));
  modify (with_heap (setOrderObjs (insert l o)));;
  ret l.

(** The call without extra keyword arguments ([**kwargs] empty). *)
Definition bracketOrder (action : string)
    (quantity limitPrice takeProfitPrice stopLossPrice : Q) : M BracketOrder :=
  assert (bool_decide (action ∈ ["BUY"; "SELL"]));;
  let reverseAction := if String.eqb action "SELL" then "BUY" else "SELL" in
  id1 ← getReqId;
  parent ← newOrder (LimitOrder action quantity limitPrice id1 false 0);
  id2 ← getReqId;
  p ← deref orderObjs parent;
  takeProfit ← newOrder
    (LimitOrder reverseAction quantity takeProfitPrice id2 false (orderId p));
  id3 ← getReqId;
  p ← deref orderObjs parent;
  stopLoss ← newOrder
    (StopOrder reverseAction quantity stopLossPrice id3 true (orderId p));
  ret (mkBracketOrder parent takeProfit stopLoss).

(** ** [IB.oneCancelsAll] (ib.py, lines 752-765) *)

Definition setOcaGroup (g : string) (o : Order) : Order :=
  mkOrder (orderClass o) (orderId o) (clientId o) (permId o) (action o)
          (totalQuantity o) (price o) (transmit o) (parentId o) g (ocaType o).

Definition setOcaType (t : Z) (o : Order) : Order :=
  mkOrder (orderClass o) (orderId o) (clientId o) (permId o) (action o)
          (totalQuantity o) (price o) (transmit o) (parentId o) (ocaGroup o) t.

(** [for x in l: body x]. *)
Fixpoint forEach {A} (body : A → M unit) (l : list A) : M unit :=
  match l with
  | [] => ret tt
  | x :: rest => body x;; forEach body rest
  end.

Definition oneCancelsAll (orders : list loc) (ocaGroup : string) (ocaType : Z)
  : M (list loc) :=
  forEach (λ o,
    modify (with_heap (setOrderObjs (alter (setOcaGroup ocaGroup) o)));;
    modify (with_heap (setOrderObjs (alter (setOcaType ocaType) o))))
    orders;;
  ret orders.

(** ** [IB.reqPnL] and [IB.reqPnLSingle] (ib.py, lines 984-1006, 1027-1050) *)

Definition setPnlKey2ReqId
    (f : gmap (string * string) Z → gmap (string * string) Z) (wr : Wrapper) :=
  mkWrapper (wrapper_clientId wr) (trades wr) (f (pnlKey2ReqId wr))
            (reqId2PnL wr) (pnlSingleKey2ReqId wr) (reqId2PnlSingle wr).

Definition setReqId2PnL (f : gmap Z loc → gmap Z loc) (wr : Wrapper) :=
  mkWrapper (wrapper_clientId wr) (trades wr) (pnlKey2ReqId wr)
            (f (reqId2PnL wr)) (pnlSingleKey2ReqId wr) (reqId2PnlSingle wr).

Definition setPnlSingleKey2ReqId
    (f : gmap (string * string * Z) Z → gmap (string * string * Z) Z)
    (wr : Wrapper) :=
  mkWrapper (wrapper_clientId wr) (trades wr) (pnlKey2ReqId wr)
            (reqId2PnL wr) (f (pnlSingleKey2ReqId wr)) (reqId2PnlSingle wr).

Definition setReqId2PnlSingle (f : gmap Z loc → gmap Z loc) (wr : Wrapper) :=
  mkWrapper (wrapper_clientId wr) (trades wr) (pnlKey2ReqId wr)
            (reqId2PnL wr) (pnlSingleKey2ReqId wr) (f (reqId2PnlSingle wr)).

Definition reqPnL (account modelCode : string) : M loc :=
  let key := (account, modelCode) in
  known ← gets (λ w, pnlKey2ReqId (wrapper w) !! key);
  assert (bool_decide (known = None));;
  reqId ← getReqId;
  modify (with_wrapper (setPnlKey2ReqId (insert key reqId)));;
  pnl ← gets (λ w, newLoc (pnlObjs (heap w)));
  modify (with_heap (setPnlObjs (insert pnl (mkPnL account modelCode))));;
  modify (with_wrapper (setReqId2PnL (insert reqId pnl)));;
  perform (Call (client_reqPnL reqId account modelCode));;
  ret pnl.

Definition reqPnLSingle (account modelCode : string) (conId : Z) : M loc :=
  let key := (account, modelCode, conId) in
  known ← gets (λ w, pnlSingleKey2ReqId (wrapper w) !! key);
  assert (bool_decide (known = None));;
  reqId ← getReqId;
  modify (with_wrapper (setPnlSingleKey2ReqId (insert key reqId)));;
  pnlSingle ← gets (λ w, newLoc (pnlSingleObjs (heap w)));
  modify (with_heap (setPnlSingleObjs
    (insert pnlSingle (mkPnLSingle account modelCode conId))));;
  modify (with_wrapper (setReqId2PnlSingle (insert reqId pnlSingle)));;
  perform (Call (client_reqPnLSingle reqId account modelCode conId));;
  ret pnlSingle.

(** ** [IB.disconnect] (ib.py, lines 382-408) *)

(** Modelled from the spec: [Wrapper.reset] (wrapper.py is not part of the
    sources at hand), which "clears all per-connection state on
    disconnect": every collection of the wrapper becomes empty. *)
Definition reset (wr : Wrapper) : Wrapper :=
  mkWrapper (wrapper_clientId wr) ∅ ∅ ∅ ∅ ∅.

(** Modelled from the spec: [Client.disconnect] (client.py is not part of
    the sources at hand) tears the connection down: the client is neither
    connected nor ready afterwards. *)
Definition dropConnection (c : Client) : Client :=
  mkClient false false (reqIdSeq c) (host c) (port c) (client_clientId c)
           (accounts c) (serverVersion c) (connectionStats c).

Definition clientDisconnect : M unit :=
  perform (Call client_disconnect);;
  modify (with_client dropConnection).

(** The f-string of lines 392-399. *)
Definition disconnectStatus (c : Client) : string :=
  let stats := connectionStats c in
  "Disconnecting from " +:+ host c +:+ ":" +:+ pretty (port c) +:+ ", "
  +:+ formatSI (inject_Z (numBytesSent stats)) +:+ "B sent "
  +:+ "in " +:+ pretty (numMsgSent stats) +:+ " messages, "
  +:+ formatSI (inject_Z (numBytesRecv stats)) +:+ "B received "
  +:+ "in " +:+ pretty (numMsgRecv stats) +:+ " messages, "
  +:+ "session time " +:+ formatSI (duration stats) +:+ "s.".

Definition disconnect : M (option string) :=
  connected ← gets (λ w, isConnected (client w));
  if negb connected then ret None
  else
    status ← gets (λ w, disconnectStatus (client w));
    perform (LogInfo status None);;
    clientDisconnect;;
    perform (EmitIB disconnectedEvent None);;
    (* clear ALL internal state from this connection *)
    modify (with_wrapper reset);;
    ret (Some status).

(** ** [StartupFetch] (ib.py, lines 60-78): a [Flag], one bit per member *)

Definition StartupFetch := Z.
Definition POSITIONS : StartupFetch := 1.
Definition ORDERS_OPEN : StartupFetch := 2.
Definition ORDERS_COMPLETE : StartupFetch := 4.
Definition ACCOUNT_UPDATES : StartupFetch := 8.
Definition SUB_ACCOUNT_UPDATES : StartupFetch := 16.
Definition EXECUTIONS : StartupFetch := 32.

Definition StartupFetchNONE : StartupFetch := 0.

Definition StartupFetchALL : StartupFetch :=
  Z.lor POSITIONS
    (Z.lor ORDERS_OPEN
      (Z.lor ORDERS_COMPLETE
        (Z.lor ACCOUNT_UPDATES (Z.lor SUB_ACCOUNT_UPDATES EXECUTIONS)))).

(** The truth value of [fetchFields & flag]. *)
Definition hasFlag (fetchFields flag : StartupFetch) : bool :=
  negb (Z.land fetchFields flag =? 0).

(** ** The other side of the connection during [connectAsync]

    What the gateway and the decoder do while [connectAsync] awaits is
    given from outside: whether the connection gets established, and for
    every awaited request whether [asyncio.wait_for] returns or raises
    (a [TimeoutError] when the deadline passes), what the decoder has put
    in the wrapper by then, and whether the socket is still up. *)

Inductive Awaited :=
  | AwaitStartup (name : string)
  | AwaitSubAccount (acc : string)
  | AwaitExecutions.

Record Response := mkResponse {
  raised : option Exn;
  deliver : Wrapper * Heap → Wrapper * Heap;
  alive : bool
}.

Record Env := mkEnv {
  connectFailure : option Exn;
  managedAccounts : list string;
  negotiatedVersion : Z;
  respond : Awaited → Response
}.

(** Modelled from the spec: [Client.connectAsync] (client.py is not part of
    the sources at hand), "connect(host, port, clientId, timeout) ->
    session": it raises, or leaves the client connected and ready. *)
Definition clientConnect (env : Env) (host : string) (port clientId : Z)
    (timeout : option Q) : M unit :=
  perform (Call (client_connectAsync host port clientId timeout));;
  match connectFailure env with
  | Some e => raise e
  | None =>
      modify (with_client (λ c,
        mkClient true true (reqIdSeq c) host port clientId
                 (managedAccounts env) (negotiatedVersion env)
                 (connectionStats c)))
  end.

(** Modelled from the spec: the loss of the socket (client.py and
    wrapper.py are not part of the sources at hand).  The client gives
    "connection-lifecycle notifications ([apiEnd])", the core's [reset()]
    "clears all per-connection state on disconnect", and a connection
    failure has the "session torn down": the client is neither connected
    nor ready any more, the wrapper is reset, and the client's [apiEnd]
    fires, to which line 281 has subscribed [disconnectedEvent]. *)
Definition connectionLost : M unit :=
  modify (with_client dropConnection);;
  modify (with_wrapper reset);;
  perform (EmitIB disconnectedEvent None).

(** [await asyncio.wait_for(req, timeout)] for a request already sent.
    While the socket is up the decoder delivers, and then the socket may
    go down; once it is down nothing arrives any more. *)
Definition wait_for (env : Env) (p : Awaited) : M unit :=
  let r := respond env p in
  connected ← gets (λ w, isConnected (client w));
  (if (connected : bool) then
     modify (λ w,
       let '(wr, h) := deliver r (wrapper w, heap w) in
       with_heap (λ _, h) (with_wrapper (λ _, wr) w));;
     (if alive r then ret tt else connectionLost)
   else ret tt);;
  match raised r with
  | Some e => raise e
  | None => ret tt
  end.

Arguments wait_for : simpl never.

(** An exception as a value ([return_exceptions=True]). *)
Definition capture {A} (m : M A) : M (Result A) :=
  λ w, let '(r, w') := m w in (Ok r, w').

(** [await asyncio.gather] over the tasks, with [return_exceptions=True]. *)
Fixpoint gather (env : Env) (ps : list Awaited) : M (list (Result unit)) :=
  match ps with
  | [] => ret []
  | p :: rest =>
      r ← capture (wait_for env p);
      rs ← gather env rest;
      ret (r :: rs)
  end.

(** The request methods of lines 2230-2301 and 913-927: each registers
    with the wrapper and sends at once. *)
Definition reqAutoOpenOrders (autoBind : bool) : M unit :=
  perform (Call (client_reqAutoOpenOrders autoBind)).

Definition reqPositionsAsync : M unit :=
  perform (StartReq (KeyName "positions"));;
  perform (Call client_reqPositions).

Definition reqOpenOrdersAsync : M unit :=
  perform (StartReq (KeyName "openOrders"));;
  perform (Call client_reqOpenOrders).

Definition reqCompletedOrdersAsync (apiOnly : bool) : M unit :=
  perform (StartReq (KeyName "completedOrders"));;
  perform (Call (client_reqCompletedOrders apiOnly)).

Definition reqAccountUpdatesAsync (account : string) : M unit :=
  perform (StartReq (KeyName "accountValues"));;
  perform (Call (client_reqAccountUpdates true account)).

Definition reqExecutionsAsync : M unit :=
  reqId ← getReqId;
  perform (StartReq (KeyId reqId));;
  perform (Call (client_reqExecutions reqId)).

(** ** [IB.connectAsync] (ib.py, lines 2027-2119) *)

Definition isTimeout (r : Result unit) : bool :=
  match r with
  | Raise TimeoutError => true
  | _ => false
  end.

(** Lines 2074-2078. *)
Fixpoint collectTimeouts (resps : list (string * Result unit))
    (errors : list string) : M (list string) :=
  match resps with
  | [] => ret errors
  | (name, resp) :: rest =>
      if isTimeout resp then
        let msg := name +:+ " request timed out" in
        perform (LogError msg None);;
        collectTimeouts rest (errors ++ [msg])
      else collectTimeouts rest errors
  end.

(** Lines 2086-2094. *)
Fixpoint syncAccounts (env : Env) (accs : list string) (errors : list string)
  : M (list string) :=
  match accs with
  | [] => ret errors
  | acc :: rest =>
      errors ←
        try_except
          (reqAccountUpdatesAsync acc;;
           wait_for env (AwaitSubAccount acc);;
           ret errors)
          (λ e, match e with
                | TimeoutError =>
                    let msg := "reqAccountUpdatesAsync for " +:+ acc
                               +:+ " timed out" in
                    perform (LogError msg None);;
                    ret (errors ++ [msg])
                | _ => raise e
                end);
      syncAccounts env rest errors
  end.

Definition setWrapperClientId (cid : Z) (wr : Wrapper) : Wrapper :=
  mkWrapper cid (trades wr) (pnlKey2ReqId wr) (reqId2PnL wr)
            (pnlSingleKey2ReqId wr) (reqId2PnlSingle wr).

(** [timeout or None]. *)
Definition orNone (timeout : option Q) : option Q :=
  match timeout with
  | Some t => if Qeq_bool t 0 then None else Some t
  | None => None
  end.

(** Lines 2050-2051: the account defaults to the only managed one. *)
Definition mainAccount (account : string) (accounts : list string) : string :=
  if String.eqb account "" && bool_decide (length accounts = 1%nat)
  then default "" (head accounts) else account.

(** Lines 2055-2068: the initial requests are sent as the dictionary
    [reqs] is filled; the names are returned in insertion order. *)
Definition prepareRequests (readonly : bool) (account : string)
    (fetchFields : StartupFetch) : M (list string) :=
  reqPositionsAsync;;
  let reqs := ["positions"] in
  reqs ← (if negb readonly then
            if hasFlag fetchFields ORDERS_OPEN
            then reqOpenOrdersAsync;; mret (reqs ++ ["open orders"])
            else mret reqs
          else mret reqs);
  version ← gets (λ w, serverVersion (client w));
  reqs ← (if negb readonly && (150 <=? version) then
            if hasFlag fetchFields ORDERS_COMPLETE
            then reqCompletedOrdersAsync false;;
                 mret (reqs ++ ["completed orders"])
            else mret reqs
          else mret reqs);
  if negb (String.eqb account "") then
    if hasFlag fetchFields ACCOUNT_UPDATES
    then reqAccountUpdatesAsync account;;
         mret (reqs ++ ["account updates"])
    else mret reqs
  else mret reqs.

(** Lines 2085-2095: the accounts are subscribed to one after the other,
    unless there are more of them than [MaxSyncedSubAccounts]. *)
Definition syncSubAccounts (env : Env) (accounts : list string)
    (errors : list string) : M (list string) :=
  ceiling ← gets MaxSyncedSubAccounts;
  if Z.of_nat (length accounts) <=? ceiling then
    errors ← syncAccounts env accounts errors;
    perform (LogInfo "Finished fetching all portfolio data." None);;
    mret errors
  else mret errors.

(** Lines 2098-2104: the request for executions must come after all orders
    are in. *)
Definition syncExecutions (env : Env) (fetchFields : StartupFetch)
    (errors : list string) : M (list string) :=
  if hasFlag fetchFields EXECUTIONS then
    try_except
      (reqExecutionsAsync;;
       wait_for env AwaitExecutions;;
       mret errors)
      (λ e, match e with
            | TimeoutError =>
                let msg := "executions request timed out" in
                perform (LogError msg None);;
                mret (errors ++ [msg])
            | _ => raise e
            end)
  else mret errors.

(** Lines 2043-2104: connect, send and await the initial requests, and
    return the timeout messages collected on the way. *)
Definition synchronize (env : Env) (host : string) (port clientId : Z)
    (timeout : option Q) (readonly : bool) (account : string)
    (fetchFields : StartupFetch) : M (list string) :=
  (* establish API connection *)
  clientConnect env host port clientId timeout;;
  (* autobind manual orders *)
  (if clientId =? 0 then reqAutoOpenOrders true else mret tt);;
  accounts ← gets (λ w, accounts (client w));
  let account := mainAccount account accounts in
  (* prepare initializing requests *)
  reqs ← prepareRequests readonly account fetchFields;
  (* run initializing requests concurrently and log if any times out *)
  resps ← gather env (AwaitStartup <$> reqs);
  errors ← collectTimeouts (zip reqs resps) [];
  errors ← syncSubAccounts env accounts errors;
  syncExecutions env fetchFields errors.

(** Lines 2106-2114. *)
Definition conclude (raiseSyncErrors : bool) (errors : list string) : M unit :=
  (if raiseSyncErrors && bool_decide (0 < length errors)%nat
   then raise (ConnectionError (ArgList errors))
   else ret tt);;
  (* final check if socket is still ready *)
  ready ← gets (λ w, isReady (client w));
  (if negb ready
   then raise (ConnectionError
                 (ArgText "Socket connection broken while connecting"))
   else ret tt);;
  perform (LogInfo "Synchronization complete" None);;
  perform (EmitIB connectedEvent None).

(** Lines 2041-2114, the body of the [try]. *)
Definition connectBody (env : Env) (host : string) (port clientId : Z)
    (timeout : option Q) (readonly : bool) (account : string)
    (raiseSyncErrors : bool) (fetchFields : StartupFetch) : M unit :=
  errors ← synchronize env host port clientId timeout readonly account
             fetchFields;
  conclude raiseSyncErrors errors.

Definition connectAsync (env : Env) (host : string) (port clientId : Z)
    (timeout : option Q) (readonly : bool) (account : string)
    (raiseSyncErrors : bool) (fetchFields : StartupFetch) : M unit :=
  modify (with_wrapper (setWrapperClientId clientId));;
  let timeout := orNone timeout in
  try_except
    (connectBody env host port clientId timeout readonly account
                 raiseSyncErrors fetchFields)
    (λ e, disconnect;; raise e).

(** * Properties *)

(** Running a computation step by step. *)
Ltac run :=
  repeat (unfold mbind, M_bind, mret, M_ret, bind, ret, gets, modify, perform,
            assert, raise, now, deref, try_except, capture; simpl).

Ltac run_in H :=
  repeat (unfold mbind, M_bind, mret, M_ret, bind, ret, gets, modify, perform,
            assert, raise, now, deref, try_except, capture in H; simpl in H).

(** The effects a run added to the trace. *)
Definition newEffects (w w' : World) : list Effect :=
  drop (length (trace w)) (trace w').

Lemma newEffects_app (w w' : World) (delta : list Effect) :
  trace w' = trace w ++ delta → newEffects w w' = delta.
Proof.
  intros E. unfold newEffects. rewrite E. by rewrite drop_app_length.
Qed.

(** The order id that [placeOrder] sends: the order's own, or else the
    next request id. *)
Definition effectiveOrderId (o : Order) (w : World) : Z :=
  if orderId o =? 0 then reqIdSeq (client w) else orderId o.

(** The state after line 790. *)
Definition afterOrderId (o : Order) (w : World) : World :=
  if orderId o =? 0
  then with_client (λ c,
         mkClient (isConnected c) (isReady c) (reqIdSeq c + 1) (host c)
                  (port c) (client_clientId c) (accounts c) (serverVersion c)
                  (connectionStats c)) w
  else w.

Lemma placeOrder_orderId (o : Order) (w : World) :
  (if orderId o =? 0 then getReqId else mret (orderId o)) w
  = (Ok (effectiveOrderId o w), afterOrderId o w).
Proof.
  unfold effectiveOrderId, afterOrderId, getReqId.
  destruct (orderId o =? 0); by run.
Qed.

(** ** Placing an order on a live trade *)

(** C1. When [placeOrder] finds a trade under the key it derives from the
    wrapper's client id, the order id and the order's perm id, and that
    trade's status is not a done state, it returns that very trade; the
    wrapper (its trades map included) is unchanged and no trade object is
    created; the trade's log grows by exactly one entry, noted "Modify",
    while its fills, status, order and contract stay; and the call emits
    the trade's modify event and [orderModifyEvent], never
    [newOrderEvent]. *)
Theorem placeOrder_modify (c : Contract) (ord : loc) (w : World)
    (o : Order) (tr : loc) (trade : Trade) :
  orderObjs (heap w) !! ord = Some o →
  trades (wrapper w)
    !! orderKey (wrapper_clientId (wrapper w)) (effectiveOrderId o w) (permId o)
    = Some tr →
  tradeObjs (heap w) !! tr = Some trade →
  inDoneStates (status (orderStatus trade)) = false →
  ∃ (w' : World) (entry : TradeLogEntry) (trade' : Trade),
    placeOrder c ord w = (Ok tr, w')
    ∧ wrapper w' = wrapper w
    ∧ dom (tradeObjs (heap w')) = dom (tradeObjs (heap w))
    ∧ tradeObjs (heap w') !! tr = Some trade'
    ∧ (∀ t, t ≠ tr → tradeObjs (heap w') !! t = tradeObjs (heap w) !! t)
    ∧ log trade' = log trade ++ [entry]
    ∧ le_message entry = "Modify"
    ∧ fills trade' = fills trade
    ∧ orderStatus trade' = orderStatus trade
    ∧ order trade' = order trade
    ∧ contract trade' = contract trade
    ∧ newEffects w w' =
        [ Call (client_placeOrder (effectiveOrderId o w) c ord);
          LogInfo "placeOrder: Modify order " (Some tr);
          EmitTrade tr modifyEvent tr;
          EmitIB orderModifyEvent (Some tr) ]
    ∧ EmitIB orderModifyEvent (Some tr) ∈ newEffects w w'
    ∧ (∀ e, e ∈ newEffects w w' → emitsIB newOrderEvent e = false).
Proof.
  intros Hord Hkey Htr Hlive.
  set (entry := mkTradeLogEntry (clock w) (status (orderStatus trade)) "Modify").
  eexists _, entry, (appendLog entry trade).
  assert (Hclock : ∀ x, clock (afterOrderId x w) = clock w).
  { intros x. unfold afterOrderId. by destruct (orderId x =? 0). }
  assert (Hwr : ∀ x, wrapper (afterOrderId x w) = wrapper w).
  { intros x. unfold afterOrderId. by destruct (orderId x =? 0). }
  assert (Hheap : ∀ x, heap (afterOrderId x w) = heap w).
  { intros x. unfold afterOrderId. by destruct (orderId x =? 0). }
  assert (Htrace : ∀ x, trace (afterOrderId x w) = trace w).
  { intros x. unfold afterOrderId. by destruct (orderId x =? 0). }
  split.
  { unfold placeOrder. run. rewrite Hord. simpl.
    rewrite placeOrder_orderId. simpl.
    rewrite Hwr, Hkey. simpl. rewrite Hheap, Htr. simpl.
    rewrite Hlive. simpl. rewrite Hclock. reflexivity. }
  unfold newEffects. simpl. rewrite Hwr, Hheap, Htrace.
  split; [done|]. split.
  { apply set_eq. intros t. rewrite !elem_of_dom, lookup_alter.
    case_decide; subst; [|done]. rewrite Htr. simpl. split; eauto. }
  split; [by rewrite lookup_alter_eq, Htr|].
  split; [intros t Ht; by rewrite lookup_alter_ne|].
  repeat (split; [done|]).
  assert (Hnew : ∀ l, drop (length (trace w)) (trace w ++ l) = l).
  { intros l. by rewrite drop_app_length. }
  rewrite <- !(assoc_L (++)). rewrite Hnew. simpl.
  split; [done|]. split; [by do 3 apply list_elem_of_further; apply list_elem_of_here|].
  intros e He. repeat (apply elem_of_cons in He as [->|He]; [done|]).
  by apply elem_of_nil in He.
Qed.

(** ** Cancelling an order *)

Lemma drop_trace_app (w : World) (l : list Effect) :
  drop (length (trace w)) (trace w ++ l) = l.
Proof. by rewrite drop_app_length. Qed.

(** C2. When [cancelOrder] finds a trade that is not done under the order's
    key: the trade's status becomes [Cancelled] if it was [PendingSubmit]
    and the order's transmit flag is off, or if it was [Inactive], and
    [PendingCancel] otherwise; the log grows by exactly one entry, which
    carries the new status; the cancel and status events of the trade and
    of [IB] are emitted; and the trade's cancelled event is emitted exactly
    when the new status is [Cancelled]. *)
Theorem cancelOrder_live (ord : loc) (manualCancelOrderTime : string)
    (w : World) (o : Order) (tr : loc) (trade : Trade) :
  orderObjs (heap w) !! ord = Some o →
  trades (wrapper w) !! orderKey (clientId o) (orderId o) (permId o)
    = Some tr →
  tradeObjs (heap w) !! tr = Some trade →
  isDone trade = false →
  ∃ (w' : World) (entry : TradeLogEntry) (trade' : Trade),
    cancelOrder ord manualCancelOrderTime w = (Ok (Some tr), w')
    ∧ tradeObjs (heap w') !! tr = Some trade'
    ∧ ((status (orderStatus trade) = PendingSubmit ∧ transmit o = false)
       ∨ status (orderStatus trade) = Inactive
       → status (orderStatus trade') = Cancelled)
    ∧ (¬ ((status (orderStatus trade) = PendingSubmit ∧ transmit o = false)
          ∨ status (orderStatus trade) = Inactive)
       → status (orderStatus trade') = PendingCancel)
    ∧ log trade' = log trade ++ [entry]
    ∧ le_status entry = status (orderStatus trade')
    ∧ fills trade' = fills trade
    ∧ (∀ t, t ≠ tr → tradeObjs (heap w') !! t = tradeObjs (heap w) !! t)
    ∧ wrapper w' = wrapper w
    ∧ newEffects w w' =
        [ Call (client_cancelOrder (orderId o) manualCancelOrderTime);
          LogInfo "cancelOrder: " (Some tr);
          EmitTrade tr cancelEvent tr;
          EmitTrade tr statusEvent tr;
          EmitIB cancelOrderEvent (Some tr);
          EmitIB orderStatusEvent (Some tr) ]
        ++ (if String.eqb (status (orderStatus trade')) Cancelled
            then [EmitTrade tr cancelledEvent tr] else [])
    ∧ ((∃ e, e ∈ newEffects w w' ∧ emitsTrade cancelledEvent e = true)
       ↔ status (orderStatus trade') = Cancelled).
Proof.
  intros Hord Hkey Htr Hlive.
  set (newStatus := cancelStatus (status (orderStatus trade)) (transmit o)).
  set (entry := mkTradeLogEntry (clock w) newStatus "").
  exists
    (mkWorld (wrapper w) (client w)
       (setTradeObjs (alter (setStatus newStatus) tr)
          (setTradeObjs (alter (appendLog entry) tr) (heap w)))
       (MaxSyncedSubAccounts w) (clock w)
       (trace w ++
        [ Call (client_cancelOrder (orderId o) manualCancelOrderTime);
          LogInfo "cancelOrder: " (Some tr);
          EmitTrade tr cancelEvent tr;
          EmitTrade tr statusEvent tr;
          EmitIB cancelOrderEvent (Some tr);
          EmitIB orderStatusEvent (Some tr) ]
        ++ (if String.eqb newStatus Cancelled
            then [EmitTrade tr cancelledEvent tr] else []))),
    entry, (setStatus newStatus (appendLog entry trade)).
  split.
  { unfold cancelOrder. run. rewrite Hord. simpl. rewrite Hkey. simpl.
    rewrite Htr. simpl. rewrite Hlive. simpl. fold newStatus.
    unfold with_trace, with_heap. simpl.
    destruct (String.eqb newStatus Cancelled); simpl;
      rewrite <- ?(assoc_L (++)); reflexivity. }
  simpl. split.
  { by rewrite lookup_alter_eq, lookup_alter_eq, Htr. }
  split.
  { intros Hc. unfold newStatus, cancelStatus.
    destruct Hc as [[-> ->]| ->]; rewrite String.eqb_refl; simpl;
      [done|by rewrite orb_true_r]. }
  split.
  { intros Hc. unfold newStatus, cancelStatus.
    destruct (String.eqb_spec (status (orderStatus trade)) PendingSubmit) as [E1|E1];
      destruct (String.eqb_spec (status (orderStatus trade)) Inactive) as [E2|E2];
      destruct (transmit o) eqn:Et; simpl; try done;
      exfalso; apply Hc; auto. }
  repeat (split; [done|]).
  split; [intros t Ht; by rewrite !lookup_alter_ne|].
  split; [done|].
  unfold newEffects. simpl. rewrite drop_trace_app.
  split; [done|].
  destruct (String.eqb_spec newStatus Cancelled) as [E|E]; simpl.
  - split; [done|]. intros _. exists (EmitTrade tr cancelledEvent tr).
    split; [by do 6 apply list_elem_of_further; apply list_elem_of_here|done].
  - split; [|done]. intros (e & He & Hem).
    repeat (apply elem_of_cons in He as [->|He]; [done|]).
    by apply elem_of_nil in He.
Qed.

(** C3. When [cancelOrder] finds a trade that is already done under the
    order's key, nothing local changes: the wrapper and every object
    (the trade's log and status among them) are as before, and nothing is
    emitted; the only effect is the cancel request handed to the client. *)
Theorem cancelOrder_done (ord : loc) (manualCancelOrderTime : string)
    (w : World) (o : Order) (tr : loc) (trade : Trade) :
  orderObjs (heap w) !! ord = Some o →
  trades (wrapper w) !! orderKey (clientId o) (orderId o) (permId o)
    = Some tr →
  tradeObjs (heap w) !! tr = Some trade →
  isDone trade = true →
  ∃ w' : World,
    cancelOrder ord manualCancelOrderTime w = (Ok (Some tr), w')
    ∧ wrapper w' = wrapper w
    ∧ heap w' = heap w
    ∧ tradeObjs (heap w') !! tr = Some trade
    ∧ newEffects w w' =
        [Call (client_cancelOrder (orderId o) manualCancelOrderTime)]
    ∧ (∀ e, e ∈ newEffects w w' → isEmission e = false).
Proof.
  intros Hord Hkey Htr Hdone. eexists. split.
  { unfold cancelOrder. run. rewrite Hord. simpl. rewrite Hkey. simpl.
    rewrite Htr. simpl. rewrite Hdone. simpl. reflexivity. }
  unfold newEffects. simpl. rewrite drop_trace_app.
  repeat (split; [done|]).
  intros e He. apply elem_of_cons in He as [->|He]; [done|].
  by apply elem_of_nil in He.
Qed.

(** ** Composite orders *)

Lemma newLoc_fresh {A} (m : gmap loc A) : m !! newLoc m = None.
Proof. apply not_elem_of_dom. unfold newLoc. apply is_fresh. Qed.

Lemma newLoc_ne {A} (m : gmap loc A) (l : loc) (a : A) :
  m !! l = Some a → l ≠ newLoc m.
Proof. intros Hl ->. by rewrite newLoc_fresh in Hl. Qed.

(** C4. For an action that is "BUY" or "SELL", [bracketOrder] returns
    three distinct orders: the take-profit and the stop-loss order carry
    the entry order's id as their parent id, the stop-loss order has
    transmit on, the entry and the take-profit order have transmit off. *)
Theorem bracketOrder_linked (action : string)
    (quantity limitPrice takeProfitPrice stopLossPrice : Q) (w : World) :
  action = "BUY" ∨ action = "SELL" →
  ∃ (w' : World) (b : BracketOrder) (p t s : Order),
    bracketOrder action quantity limitPrice takeProfitPrice stopLossPrice w
      = (Ok b, w')
    ∧ orderObjs (heap w') !! parent b = Some p
    ∧ orderObjs (heap w') !! takeProfit b = Some t
    ∧ orderObjs (heap w') !! stopLoss b = Some s
    ∧ parent b ≠ takeProfit b ∧ parent b ≠ stopLoss b
    ∧ takeProfit b ≠ stopLoss b
    ∧ parentId t = orderId p
    ∧ parentId s = orderId p
    ∧ transmit s = true
    ∧ transmit p = false
    ∧ transmit t = false.
Proof.
  intros Hact.
  assert (Hok : bool_decide (action ∈ ["BUY"; "SELL"]) = true).
  { apply bool_decide_eq_true.
    destruct Hact as [-> | ->];
      [apply list_elem_of_here | apply list_elem_of_further, list_elem_of_here]. }
  set (reverseAction := if String.eqb action "SELL" then "BUY" else "SELL").
  set (m0 := orderObjs (heap w)).
  set (id1 := reqIdSeq (client w)).
  set (p := LimitOrder action quantity limitPrice id1 false 0).
  set (l1 := newLoc m0).
  set (m1 := <[l1 := p]> m0).
  set (t := LimitOrder reverseAction quantity takeProfitPrice (id1 + 1) false
              (orderId p)).
  set (l2 := newLoc m1).
  set (m2 := <[l2 := t]> m1).
  set (s := StopOrder reverseAction quantity stopLossPrice (id1 + 1 + 1) true
              (orderId p)).
  set (l3 := newLoc m2).
  assert (H1 : m1 !! l1 = Some p) by apply lookup_insert_eq.
  assert (H12 : l1 ≠ l2) by (eapply newLoc_ne; exact H1).
  assert (H2 : m2 !! l1 = Some p) by (unfold m2; by rewrite lookup_insert_ne).
  assert (H2' : m2 !! l2 = Some t) by apply lookup_insert_eq.
  assert (H13 : l1 ≠ l3) by (eapply newLoc_ne; exact H2).
  assert (H23 : l2 ≠ l3) by (eapply newLoc_ne; exact H2').
  eexists _, (mkBracketOrder l1 l2 l3), p, t, s. split.
  { unfold bracketOrder. run. rewrite Hok. simpl.
    unfold getReqId, newOrder. run.
    fold m0 id1 p l1. fold m1. rewrite H1. simpl.
    rewrite lookup_insert_ne by exact (not_eq_sym H12).
    rewrite lookup_insert_eq. simpl. reflexivity. }
  simpl. fold m2.
  split; [by rewrite lookup_insert_ne|].
  split; [by rewrite lookup_insert_ne|].
  split; [by rewrite lookup_insert_eq|].
  done.
Qed.

(** What the loop of [oneCancelsAll] does to one order, and to the store. *)
Definition stamp (g : string) (t : Z) (o : Order) : Order :=
  setOcaType t (setOcaGroup g o).

Definition stampAll (g : string) (t : Z) (orders : list loc)
    (m : gmap loc Order) : gmap loc Order :=
  foldl (λ m l, alter (setOcaType t) l (alter (setOcaGroup g) l m)) m orders.

Lemma stamp_idemp (g : string) (t : Z) (o : Order) :
  stamp g t (stamp g t o) = stamp g t o.
Proof. reflexivity. Qed.

Lemma stampAll_lookup (g : string) (t : Z) (orders : list loc)
    (m : gmap loc Order) (l : loc) :
  stampAll g t orders m !! l
  = if bool_decide (l ∈ orders) then stamp g t <$> m !! l else m !! l.
Proof.
  revert m. induction orders as [|x rest IH]; intros m; simpl.
  - done.
  - rewrite IH. destruct (decide (l = x)) as [->|Hne].
    + rewrite !lookup_alter_eq.
      rewrite (bool_decide_eq_true_2 (x ∈ x :: rest)) by apply list_elem_of_here.
      destruct (bool_decide (x ∈ rest)); by destruct (m !! x).
    + rewrite !lookup_alter_ne by done.
      destruct (decide (l ∈ rest)).
      * rewrite (bool_decide_eq_true_2 (l ∈ rest)) by done.
        by rewrite bool_decide_eq_true_2 by by apply list_elem_of_further.
      * rewrite (bool_decide_eq_false_2 (l ∈ rest)) by done.
        rewrite bool_decide_eq_false_2; [done|].
        rewrite elem_of_cons. by intros [?|?].
Qed.

Lemma oneCancelsAll_run (orders : list loc) (g : string) (t : Z) (w : World) :
  oneCancelsAll orders g t w
  = (Ok orders, with_heap (setOrderObjs (stampAll g t orders)) w).
Proof.
  unfold oneCancelsAll. run.
  assert (Hloop : ∀ (l : list loc) (w0 : World),
    forEach (λ o,
      modify (with_heap (setOrderObjs (alter (setOcaGroup g) o)));;
      modify (with_heap (setOrderObjs (alter (setOcaType t) o)))) l w0
    = (Ok tt, with_heap (setOrderObjs (stampAll g t l)) w0)).
  { induction l as [|x rest IH]; intros w0.
    - destruct w0 as [? ? [] ? ? ?]. reflexivity.
    - simpl. run. rewrite IH. reflexivity. }
  run. unfold mbind, M_bind, bind in Hloop. rewrite Hloop. reflexivity.
Qed.

(** C9. [oneCancelsAll] returns the list it was given; every order in the
    list gets the given [ocaGroup] and [ocaType] and keeps all its other
    fields; orders that are not in the list are untouched; and the rest of
    the session is as before: the wrapper (no trade is created), the
    client, the other objects, and the trace (nothing is sent, emitted or
    logged). *)
Theorem oneCancelsAll_tags_only (orders : list loc) (g : string) (t : Z)
    (w : World) :
  ∃ w' : World,
    oneCancelsAll orders g t w = (Ok orders, w')
    ∧ (∀ l o, l ∈ orders → orderObjs (heap w) !! l = Some o →
         ∃ o', orderObjs (heap w') !! l = Some o'
               ∧ ocaGroup o' = g ∧ ocaType o' = t
               ∧ orderClass o' = orderClass o ∧ orderId o' = orderId o
               ∧ clientId o' = clientId o ∧ permId o' = permId o
               ∧ action o' = action o
               ∧ totalQuantity o' = totalQuantity o ∧ price o' = price o
               ∧ transmit o' = transmit o ∧ parentId o' = parentId o)
    ∧ (∀ l, l ∉ orders → orderObjs (heap w') !! l = orderObjs (heap w) !! l)
    ∧ dom (orderObjs (heap w')) = dom (orderObjs (heap w))
    ∧ wrapper w' = wrapper w
    ∧ client w' = client w
    ∧ tradeObjs (heap w') = tradeObjs (heap w)
    ∧ pnlObjs (heap w') = pnlObjs (heap w)
    ∧ pnlSingleObjs (heap w') = pnlSingleObjs (heap w)
    ∧ trace w' = trace w.
Proof.
  eexists. split; [apply oneCancelsAll_run|]. simpl.
  split.
  { intros l o Hin Hl. exists (stamp g t o).
    rewrite stampAll_lookup, bool_decide_eq_true_2, Hl by done. done. }
  split.
  { intros l Hnin. by rewrite stampAll_lookup, bool_decide_eq_false_2. }
  split; [|done].
  apply set_eq. intros l. rewrite !elem_of_dom, stampAll_lookup.
  case_bool_decide; [|done]. by rewrite fmap_is_Some.
Qed.

(** ** P&L subscriptions *)

(** C8. [reqPnL] on a key that is already subscribed fails with an
    assertion error and leaves the session as it was; on a key that is not
    subscribed it takes the next request id, records the key under it,
    creates the [PnL] object, registers that object under the request id,
    sends the request, and returns the registered object.  [reqPnLSingle]
    does the same with its own maps and the [PnLSingle] object. *)
Theorem reqPnL_subscribes_once (account modelCode : string) (conId : Z)
    (w : World) :
  (is_Some (pnlKey2ReqId (wrapper w) !! (account, modelCode)) →
   reqPnL account modelCode w = (Raise AssertionError, w))
  ∧ (pnlKey2ReqId (wrapper w) !! (account, modelCode) = None →
     ∃ (w' : World) (pnl : loc),
       reqPnL account modelCode w = (Ok pnl, w')
       ∧ pnlKey2ReqId (wrapper w')
         = <[(account, modelCode) := reqIdSeq (client w)]>
             (pnlKey2ReqId (wrapper w))
       ∧ reqId2PnL (wrapper w')
         = <[reqIdSeq (client w) := pnl]> (reqId2PnL (wrapper w))
       ∧ pnlObjs (heap w) !! pnl = None
       ∧ pnlObjs (heap w') !! pnl = Some (mkPnL account modelCode)
       ∧ newEffects w w'
         = [Call (client_reqPnL (reqIdSeq (client w)) account modelCode)])
  ∧ (is_Some (pnlSingleKey2ReqId (wrapper w) !! (account, modelCode, conId)) →
     reqPnLSingle account modelCode conId w = (Raise AssertionError, w))
  ∧ (pnlSingleKey2ReqId (wrapper w) !! (account, modelCode, conId) = None →
     ∃ (w' : World) (pnlSingle : loc),
       reqPnLSingle account modelCode conId w = (Ok pnlSingle, w')
       ∧ pnlSingleKey2ReqId (wrapper w')
         = <[(account, modelCode, conId) := reqIdSeq (client w)]>
             (pnlSingleKey2ReqId (wrapper w))
       ∧ reqId2PnlSingle (wrapper w')
         = <[reqIdSeq (client w) := pnlSingle]> (reqId2PnlSingle (wrapper w))
       ∧ pnlSingleObjs (heap w) !! pnlSingle = None
       ∧ pnlSingleObjs (heap w') !! pnlSingle
         = Some (mkPnLSingle account modelCode conId)
       ∧ newEffects w w'
         = [Call (client_reqPnLSingle (reqIdSeq (client w)) account modelCode
                    conId)]).
Proof.
  split; [|split; [|split]].
  - intros [reqId Hk]. unfold reqPnL. run. by rewrite Hk.
  - intros Hk. eexists _, (newLoc (pnlObjs (heap w))). split.
    { unfold reqPnL, getReqId. run. rewrite Hk. simpl. reflexivity. }
    unfold newEffects. simpl. rewrite drop_trace_app.
    repeat (split; [done|]).
    split; [apply newLoc_fresh|]. split; [apply lookup_insert_eq|done].
  - intros [reqId Hk]. unfold reqPnLSingle. run. by rewrite Hk.
  - intros Hk. eexists _, (newLoc (pnlSingleObjs (heap w))). split.
    { unfold reqPnLSingle, getReqId. run. rewrite Hk. simpl. reflexivity. }
    unfold newEffects. simpl. rewrite drop_trace_app.
    repeat (split; [done|]).
    split; [apply newLoc_fresh|]. split; [apply lookup_insert_eq|done].
Qed.

(** ** Disconnecting *)

Lemma disconnect_off (w : World) :
  isConnected (client w) = false → disconnect w = (Ok None, w).
Proof. intros Hc. unfold disconnect. run. by rewrite Hc. Qed.

Lemma disconnect_on (w : World) :
  isConnected (client w) = true →
  ∃ w' : World,
    disconnect w = (Ok (Some (disconnectStatus (client w))), w')
    ∧ isConnected (client w') = false
    ∧ isReady (client w') = false
    ∧ wrapper w' = reset (wrapper w)
    ∧ newEffects w w'
      = [ LogInfo (disconnectStatus (client w)) None;
          Call client_disconnect;
          EmitIB disconnectedEvent None ].
Proof.
  intros Hc. eexists. split.
  { unfold disconnect, clientDisconnect. run. rewrite Hc. simpl.
    reflexivity. }
  unfold newEffects. simpl. rewrite <- !(assoc_L (++)), drop_trace_app.
  done.
Qed.

(** C10. [disconnect] on a client that is not connected returns [None] and
    leaves the whole session as it was (nothing emitted, nothing reset);
    on a connected client it hands [disconnect] to the client, emits
    [disconnectedEvent], resets the wrapper, and returns the status line.
    So an emission of [disconnectedEvent], a changed wrapper or a returned
    status line each show that the client was connected. *)
Theorem disconnect_only_when_connected (w : World) :
  (isConnected (client w) = false → disconnect w = (Ok None, w))
  ∧ (isConnected (client w) = true →
     ∃ w' : World,
       disconnect w = (Ok (Some (disconnectStatus (client w))), w')
       ∧ isConnected (client w') = false
       ∧ isReady (client w') = false
       ∧ wrapper w' = reset (wrapper w)
       ∧ trades (wrapper w') = ∅
       ∧ pnlKey2ReqId (wrapper w') = ∅
       ∧ reqId2PnL (wrapper w') = ∅
       ∧ pnlSingleKey2ReqId (wrapper w') = ∅
       ∧ reqId2PnlSingle (wrapper w') = ∅
       ∧ newEffects w w'
         = [ LogInfo (disconnectStatus (client w)) None;
             Call client_disconnect;
             EmitIB disconnectedEvent None ])
  ∧ (∀ r w', disconnect w = (r, w') →
       (∃ e, e ∈ newEffects w w' ∧ emitsIB disconnectedEvent e = true)
       ∨ wrapper w' ≠ wrapper w
       ∨ is_Some (match r with Ok s => s | Raise _ => None end)
       → isConnected (client w) = true).
Proof.
  split; [apply disconnect_off|]. split.
  - intros Hc. destruct (disconnect_on w Hc) as (w' & E & C & R & Hw & N).
    exists w'. rewrite Hw. done.
  - intros r w' Hrun Hobs.
    destruct (isConnected (client w)) eqn:Hc; [done|].
    rewrite (disconnect_off w Hc) in Hrun. injection Hrun as <- <-.
    destruct Hobs as [(e & He & _)|[Hne|Hs]].
    + unfold newEffects in He. rewrite drop_all in He.
      by apply elem_of_nil in He.
    + done.
    + by destruct Hs.
Qed.

(** ** The startup synchronisation *)

(** The error lines of a stretch of trace. *)
Definition errorLog (t : list Effect) : list string :=
  omap (λ e, match e with LogError msg _ => Some msg | _ => None end) t.

(** [w'] continues the trace of [w], logging the errors [msgs] on the way;
    and nothing was emitted on the way unless the client is no longer
    ready at [w']. *)
Definition logged (w w' : World) (msgs : list string) : Prop :=
  ∃ delta, trace w' = trace w ++ delta
           ∧ errorLog delta = msgs
           ∧ (Forall (λ e, isEmission e = false) delta
              ∨ isReady (client w') = false).

(** A client that is not ready at [w] is not ready at [w'] either. *)
Definition staysDown (w w' : World) : Prop :=
  isReady (client w) = false → isReady (client w') = false.

(** [logged], for the steps that come after the connection is made. *)
Definition carried (w w' : World) (msgs : list string) : Prop :=
  logged w w' msgs ∧ staysDown w w'.

Lemma logged_refl (w w' : World) : trace w' = trace w → logged w w' [].
Proof.
  intros E. exists []. rewrite E, app_nil_r.
  split; [done|]. split; [done|]. left. constructor.
Qed.

Lemma logged_trans (w w1 w2 : World) (a b : list string) :
  logged w w1 a → carried w1 w2 b → logged w w2 (a ++ b).
Proof.
  intros (d1 & E1 & L1 & D1) [(d2 & E2 & L2 & D2) S2]. exists (d1 ++ d2).
  rewrite E2, E1, (assoc_L (++)). split; [done|]. split.
  - unfold errorLog in *. by rewrite omap_app, L1, L2.
  - destruct D2 as [F2|N2]; [|by right].
    destruct D1 as [F1|N1]; [left; by apply Forall_app|right; by apply S2].
Qed.

Lemma logged_step (e : Effect) (w w' : World) :
  trace w' = trace w ++ [e] → isEmission e = false →
  logged w w' (errorLog [e]).
Proof.
  intros E He. exists [e]. split; [done|]. split; [done|].
  left. by apply Forall_singleton.
Qed.

Lemma carried_refl (w w' : World) :
  trace w' = trace w → client w' = client w → carried w w' [].
Proof.
  intros E C. split; [by apply logged_refl|]. unfold staysDown. by rewrite C.
Qed.

Lemma carried_trans (w w1 w2 : World) (a b : list string) :
  carried w w1 a → carried w1 w2 b → carried w w2 (a ++ b).
Proof.
  intros [L1 S1] [L2 S2]. split; [by apply (logged_trans w w1 w2)|].
  intros Hd. by apply S2, S1.
Qed.

Lemma carried_step (e : Effect) (w w' : World) :
  trace w' = trace w ++ [e] → client w' = client w → isEmission e = false →
  carried w w' (errorLog [e]).
Proof.
  intros E C He. split; [by apply logged_step|]. unfold staysDown.
  by rewrite C.
Qed.

Lemma Ok_inj {A} (a a' : A) (w w' : World) :
  (Ok a, w) = (Ok a', w') → a = a' ∧ w = w'.
Proof. intros E. by injection E. Qed.

Lemma bind_Ok {A B} (m : M A) (k : A → M B) (w w' : World) (b : B) :
  (m ≫= k) w = (Ok b, w') →
  ∃ a w1, m w = (Ok a, w1) ∧ k a w1 = (Ok b, w').
Proof.
  unfold mbind, M_bind, bind. destruct (m w) as [[a|e] w1]; [eauto|done].
Qed.

(** The names of the requests that [prepareRequests] sends. *)
Definition startupReqs (readonly : bool) (version : Z) (account : string)
    (fetchFields : StartupFetch) : list string :=
  ["positions"]
  ++ (if negb readonly && hasFlag fetchFields ORDERS_OPEN
      then ["open orders"] else [])
  ++ (if negb readonly && (150 <=? version)
         && hasFlag fetchFields ORDERS_COMPLETE
      then ["completed orders"] else [])
  ++ (if negb (String.eqb account "") && hasFlag fetchFields ACCOUNT_UPDATES
      then ["account updates"] else []).

Lemma prepareRequests_spec (readonly : bool) (account : string)
    (fetchFields : StartupFetch) (w : World) :
  ∃ w', prepareRequests readonly account fetchFields w
        = (Ok (startupReqs readonly (serverVersion (client w)) account
                 fetchFields), w')
        ∧ logged w w' []
        ∧ client w' = client w
        ∧ wrapper w' = wrapper w
        ∧ heap w' = heap w
        ∧ MaxSyncedSubAccounts w' = MaxSyncedSubAccounts w.
Proof.
  unfold prepareRequests, startupReqs, reqPositionsAsync, reqOpenOrdersAsync,
    reqCompletedOrdersAsync, reqAccountUpdatesAsync.
  destruct readonly, (hasFlag fetchFields ORDERS_OPEN),
    (150 <=? serverVersion (client w)) eqn:Hv,
    (hasFlag fetchFields ORDERS_COMPLETE),
    (negb (String.eqb account "")), (hasFlag fetchFields ACCOUNT_UPDATES);
    run; rewrite ?Hv; simpl;
    (eexists; split; [reflexivity|]; split; [|done]; simpl;
     eexists; split;
       [simpl; rewrite <- ?(assoc_L (++)); reflexivity
       |split; [reflexivity|left; repeat constructor]]).
Qed.

(** What awaiting a request yields. *)
Definition outcome (env : Env) (p : Awaited) : Result unit :=
  match raised (respond env p) with
  | Some e => Raise e
  | None => Ok tt
  end.

Lemma wait_for_spec (env : Env) (p : Awaited) (w : World) :
  ∃ w', wait_for env p w = (outcome env p, w')
        ∧ carried w w' []
        ∧ MaxSyncedSubAccounts w' = MaxSyncedSubAccounts w
        ∧ reqIdSeq (client w') = reqIdSeq (client w)
        ∧ (trace w' = trace w
           ∨ trace w' = trace w ++ [EmitIB disconnectedEvent None]).
Proof.
  assert (Hlost : ∀ w0 w1 : World,
            trace w1 = trace w0 ++ [EmitIB disconnectedEvent None] →
            isReady (client w1) = false → carried w0 w1 []).
  { intros w0 w1 E N. split; [|by intros _].
    exists [EmitIB disconnectedEvent None]. split; [done|].
    split; [done|by right]. }
  unfold wait_for, outcome, connectionLost. run.
  destruct (isConnected (client w)); simpl.
  - destruct (deliver (respond env p) (wrapper w, heap w)) as [wr h].
    destruct (alive (respond env p)), (raised (respond env p)); simpl;
      (eexists; split; [reflexivity|]; simpl;
       split; [first [by apply carried_refl | by apply Hlost]|];
       split; [done|]; split; [done|]; by eauto).
  - destruct (raised (respond env p)); simpl;
      (eexists; split; [reflexivity|]; simpl;
       split; [by apply carried_refl|];
       split; [done|]; split; [done|]; by left).
Qed.

Lemma gather_spec (env : Env) (ps : list Awaited) (w : World) :
  ∃ w', gather env ps w = (Ok (outcome env <$> ps), w')
        ∧ carried w w' []
        ∧ MaxSyncedSubAccounts w' = MaxSyncedSubAccounts w.
Proof.
  revert w. induction ps as [|p ps IH]; intros w; simpl.
  - exists w. split; [done|]. split; [by apply carried_refl|done].
  - destruct (wait_for_spec env p w) as (w1 & E1 & L1 & C1 & _).
    destruct (IH w1) as (w2 & E2 & L2 & C2).
    exists w2. unfold mbind, M_bind, bind, capture. rewrite E1, E2.
    split; [done|]. split; [exact (carried_trans _ _ _ [] [] L1 L2)|].
    congruence.
Qed.

(** The messages of lines 2074-2078. *)
Fixpoint timeoutMsgs (resps : list (string * Result unit)) : list string :=
  match resps with
  | [] => []
  | (name, resp) :: rest =>
      if isTimeout resp
      then (name +:+ " request timed out") :: timeoutMsgs rest
      else timeoutMsgs rest
  end.

Lemma collectTimeouts_spec (resps : list (string * Result unit))
    (errors : list string) (w : World) :
  ∃ w', collectTimeouts resps errors w = (Ok (errors ++ timeoutMsgs resps), w')
        ∧ carried w w' (timeoutMsgs resps)
        ∧ client w' = client w
        ∧ MaxSyncedSubAccounts w' = MaxSyncedSubAccounts w.
Proof.
  revert errors w. induction resps as [|[name resp] rest IH]; intros errors w.
  - exists w. simpl. rewrite app_nil_r. split; [done|].
    split; [by apply carried_refl|done].
  - simpl. destruct (isTimeout resp).
    + run.
      destruct (IH (errors ++ [name +:+ " request timed out"])
                  (with_trace (λ t, t ++ [LogError (name +:+ " request timed out") None]) w))
        as (w' & E & L & C & X).
      exists w'. rewrite E, <- (assoc_L (++)). split; [done|].
      split; [|done].
      eapply (carried_trans _ _ _ [name +:+ " request timed out"] _); [|exact L].
      by apply (carried_step (LogError (name +:+ " request timed out") None)).
    + apply IH.
Qed.

(** The messages of the serial phase and of the executions request. *)
Definition subAccountMsg (acc : string) : string :=
  "reqAccountUpdatesAsync for " +:+ acc +:+ " timed out".

Definition laterMsg (msg : string) : Prop :=
  (∃ acc, msg = subAccountMsg acc) ∨ msg = "executions request timed out".

Lemma syncAccounts_Ok (env : Env) (accs : list string) (errors : list string)
    (w w' : World) (errors' : list string) :
  syncAccounts env accs errors w = (Ok errors', w') →
  ∃ msgs, errors' = errors ++ msgs
          ∧ carried w w' msgs
          ∧ Forall laterMsg msgs
          ∧ MaxSyncedSubAccounts w' = MaxSyncedSubAccounts w
          ∧ reqIdSeq (client w') = reqIdSeq (client w).
Proof.
  revert errors w. induction accs as [|acc rest IH]; intros errors w Hrun.
  - simpl in Hrun. injection Hrun as <- <-. exists []. rewrite app_nil_r.
    split; [done|]. split; [by apply carried_refl|]. by split.
  - simpl in Hrun. apply bind_Ok in Hrun as (errors1 & w1 & Hstep & Hrest).
    apply IH in Hrest as (msgs & -> & Lrest & Frest & Crest & Rrest).
    unfold reqAccountUpdatesAsync in Hstep. run_in Hstep.
    match type of Hstep with context [wait_for env _ ?x] => set (wa := x) in * end.
    destruct (wait_for_spec env (AwaitSubAccount acc) wa)
      as (wb & Ew & Lw & Cw & Rw & _).
    change (MaxSyncedSubAccounts wa) with (MaxSyncedSubAccounts w) in Cw.
    change (reqIdSeq (client wa)) with (reqIdSeq (client w)) in Rw.
    rewrite Ew in Hstep.
    assert (La : carried w wb []).
    { apply (carried_trans w wa wb [] []); [|exact Lw].
      split; [|by intros ?].
      exists [StartReq (KeyName "accountValues");
              Call (client_reqAccountUpdates true acc)].
      unfold wa. simpl. rewrite <- (assoc_L (++)).
      split; [done|]. split; [done|]. left. repeat constructor. }
    destruct (outcome env (AwaitSubAccount acc)) as [[]|e].
    + injection Hstep as <- <-. exists msgs. split; [done|].
      split; [exact (carried_trans _ _ _ [] _ La Lrest)|].
      split; [done|]. split; congruence.
    + destruct e; try done. injection Hstep as <- <-.
      exists (subAccountMsg acc :: msgs).
      rewrite <- (assoc_L (++)). split; [done|]. split.
      * apply (carried_trans _ _ _ [] _ La).
        apply (carried_trans _
                 (with_trace (λ t, t ++ [LogError (subAccountMsg acc) None]) wb)
                 _ [subAccountMsg acc] _); [|done].
        by apply (carried_step (LogError (subAccountMsg acc) None)).
      * split; [constructor; [left; by exists acc|done]|].
        simpl in Crest, Rrest. split; congruence.
Qed.

Lemma syncSubAccounts_Ok (env : Env) (accs : list string)
    (errors : list string) (w w' : World) (errors' : list string) :
  syncSubAccounts env accs errors w = (Ok errors', w') →
  ∃ msgs, errors' = errors ++ msgs
          ∧ carried w w' msgs
          ∧ Forall laterMsg msgs
          ∧ reqIdSeq (client w') = reqIdSeq (client w).
Proof.
  unfold syncSubAccounts. intros Hrun.
  apply bind_Ok in Hrun as (ceiling & w0 & Hc & Hrun).
  unfold gets in Hc. injection Hc as <- <-.
  destruct (Z.of_nat (length accs) <=? MaxSyncedSubAccounts w).
  - apply bind_Ok in Hrun as (errors1 & w1 & Hs & Hrun).
    apply syncAccounts_Ok in Hs as (msgs & -> & L & F & _ & R).
    run_in Hrun. injection Hrun as <- <-. exists msgs. split; [done|].
    split; [|by split].
    rewrite <- (app_nil_r msgs). apply (carried_trans _ _ _ _ _ L).
    by apply (carried_step (LogInfo "Finished fetching all portfolio data." None)).
  - injection Hrun as <- <-. exists []. rewrite app_nil_r.
    split; [done|]. split; [by apply carried_refl|]. by split.
Qed.

Lemma syncExecutions_Ok (env : Env) (fetchFields : StartupFetch)
    (errors : list string) (w w' : World) (errors' : list string) :
  syncExecutions env fetchFields errors w = (Ok errors', w') →
  ∃ msgs, errors' = errors ++ msgs
          ∧ carried w w' msgs
          ∧ Forall laterMsg msgs.
Proof.
  unfold syncExecutions. intros Hrun.
  destruct (hasFlag fetchFields EXECUTIONS).
  - unfold reqExecutionsAsync, getReqId in Hrun. run_in Hrun.
    match type of Hrun with context [wait_for env _ ?x] => set (wa := x) in * end.
    destruct (wait_for_spec env AwaitExecutions wa) as (wb & Ew & Lw & _).
    rewrite Ew in Hrun.
    assert (La : carried w wb []).
    { apply (carried_trans w wa wb [] []); [|exact Lw].
      split; [|by intros ?].
      exists [StartReq (KeyId (reqIdSeq (client w)));
              Call (client_reqExecutions (reqIdSeq (client w)))].
      unfold wa. simpl. rewrite <- (assoc_L (++)).
      split; [done|]. split; [done|]. left. repeat constructor. }
    destruct (outcome env AwaitExecutions) as [[]|e].
    + injection Hrun as <- <-. exists []. rewrite app_nil_r. by split.
    + destruct e; try done. injection Hrun as <- <-.
      exists ["executions request timed out"]. split; [done|]. split.
      * apply (carried_trans _ _ _ [] _ La).
        by apply (carried_step (LogError "executions request timed out" None)).
      * constructor; [by right|done].
  - injection Hrun as <- <-. exists []. rewrite app_nil_r.
    split; [done|]. split; [by apply carried_refl|done].
Qed.

(** The timeout messages of the concurrent phase. *)
Definition startupErrors (env : Env) (reqs : list string) : list string :=
  timeoutMsgs (zip reqs (outcome env <$> (AwaitStartup <$> reqs))).

(** A run of [synchronize] that returns: the connection was established,
    the collected messages are those of the concurrent phase followed by
    those of the later phases, and each of them was logged, in order, as
    the only error lines; nothing was emitted, unless the socket was lost
    on the way and the client is no longer ready. *)
Lemma synchronize_Ok (env : Env) (host : string) (port clientId : Z)
    (timeout : option Q) (readonly : bool) (account : string)
    (fetchFields : StartupFetch) (w w1 : World) (errors : list string) :
  synchronize env host port clientId timeout readonly account fetchFields w
    = (Ok errors, w1) →
  connectFailure env = None
  ∧ logged w w1 errors
  ∧ ∃ later,
      errors = startupErrors env
                 (startupReqs readonly (negotiatedVersion env)
                    (mainAccount account (managedAccounts env)) fetchFields)
               ++ later
      ∧ Forall laterMsg later.
Proof.
  unfold synchronize. intros Hrun.
  apply bind_Ok in Hrun as ([] & wc & Hconn & Hrun).
  unfold clientConnect in Hconn. run_in Hconn.
  destruct (connectFailure env) as [e|] eqn:Hfail; [done|].
  injection Hconn as <-. split; [done|].
  match goal with
  | _ : context [with_client ?f (with_trace ?g w)] |- _ =>
      set (wc := with_client f (with_trace g w)) in *
  end.
  assert (Lc : logged w wc []).
  { by apply (logged_step
                (Call (client_connectAsync host port clientId timeout))). }
  apply bind_Ok in Hrun as ([] & wb & Hbind & Hrun).
  assert (carried wc wb [] ∧ client wb = client wc) as [Lb Cb].
  { destruct (clientId =? 0); unfold reqAutoOpenOrders in Hbind;
      run_in Hbind; injection Hbind as <-.
    - split; [|done].
      by apply (carried_step (Call (client_reqAutoOpenOrders true))).
    - split; [by apply carried_refl|done]. }
  apply bind_Ok in Hrun as (accs & w0 & Haccs & Hrun).
  unfold gets in Haccs. injection Haccs as <- <-.
  rewrite Cb in Hrun. change (accounts (client wc)) with (managedAccounts env) in Hrun.
  apply bind_Ok in Hrun as (reqs & wp & Hprep & Hrun).
  destruct (prepareRequests_spec readonly
              (mainAccount account (managedAccounts env)) fetchFields wb)
    as (wp' & Eprep & Lp & Cp & _).
  rewrite Eprep in Hprep. apply Ok_inj in Hprep as [<- <-].
  rewrite Cb in Hrun. change (serverVersion (client wc)) with (negotiatedVersion env) in Hrun.
  assert (Lp' : carried wb wp' []).
  { split; [exact Lp|]. unfold staysDown. by rewrite Cp. }
  apply bind_Ok in Hrun as (resps & wg & Hg & Hrun).
  match type of Hg with gather env ?ps wp' = _ =>
    destruct (gather_spec env ps wp') as (wg' & Eg & Lg & _) end.
  rewrite Eg in Hg. apply Ok_inj in Hg as [<- <-].
  apply bind_Ok in Hrun as (errors0 & wt & Ht & Hrun).
  match type of Ht with collectTimeouts ?rs [] wg' = _ =>
    destruct (collectTimeouts_spec rs [] wg') as (wt' & Et & Lt & _) end.
  rewrite Et in Ht. apply Ok_inj in Ht as [<- <-].
  rewrite app_nil_l in Hrun, Et.
  fold (startupErrors env
          (startupReqs readonly (negotiatedVersion env)
             (mainAccount account (managedAccounts env)) fetchFields))
    in Hrun, Et, Lt.
  apply bind_Ok in Hrun as (errors1 & ws & Hs & Hrun).
  apply syncSubAccounts_Ok in Hs as (msgs1 & -> & Ls & Fs & _).
  apply syncExecutions_Ok in Hrun as (msgs2 & -> & Le & Fe).
  split.
  - rewrite <- (app_nil_l (_ ++ msgs2)).
    apply (logged_trans _ _ _ _ _ Lc).
    rewrite <- (app_nil_l (_ ++ msgs2)).
    apply (carried_trans _ _ _ _ _ Lb).
    rewrite <- (app_nil_l (_ ++ msgs2)).
    apply (carried_trans _ _ _ _ _ Lp').
    rewrite <- (app_nil_l (_ ++ msgs2)).
    apply (carried_trans _ _ _ _ _ Lg).
    apply (carried_trans _ _ _ _ _ (carried_trans _ _ _ _ _ Lt Ls) Le).
  - exists (msgs1 ++ msgs2). split; [by rewrite (assoc_L (++))|].
    by apply Forall_app.
Qed.

(** How often a message occurs in a list of messages. *)
Definition occurrences (msg : string) (l : list string) : nat :=
  length (List.filter (String.eqb msg) l).

Lemma occurrences_app (msg : string) (l1 l2 : list string) :
  occurrences msg (l1 ++ l2) = (occurrences msg l1 + occurrences msg l2)%nat.
Proof. unfold occurrences. by rewrite List.filter_app, length_app. Qed.

Lemma occurrences_later (msg : string) (l : list string) :
  Forall laterMsg l →
  (∀ acc, String.eqb msg (subAccountMsg acc) = false) →
  String.eqb msg "executions request timed out" = false →
  occurrences msg l = 0%nat.
Proof.
  intros Hl Hsub Hexec. induction Hl as [|m l Hm _ IH]; [done|].
  unfold occurrences in *. simpl.
  destruct Hm as [[acc ->]| ->]; by rewrite ?Hsub, ?Hexec.
Qed.

(** ** The outcome of [connectAsync] after the synchronisation *)

Lemma disconnect_never_raises (w : World) :
  ∃ r, disconnect w = (Ok r, snd (disconnect w)).
Proof.
  unfold disconnect, clientDisconnect. run.
  destruct (isConnected (client w)); simpl; eauto.
Qed.

Lemma connectAsync_unfold (env : Env) (host : string) (port clientId : Z)
    (timeout : option Q) (readonly : bool) (account : string)
    (raiseSyncErrors : bool) (fetchFields : StartupFetch) (w : World) :
  connectAsync env host port clientId timeout readonly account raiseSyncErrors
    fetchFields w
  = match connectBody env host port clientId (orNone timeout) readonly account
            raiseSyncErrors fetchFields
            (with_wrapper (setWrapperClientId clientId) w) with
    | (Ok a, w1) => (Ok a, w1)
    | (Raise e, w1) => (Raise e, snd (disconnect w1))
    end.
Proof.
  unfold connectAsync. run.
  destruct (connectBody _ _ _ _ _ _ _ _ _ _) as [[a|e] w1]; [done|].
  destruct (disconnect_never_raises w1) as [r ->]. done.
Qed.

Lemma connectBody_after_sync (env : Env) (host : string) (port clientId : Z)
    (timeout : option Q) (readonly : bool) (account : string)
    (raiseSyncErrors : bool) (fetchFields : StartupFetch) (w w1 : World)
    (errors : list string) :
  synchronize env host port clientId timeout readonly account fetchFields w
    = (Ok errors, w1) →
  connectBody env host port clientId timeout readonly account raiseSyncErrors
    fetchFields w
  = if raiseSyncErrors && bool_decide (0 < length errors)%nat
    then (Raise (ConnectionError (ArgList errors)), w1)
    else if isReady (client w1)
    then (Ok tt,
          with_trace (λ t, (t ++ [LogInfo "Synchronization complete" None])
                           ++ [EmitIB connectedEvent None]) w1)
    else (Raise (ConnectionError
                   (ArgText "Socket connection broken while connecting")), w1).
Proof.
  intros Hs. unfold connectBody, conclude. run. rewrite Hs.
  destruct (raiseSyncErrors && bool_decide (0 < length errors)%nat); [done|].
  simpl. by destruct (isReady (client w1)).
Qed.


(** C6, as amended.  In a run of [connectAsync] with [raiseSyncErrors] off
    in which the open-orders request times out and the account-updates
    request returns, and in which the synchronisation steps run to their
    end and leave the client ready, the connect attempt completes and
    emits [connectedEvent]; the message "open orders request timed out" is
    collected exactly once and logged exactly once (the error lines logged
    are the messages collected), and no message is recorded for the
    account-updates request. *)
Theorem connectAsync_open_orders_timeout (env : Env) (host : string)
    (port clientId : Z) (timeout : option Q) (account : string)
    (fetchFields : StartupFetch) (w w1 : World) (errors : list string) :
  hasFlag fetchFields ORDERS_OPEN = true →
  outcome env (AwaitStartup "open orders") = Raise TimeoutError →
  outcome env (AwaitStartup "account updates") = Ok tt →
  synchronize env host port clientId (orNone timeout) false account
    fetchFields (with_wrapper (setWrapperClientId clientId) w)
    = (Ok errors, w1) →
  isReady (client w1) = true →
  ∃ w' : World,
    connectAsync env host port clientId timeout false account false
      fetchFields w = (Ok tt, w')
    ∧ EmitIB connectedEvent None ∈ newEffects w w'
    ∧ errorLog (newEffects w w') = errors
    ∧ occurrences "open orders request timed out" errors = 1%nat
    ∧ occurrences "open orders request timed out"
        (errorLog (newEffects w w')) = 1%nat
    ∧ occurrences "account updates request timed out" errors = 0%nat.
Proof.
  intros Hflag Hopen Hacct Hsync Hready.
  rewrite connectAsync_unfold.
  rewrite (connectBody_after_sync _ _ _ _ _ _ _ _ _ _ _ _ Hsync).
  simpl. rewrite Hready. eexists. split; [reflexivity|].
  apply synchronize_Ok in Hsync as (_ & (delta & Ht & Hlog & _) & later & -> & Hlater).
  simpl in Ht.
  assert (Hnew : newEffects w
            (with_trace (λ t, (t ++ [LogInfo "Synchronization complete" None])
                              ++ [EmitIB connectedEvent None]) w1)
          = delta ++ [LogInfo "Synchronization complete" None;
                      EmitIB connectedEvent None]).
  { apply newEffects_app. simpl. rewrite Ht.
    by rewrite <- !(assoc_L (++)). }
  rewrite Hnew.
  assert (Hel : errorLog (delta ++ [LogInfo "Synchronization complete" None;
                                    EmitIB connectedEvent None])
                = errorLog delta).
  { unfold errorLog. rewrite omap_app. simpl. by rewrite app_nil_r. }
  rewrite Hel, Hlog.
  split.
  { apply elem_of_app. right. apply list_elem_of_further, list_elem_of_here. }
  split; [done|].
  assert (Hopen' : occurrences "open orders request timed out"
            (startupErrors env
               (startupReqs false (negotiatedVersion env)
                  (mainAccount account (managedAccounts env)) fetchFields)
             ++ later) = 1%nat).
  { rewrite occurrences_app, (occurrences_later _ later) by done.
    unfold startupErrors, startupReqs. rewrite Hflag. simpl. rewrite Hopen.
    destruct (isTimeout (outcome env (AwaitStartup "positions")));
      destruct ((150 <=? negotiatedVersion env)
                && hasFlag fetchFields ORDERS_COMPLETE);
      destruct (negb (String.eqb (mainAccount account (managedAccounts env)) "")
                && hasFlag fetchFields ACCOUNT_UPDATES);
      simpl; rewrite ?Hacct; simpl;
      try destruct (isTimeout (outcome env (AwaitStartup "completed orders")));
      reflexivity. }
  split; [exact Hopen'|]. split; [exact Hopen'|].
  rewrite occurrences_app, (occurrences_later _ later) by done.
  unfold startupErrors, startupReqs. rewrite Hflag. simpl. rewrite Hopen.
  destruct (isTimeout (outcome env (AwaitStartup "positions")));
    destruct ((150 <=? negotiatedVersion env)
              && hasFlag fetchFields ORDERS_COMPLETE);
    destruct (negb (String.eqb (mainAccount account (managedAccounts env)) "")
              && hasFlag fetchFields ACCOUNT_UPDATES);
    simpl; rewrite ?Hacct; simpl;
    try destruct (isTimeout (outcome env (AwaitStartup "completed orders")));
    reflexivity.
Qed.

(** ** What a failed attempt leaves behind *)



















End Session.

(** * A concrete session

    The results above hold for every key derivation, every choice of the
    status constants and of the done states.  Here they are run on one
    choice of them and on small sessions. *)

(** Modelled from the spec: [Wrapper.orderKey], "Trade identity key =
    (clientId, orderId, permId)". *)
Definition OrderKey : Type := Z * Z * Z.

Definition tripleKey (clientId orderId permId : Z) : OrderKey :=
  (clientId, orderId, permId).

(** Modelled from the spec: "Done states: Filled, Cancelled, ApiCancelled,
    Inactive, and similar". *)
Definition sampleDoneStates : gset string :=
  {[ "Filled"; "Cancelled"; "ApiCancelled"; "Inactive" ]}.

(** A stand-in for [util.formatSI] in the examples: the integer part, in
    decimal. *)
Definition plainSI (q : Q) : string := pretty (Qnum q / Zpos (Qden q)).

Definition sampleContract : Contract := mkContract 265598 "AAPL" "STK" "SMART" "USD".

(** An order with id 7 of client 1 that was not transmitted. *)
Definition sampleOrder : Order :=
  mkOrder LimitOrderClass 7 1 0 "BUY" 100 10 false 0 "" 0.

Definition sampleTrade (st : string) : Trade :=
  mkTrade sampleContract 1%positive (mkOrderStatus 7 st) []
          [mkTradeLogEntry 999 "PendingSubmit" ""].

Definition sampleStats : ConnectionStats := mkStats 1200 30 56000 410 (15 # 2).

Definition idleClient : Client :=
  mkClient false false 1 "" 0 0 [] 0 sampleStats.

Definition readyClient : Client :=
  mkClient true true 8 "127.0.0.1" 7497 1 ["DU1"] 176 sampleStats.

(** A session that is not connected and holds nothing. *)
Definition freshWorld : World (K := OrderKey) :=
  mkWorld (mkWrapper 0 ∅ ∅ ∅ ∅ ∅) idleClient (mkHeap ∅ ∅ ∅ ∅) 50 1000 [].

(** A connected session with one trade, in the given status, for
    [sampleOrder]. *)
Definition tradingWorld (st : string) : World (K := OrderKey) :=
  mkWorld
    (mkWrapper 1 {[ tripleKey 1 7 0 := 1%positive ]}
               {[ ("DU1", "") := 3 ]} {[ 3 := 1%positive ]} ∅ ∅)
    readyClient
    (mkHeap {[ 1%positive := sampleOrder ]}
            {[ 1%positive := sampleTrade st ]}
            {[ 1%positive := mkPnL "DU1" "" ]} ∅)
    50 1000 [].

Example placeOrder_twice_one_trade :
  let first := placeOrder tripleKey "PendingSubmit" sampleDoneStates
                 sampleContract 1%positive
                 (with_heap (setOrderObjs (insert 1%positive sampleOrder))
                    (with_wrapper (setWrapperClientId 1) freshWorld)) in
  let second := placeOrder tripleKey "PendingSubmit" sampleDoneStates
                  sampleContract 1%positive (snd first) in
  fst first = Ok 1%positive
  ∧ fst second = Ok 1%positive
  ∧ size (trades (wrapper (snd second))) = 1%nat
  ∧ (log <$> tradeObjs (heap (snd second)) !! 1%positive)
    = Some [ mkTradeLogEntry 1000 "PendingSubmit" "";
             mkTradeLogEntry 1000 "PendingSubmit" "Modify" ].
Proof. vm_compute. done. Qed.

Lemma placeOrder_modify_witness :
  ∃ w' : World,
    placeOrder tripleKey "PendingSubmit" sampleDoneStates sampleContract
      1%positive (tradingWorld "Submitted") = (Ok 1%positive, w')
    ∧ wrapper w' = wrapper (tradingWorld "Submitted").
Proof.
  destruct (placeOrder_modify tripleKey "PendingSubmit" sampleDoneStates
              sampleContract 1%positive (tradingWorld "Submitted")
              sampleOrder 1%positive (sampleTrade "Submitted"))
    as (w' & entry & trade' & Hrun & Hw & _);
    [reflexivity | reflexivity | reflexivity | reflexivity |].
  exists w'. split; [exact Hrun | exact Hw].
Defined.

Lemma cancelOrder_live_witness :
  ∃ (w' : World) (trade' : Trade),
    cancelOrder tripleKey "PendingSubmit" "PendingCancel" "Cancelled"
      "Inactive" sampleDoneStates 1%positive "" (tradingWorld "PendingSubmit")
    = (Ok (Some 1%positive), w')
    ∧ tradeObjs (heap w') !! 1%positive = Some trade'
    ∧ status (orderStatus trade') = "Cancelled".
Proof.
  destruct (cancelOrder_live tripleKey "PendingSubmit" "PendingCancel"
              "Cancelled" "Inactive" sampleDoneStates 1%positive ""
              (tradingWorld "PendingSubmit") sampleOrder 1%positive
              (sampleTrade "PendingSubmit"))
    as (w' & entry & trade' & Hrun & Hl & Hc & _);
    [reflexivity | reflexivity | reflexivity | reflexivity |].
  exists w', trade'. split; [exact Hrun|]. split; [exact Hl|].
  apply Hc. left. split; reflexivity.
Defined.

Lemma cancelOrder_done_witness :
  ∃ w' : World,
    cancelOrder tripleKey "PendingSubmit" "PendingCancel" "Cancelled"
      "Inactive" sampleDoneStates 1%positive "" (tradingWorld "Filled")
    = (Ok (Some 1%positive), w')
    ∧ heap w' = heap (tradingWorld "Filled").
Proof.
  destruct (cancelOrder_done tripleKey "PendingSubmit" "PendingCancel"
              "Cancelled" "Inactive" sampleDoneStates 1%positive ""
              (tradingWorld "Filled") sampleOrder 1%positive
              (sampleTrade "Filled"))
    as (w' & Hrun & _ & Hh & _);
    [reflexivity | reflexivity | reflexivity | reflexivity |].
  exists w'. split; [exact Hrun | exact Hh].
Defined.

Example bracketOrder_buy :
  let r := bracketOrder "BUY" 100 10 11 9 (tradingWorld "Submitted") in
  fst r = Ok (mkBracketOrder 2%positive 3%positive 4%positive)
  ∧ orderObjs (heap (snd r)) !! 2%positive
    = Some (mkOrder LimitOrderClass 8 0 0 "BUY" 100 10 false 0 "" 0)
  ∧ orderObjs (heap (snd r)) !! 3%positive
    = Some (mkOrder LimitOrderClass 9 0 0 "SELL" 100 11 false 8 "" 0)
  ∧ orderObjs (heap (snd r)) !! 4%positive
    = Some (mkOrder StopOrderClass 10 0 0 "SELL" 100 9 true 8 "" 0).
Proof. vm_compute. done. Qed.

Lemma bracketOrder_linked_witness :
  ∃ (w' : World (K := OrderKey)) (b : BracketOrder) (p t s : Order),
    bracketOrder "BUY" 100 10 11 9 (tradingWorld "Submitted") = (Ok b, w')
    ∧ orderObjs (heap w') !! parent b = Some p
    ∧ orderObjs (heap w') !! takeProfit b = Some t
    ∧ orderObjs (heap w') !! stopLoss b = Some s
    ∧ parentId t = orderId p ∧ parentId s = orderId p
    ∧ transmit s = true ∧ transmit p = false ∧ transmit t = false.
Proof.
  destruct (bracketOrder_linked "BUY" 100 10 11 9 (tradingWorld "Submitted"))
    as (w' & b & p & t & s & Hrun & Hp & Ht & Hs & _ & _ & _ & Hrest);
    [left; reflexivity|].
  exists w', b, p, t, s. repeat (split; [assumption|]). exact Hrest.
Defined.

(** A second order object beside [sampleOrder], for [oneCancelsAll]. *)
Definition twoOrders : World (K := OrderKey) :=
  with_heap (setOrderObjs (insert 2%positive
    (mkOrder StopOrderClass 9 1 0 "SELL" 100 9 true 7 "" 0)))
    (tradingWorld "Submitted").

Example oneCancelsAll_pair :
  let r := oneCancelsAll [1%positive; 2%positive; 1%positive] "grp" 2 twoOrders in
  fst r = Ok [1%positive; 2%positive; 1%positive]
  ∧ orderObjs (heap (snd r)) !! 1%positive
    = Some (mkOrder LimitOrderClass 7 1 0 "BUY" 100 10 false 0 "grp" 2)
  ∧ orderObjs (heap (snd r)) !! 2%positive
    = Some (mkOrder StopOrderClass 9 1 0 "SELL" 100 9 true 7 "grp" 2)
  ∧ trace (snd r) = [].
Proof. vm_compute. done. Qed.

Lemma reqPnL_subscribes_once_witness :
  reqPnL "DU1" "" (tradingWorld "Submitted")
  = (Raise AssertionError, tradingWorld "Submitted")
  ∧ ∃ (w' : World) (pnl : loc),
      reqPnL "DU2" "" (tradingWorld "Submitted") = (Ok pnl, w')
      ∧ reqId2PnL (wrapper w') !! 8 = Some pnl
      ∧ pnlObjs (heap w') !! pnl = Some (mkPnL "DU2" "").
Proof.
  split.
  - apply (reqPnL_subscribes_once "DU1" "" 0 (tradingWorld "Submitted")).
    by exists 3.
  - destruct (reqPnL_subscribes_once "DU2" "" 0 (tradingWorld "Submitted"))
      as (_ & Hnew & _).
    destruct (Hnew eq_refl) as (w' & pnl & Hrun & _ & Hids & _ & Hobj & _).
    exists w', pnl. split; [exact Hrun|]. split; [|exact Hobj].
    rewrite Hids. apply lookup_insert_eq.
Defined.

Example disconnect_status_line :
  disconnectStatus plainSI readyClient
  = "Disconnecting from 127.0.0.1:7497, 1200B sent in 30 messages, 56000B received in 410 messages, session time 7s.".
Proof. vm_compute. done. Qed.

Lemma disconnect_only_when_connected_witness :
  disconnect plainSI freshWorld = (Ok None, freshWorld)
  ∧ ∃ w' : World,
      disconnect plainSI (tradingWorld "Submitted")
      = (Ok (Some (disconnectStatus plainSI readyClient)), w')
      ∧ trades (wrapper w') = ∅
      ∧ isConnected (client w') = false.
Proof.
  split.
  - apply (disconnect_only_when_connected plainSI freshWorld). reflexivity.
  - destruct (disconnect_only_when_connected plainSI (tradingWorld "Submitted"))
      as (_ & Hon & _).
    destruct (Hon eq_refl) as (w' & Hrun & Hc & _ & _ & Ht & _).
    exists w'. split; [exact Hrun|]. split; [exact Ht | exact Hc].
Defined.

(** ** Startup runs *)

(** The awaited request returns, nothing else happens. *)
Definition quiet : Response (K := OrderKey) := mkResponse None (λ s, s) true.

(** The deadline passes first. *)
Definition late : Response (K := OrderKey) :=
  mkResponse (Some TimeoutError) (λ s, s) true.

(** The awaited request returns, and the socket has gone down meanwhile:
    [wait_for] then has the connection lost, with the wrapper reset and
    [disconnectedEvent] emitted. *)
Definition cutOff : Response (K := OrderKey) := mkResponse None (λ s, s) false.

(** The decoder has stored an open order of another session by the time
    the request returns. *)
Definition withOpenOrder : Response (K := OrderKey) :=
  mkResponse None
    (λ '(wr, h),
       (setTrades (insert (tripleKey 1 5 0) 1%positive) wr,
        setTradeObjs (insert 1%positive
          (mkTrade sampleContract 1%positive (mkOrderStatus 5 "Submitted")
                   [] []))
          (setOrderObjs (insert 1%positive
            (mkOrder LimitOrderClass 5 1 0 "BUY" 100 10 true 0 "" 0)) h)))
    true.

(** A gateway with two managed accounts where every request returns. *)
Definition twoAccounts : Env (K := OrderKey) :=
  mkEnv None ["DU1"; "DU2"] 176 (λ _, quiet).

(** One managed account; the open-orders request times out. *)
Definition openOrdersLate : Env (K := OrderKey) :=
  mkEnv None ["DU1"] 176
    (λ p, match p with
          | AwaitStartup "open orders" => late
          | _ => quiet
          end).

(** As [openOrdersLate], and the socket goes down while the executions are
    awaited. *)
Definition openOrdersLateThenCutOff : Env (K := OrderKey) :=
  mkEnv None ["DU1"] 176
    (λ p, match p with
          | AwaitStartup "open orders" => late
          | AwaitExecutions => cutOff
          | _ => quiet
          end).

(** As [openOrdersLate], and the socket goes down while the updates of the
    account are awaited in the serial phase: the pending request fails
    with the connection. *)
Definition openOrdersLateThenFailure : Env (K := OrderKey) :=
  mkEnv None ["DU1"] 176
    (λ p, match p with
          | AwaitStartup "open orders" => late
          | AwaitSubAccount _ =>
              mkResponse (Some (ConnectionError (ArgText "Socket disconnect")))
                         (λ s, s) false
          | _ => quiet
          end).

(** The open orders arrive, then the socket goes down while the executions
    are awaited. *)
Definition ordersThenCutOff : Env (K := OrderKey) :=
  mkEnv None ["DU1"] 176
    (λ p, match p with
          | AwaitStartup "open orders" => withOpenOrder
          | AwaitExecutions => cutOff
          | _ => quiet
          end).

(** [connect()] with its defaults, [fetchFields] apart. *)
Definition connectDefault (env : Env (K := OrderKey))
    (raiseSyncErrors : bool) (fetchFields : StartupFetch)
  : M (K := OrderKey) unit :=
  connectAsync plainSI env "127.0.0.1" 7497 1 (Some 4%Q) false ""
               raiseSyncErrors fetchFields.

(** C5. The code does not do what the claim says.  With no flag at all in
    [fetchFields], and with every flag but [SUB_ACCOUNT_UPDATES], two
    managed accounts and the default ceiling of 50, [connectAsync] still
    subscribes to the account updates of each account in turn: the flag is
    never read. *)
Theorem connectAsync_ignores_SUB_ACCOUNT_UPDATES :
  hasFlag StartupFetchNONE SUB_ACCOUNT_UPDATES = false
  ∧ (let r := connectDefault twoAccounts false StartupFetchNONE freshWorld in
     fst r = Ok tt
     ∧ trace (snd r)
       = [ Call (client_connectAsync "127.0.0.1" 7497 1 (Some 4%Q));
           StartReq (KeyName "positions"); Call client_reqPositions;
           StartReq (KeyName "accountValues");
           Call (client_reqAccountUpdates true "DU1");
           StartReq (KeyName "accountValues");
           Call (client_reqAccountUpdates true "DU2");
           LogInfo "Finished fetching all portfolio data." None;
           LogInfo "Synchronization complete" None;
           EmitIB connectedEvent None ])
  ∧ (let withoutSub := Z.lxor StartupFetchALL SUB_ACCOUNT_UPDATES in
     let r := connectDefault twoAccounts false withoutSub freshWorld in
     hasFlag withoutSub SUB_ACCOUNT_UPDATES = false
     ∧ fst r = Ok tt
     ∧ Call (client_reqAccountUpdates true "DU1") ∈ trace (snd r)
     ∧ Call (client_reqAccountUpdates true "DU2") ∈ trace (snd r)
     ∧ LogInfo "Finished fetching all portfolio data." None ∈ trace (snd r)).
Proof.
  split; [reflexivity|]. split; [by vm_compute|].
  vm_compute. split; [done|]. split; [done|].
  repeat split; repeat (first [apply list_elem_of_here | apply list_elem_of_further]).
Qed.

Lemma connectAsync_open_orders_timeout_witness :
  ∃ w' : World,
    connectDefault openOrdersLate false StartupFetchALL freshWorld = (Ok tt, w')
    ∧ EmitIB connectedEvent None ∈ newEffects freshWorld w'
    ∧ errorLog (newEffects freshWorld w') = ["open orders request timed out"].
Proof.
  destruct (connectAsync_open_orders_timeout plainSI openOrdersLate
              "127.0.0.1" 7497 1 (Some 4%Q) "" StartupFetchALL freshWorld
              (snd (synchronize openOrdersLate "127.0.0.1" 7497 1 (Some 4%Q)
                      false "" StartupFetchALL
                      (with_wrapper (setWrapperClientId 1) freshWorld)))
              ["open orders request timed out"])
    as (w' & Hrun & Hev & Hlog & _);
    [reflexivity | reflexivity | reflexivity
    | vm_compute; reflexivity | reflexivity |].
  exists w'. split; [exact Hrun|]. split; [exact Hev | exact Hlog].
Defined.

(** C6 fails as stated.  The open-orders request times out, the
    account-updates request returns and [raiseSyncErrors] is off, yet the
    connect attempt raises and [connectedEvent] is not emitted, because the
    socket went down before the final check, or because a request of the
    serial phase failed with it.  And where the attempt does complete, the
    message recorded is "open orders request timed out", which does not
    contain the text "open orders timed out". *)
Lemma connectAsync_open_orders_timeout_counterexample :
  hasFlag StartupFetchALL ORDERS_OPEN = true
  ∧ outcome openOrdersLateThenCutOff (AwaitStartup "open orders")
    = Raise TimeoutError
  ∧ outcome openOrdersLateThenCutOff (AwaitStartup "account updates") = Ok tt
  ∧ (let r := connectDefault openOrdersLateThenCutOff false StartupFetchALL
                freshWorld in
     fst r = Raise (ConnectionError
                      (ArgText "Socket connection broken while connecting"))
     ∧ existsb (emitsIB connectedEvent) (trace (snd r)) = false)
  ∧ outcome openOrdersLateThenFailure (AwaitStartup "open orders")
    = Raise TimeoutError
  ∧ outcome openOrdersLateThenFailure (AwaitStartup "account updates") = Ok tt
  ∧ (let r := connectDefault openOrdersLateThenFailure false StartupFetchALL
                freshWorld in
     fst r = Raise (ConnectionError (ArgText "Socket disconnect"))
     ∧ existsb (emitsIB connectedEvent) (trace (snd r)) = false)
  ∧ (let r := connectDefault openOrdersLate false StartupFetchALL freshWorld in
     fst r = Ok tt
     ∧ errorLog (trace (snd r)) = ["open orders request timed out"]
     ∧ String.index 0 "open orders timed out" "open orders request timed out"
       = None).
Proof. vm_compute. repeat split. Qed.






(** * More of the order lifecycle *)

Section OrderLifecycle.

Set Default Proof Using "Type".

Context {K : Type} `{Countable K}.
Variable orderKey : Z → Z → Z → K.
Variable PendingSubmit : string.
Variable PendingCancel : string.
Variable Cancelled : string.
Variable Inactive : string.
Variable DoneStates : gset string.

Local Abbreviation Session := (World (K := K)).
Local Abbreviation place := (placeOrder orderKey PendingSubmit DoneStates).
Local Abbreviation cancel :=
  (cancelOrder orderKey PendingSubmit PendingCancel Cancelled Inactive
               DoneStates).
Local Abbreviation done := (inDoneStates DoneStates).

Ltac exec :=
  repeat (unfold mbind, M_bind, mret, M_ret, bind, ret, gets, modify, perform,
            assert, raise, now, deref, try_except; simpl).

(** The key under which [placeOrder] looks the order up. *)
Definition placeKey (o : Order) (w : Session) : K :=
  orderKey (wrapper_clientId (wrapper w)) (effectiveOrderId o w) (permId o).

(** The trade that [placeOrder] builds for a new order. *)
Definition freshTrade (c : Contract) (ord : loc) (o : Order) (w : Session)
  : Trade :=
  mkTrade c ord (mkOrderStatus (effectiveOrderId o w) PendingSubmit) []
          [mkTradeLogEntry (clock w) PendingSubmit ""].

(** The session after [placeOrder] has placed a new order. *)
Definition placedWorld (c : Contract) (ord : loc) (o : Order) (w : Session)
  : Session :=
  let tr := newLoc (tradeObjs (heap w)) in
  with_trace (λ t, t ++ [ Call (client_placeOrder (effectiveOrderId o w) c ord);
                          LogInfo "placeOrder: New order " (Some tr);
                          EmitIB newOrderEvent (Some tr) ])
    (with_wrapper (setTrades (insert (placeKey o w) tr))
       (with_heap (λ h,
          setTradeObjs (insert tr (freshTrade c ord o w))
            (setOrderObjs
               (alter (setOrderIds (wrapper_clientId (wrapper w))
                                   (effectiveOrderId o w)) ord) h))
          (afterOrderId o w))).

Lemma afterOrderId_frame (o : Order) (w : Session) :
  wrapper (afterOrderId o w) = wrapper w
  ∧ heap (afterOrderId o w) = heap w
  ∧ clock (afterOrderId o w) = clock w
  ∧ trace (afterOrderId o w) = trace w
  ∧ MaxSyncedSubAccounts (afterOrderId o w) = MaxSyncedSubAccounts w.
Proof. unfold afterOrderId. by destruct (orderId o =? 0). Qed.

Lemma orderId_step (o : Order) (w : Session) :
  (if orderId o =? 0 then getReqId
   else λ w0 : Session, (Ok (orderId o), w0)) w
  = (Ok (effectiveOrderId o w), afterOrderId o w).
Proof.
  unfold effectiveOrderId, afterOrderId, getReqId.
  destruct (orderId o =? 0); by exec.
Qed.

Lemma placeOrder_new_run (c : Contract) (ord : loc) (w : Session) (o : Order) :
  orderObjs (heap w) !! ord = Some o →
  trades (wrapper w) !! placeKey o w = None →
  place c ord w
  = (Ok (newLoc (tradeObjs (heap w))), placedWorld c ord o w).
Proof.
  intros Hord Hkey.
  destruct (afterOrderId_frame o w) as (Hw & Hh & Hc & Ht & Hm).
  unfold placeOrder. exec. rewrite Hord. simpl.
  rewrite orderId_step. simpl. rewrite Hw.
  unfold placeKey in Hkey. rewrite Hkey. simpl.
  rewrite Hh, Hc. unfold placedWorld, freshTrade, placeKey, with_trace,
    with_wrapper, with_heap. simpl. rewrite Hw, Hh, Hc, Ht, Hm.
  by rewrite <- !(assoc_L (++)).
Qed.

(** X1. Placing an order that has no trade under its key creates one: a new
    trade object in the initial [PendingSubmit] status, with no fills and a
    log of one entry, is registered under the key; the caller's order
    object is stamped with the wrapper's client id and the order id that
    was sent; [newOrderEvent] is the only emission. *)
Theorem placeOrder_new (c : Contract) (ord : loc) (w : Session) (o : Order) :
  orderObjs (heap w) !! ord = Some o →
  trades (wrapper w) !! placeKey o w = None →
  ∃ (w' : Session) (tr : loc),
    place c ord w = (Ok tr, w')
    ∧ tradeObjs (heap w) !! tr = None
    ∧ trades (wrapper w') = <[placeKey o w := tr]> (trades (wrapper w))
    ∧ tradeObjs (heap w') !! tr
      = Some (mkTrade c ord
                (mkOrderStatus (effectiveOrderId o w) PendingSubmit) []
                [mkTradeLogEntry (clock w) PendingSubmit ""])
    ∧ (∀ t, t ≠ tr → tradeObjs (heap w') !! t = tradeObjs (heap w) !! t)
    ∧ orderObjs (heap w') !! ord
      = Some (setOrderIds (wrapper_clientId (wrapper w))
                (effectiveOrderId o w) o)
    ∧ (∀ l, l ≠ ord → orderObjs (heap w') !! l = orderObjs (heap w) !! l)
    ∧ newEffects w w'
      = [ Call (client_placeOrder (effectiveOrderId o w) c ord);
          LogInfo "placeOrder: New order " (Some tr);
          EmitIB newOrderEvent (Some tr) ].
Proof.
  intros Hord Hkey.
  destruct (afterOrderId_frame o w) as (Hw & Hh & Hc & Ht & Hm).
  exists (placedWorld c ord o w), (newLoc (tradeObjs (heap w))).
  split; [by apply placeOrder_new_run|].
  split; [apply newLoc_fresh|].
  unfold placedWorld, newEffects. simpl. rewrite Hw, Hh, Ht.
  split; [done|]. split; [apply lookup_insert_eq|].
  split; [intros t Hne; by rewrite lookup_insert_ne|].
  split; [by rewrite lookup_alter_eq, Hord|].
  split; [intros l Hne; by rewrite lookup_alter_ne|].
  by rewrite drop_app_length.
Qed.

(** X2. Placing an order whose trade is already done fails with an
    assertion error, but only after the order has been handed to the
    client: the trade, the wrapper and every object are as before. *)
Theorem placeOrder_done_raises (c : Contract) (ord : loc) (w : Session)
    (o : Order) (tr : loc) (trade : Trade) :
  orderObjs (heap w) !! ord = Some o →
  trades (wrapper w) !! placeKey o w = Some tr →
  tradeObjs (heap w) !! tr = Some trade →
  done (status (orderStatus trade)) = true →
  ∃ w' : Session,
    place c ord w = (Raise AssertionError, w')
    ∧ wrapper w' = wrapper w
    ∧ heap w' = heap w
    ∧ newEffects w w' = [Call (client_placeOrder (effectiveOrderId o w) c ord)].
Proof.
  intros Hord Hkey Htr Hdone.
  destruct (afterOrderId_frame o w) as (Hw & Hh & Hc & Ht & Hm).
  eexists. split.
  { unfold placeOrder. exec. rewrite Hord. simpl.
    rewrite orderId_step. simpl. rewrite Hw.
    unfold placeKey in Hkey. rewrite Hkey. simpl. rewrite Hh, Htr. simpl.
    rewrite Hdone. simpl. reflexivity. }
  unfold newEffects. simpl. rewrite Hw, Hh, Ht.
  by rewrite drop_app_length.
Qed.

Lemma placeOrder_modify_run (c : Contract) (ord : loc) (w : Session)
    (o : Order) (tr : loc) (trade : Trade) :
  orderObjs (heap w) !! ord = Some o →
  trades (wrapper w) !! placeKey o w = Some tr →
  tradeObjs (heap w) !! tr = Some trade →
  done (status (orderStatus trade)) = false →
  place c ord w
  = (Ok tr,
     with_trace (λ t, t ++ [ Call (client_placeOrder (effectiveOrderId o w) c ord);
                             LogInfo "placeOrder: Modify order " (Some tr);
                             EmitTrade tr modifyEvent tr;
                             EmitIB orderModifyEvent (Some tr) ])
       (with_heap (setTradeObjs
          (alter (appendLog (mkTradeLogEntry (clock w)
                               (status (orderStatus trade)) "Modify")) tr))
          (afterOrderId o w))).
Proof.
  intros Hord Hkey Htr Hlive.
  destruct (afterOrderId_frame o w) as (Hw & Hh & Hc & Ht & Hm).
  unfold placeOrder. exec. rewrite Hord. simpl.
  rewrite orderId_step. simpl. rewrite Hw.
  unfold placeKey in Hkey. rewrite Hkey. simpl. rewrite Hh, Htr. simpl.
  rewrite Hlive. simpl. rewrite Hc.
  unfold with_trace, with_heap. simpl. by rewrite <- !(assoc_L (++)).
Qed.

(** X3. Placing the same order object twice yields one trade: the first
    call creates it, the second finds it under the same key (the first call
    has stamped the order with the id it sent) and returns it with a
    "Modify" entry added to its log; the trades map has grown by one key.
    The id that the first call sends must not be 0, and [PendingSubmit]
    must not be a done state. *)
Theorem placeOrder_twice (c : Contract) (ord : loc) (w : Session) (o : Order) :
  orderObjs (heap w) !! ord = Some o →
  trades (wrapper w) !! placeKey o w = None →
  effectiveOrderId o w ≠ 0 →
  done PendingSubmit = false →
  ∃ (w1 w2 : Session) (tr : loc),
    place c ord w = (Ok tr, w1)
    ∧ place c ord w1 = (Ok tr, w2)
    ∧ trades (wrapper w2) = <[placeKey o w := tr]> (trades (wrapper w))
    ∧ size (trades (wrapper w2)) = S (size (trades (wrapper w)))
    ∧ tradeObjs (heap w2) !! tr
      = Some (mkTrade c ord
                (mkOrderStatus (effectiveOrderId o w) PendingSubmit) []
                [ mkTradeLogEntry (clock w) PendingSubmit "";
                  mkTradeLogEntry (clock w) PendingSubmit "Modify" ])
    ∧ newEffects w1 w2
      = [ Call (client_placeOrder (effectiveOrderId o w) c ord);
          LogInfo "placeOrder: Modify order " (Some tr);
          EmitTrade tr modifyEvent tr;
          EmitIB orderModifyEvent (Some tr) ].
Proof.
  intros Hord Hkey Hid Hlive.
  destruct (afterOrderId_frame o w) as (Hw & Hh & Hc & Ht & Hm).
  set (tr := newLoc (tradeObjs (heap w))).
  set (o' := setOrderIds (wrapper_clientId (wrapper w)) (effectiveOrderId o w) o).
  set (w1 := placedWorld c ord o w).
  assert (Hord1 : orderObjs (heap w1) !! ord = Some o').
  { unfold w1, placedWorld. simpl. by rewrite Hh, lookup_alter_eq, Hord. }
  assert (Hid1 : effectiveOrderId o' w1 = effectiveOrderId o w).
  { unfold effectiveOrderId at 1. simpl.
    destruct (effectiveOrderId o w =? 0) eqn:E; [|done].
    by apply Z.eqb_eq in E. }
  assert (Hkey1 : placeKey o' w1 = placeKey o w).
  { unfold placeKey. rewrite Hid1. unfold w1, placedWorld. simpl.
    by rewrite Hw. }
  assert (Hfind : trades (wrapper w1) !! placeKey o' w1 = Some tr).
  { rewrite Hkey1. unfold w1, placedWorld. simpl. by rewrite lookup_insert_eq. }
  assert (Htr1 : tradeObjs (heap w1) !! tr = Some (freshTrade c ord o w)).
  { unfold w1, placedWorld. simpl. by rewrite lookup_insert_eq. }
  assert (Hafter : afterOrderId o' w1 = w1).
  { unfold afterOrderId. simpl.
    destruct (effectiveOrderId o w =? 0) eqn:E; [|done].
    by apply Z.eqb_eq in E. }
  eexists w1, _, tr.
  split; [by apply placeOrder_new_run|].
  split.
  { rewrite (placeOrder_modify_run c ord w1 o' tr (freshTrade c ord o w))
      by done.
    rewrite Hid1, Hafter. reflexivity. }
  unfold newEffects. simpl. rewrite Hw, Hh, Hc, Ht.
  split; [done|].
  split; [by apply map_size_insert_None|].
  split; [by rewrite lookup_alter_eq, lookup_insert_eq|].
  by rewrite drop_app_length.
Qed.

(** The session after [cancelOrder] has cancelled a trade that was not
    done. *)
Definition cancelledWorld (ord : loc) (manualCancelOrderTime : string)
    (o : Order) (tr : loc) (trade : Trade) (w : Session) : Session :=
  let newStatus :=
    cancelStatus PendingSubmit PendingCancel Cancelled Inactive
      (status (orderStatus trade)) (transmit o) in
  with_trace (λ t, t ++
      [ Call (client_cancelOrder (orderId o) manualCancelOrderTime);
        LogInfo "cancelOrder: " (Some tr);
        EmitTrade tr cancelEvent tr;
        EmitTrade tr statusEvent tr;
        EmitIB cancelOrderEvent (Some tr);
        EmitIB orderStatusEvent (Some tr) ]
      ++ (if String.eqb newStatus Cancelled
          then [EmitTrade tr cancelledEvent tr] else []))
    (with_heap (setTradeObjs (alter (setStatus newStatus) tr))
       (with_heap (setTradeObjs
          (alter (appendLog (mkTradeLogEntry (clock w) newStatus "")) tr))
          w)).

Lemma cancelOrder_live_run (ord : loc) (manualCancelOrderTime : string)
    (w : Session) (o : Order) (tr : loc) (trade : Trade) :
  orderObjs (heap w) !! ord = Some o →
  trades (wrapper w) !! orderKey (clientId o) (orderId o) (permId o)
    = Some tr →
  tradeObjs (heap w) !! tr = Some trade →
  done (status (orderStatus trade)) = false →
  cancel ord manualCancelOrderTime w
  = (Ok (Some tr), cancelledWorld ord manualCancelOrderTime o tr trade w).
Proof.
  intros Hord Hkey Htr Hlive.
  unfold cancelOrder. exec. rewrite Hord. simpl. rewrite Hkey. simpl.
  rewrite Htr. simpl. unfold isDone. rewrite Hlive. simpl.
  unfold cancelledWorld, with_trace, with_heap, setTradeObjs. simpl.
  destruct (String.eqb _ Cancelled); simpl;
    rewrite <- ?(assoc_L (++)); reflexivity.
Qed.

Lemma cancelOrder_done_run (ord : loc) (manualCancelOrderTime : string)
    (w : Session) (o : Order) (tr : loc) (trade : Trade) :
  orderObjs (heap w) !! ord = Some o →
  trades (wrapper w) !! orderKey (clientId o) (orderId o) (permId o)
    = Some tr →
  tradeObjs (heap w) !! tr = Some trade →
  done (status (orderStatus trade)) = true →
  cancel ord manualCancelOrderTime w
  = (Ok (Some tr),
     with_trace (λ t, t ++ [Call (client_cancelOrder (orderId o)
                                    manualCancelOrderTime)]) w).
Proof.
  intros Hord Hkey Htr Hdone.
  unfold cancelOrder. exec. rewrite Hord. simpl. rewrite Hkey. simpl.
  rewrite Htr. simpl. unfold isDone. by rewrite Hdone.
Qed.

(** X4. Cancelling an order that has no trade under its key returns
    [None] and logs "cancelOrder: Unknown orderId" with the order id; the
    wrapper and every object are as before and nothing is emitted, though
    the cancel request has been handed to the client. *)
Theorem cancelOrder_unknown (ord : loc) (manualCancelOrderTime : string)
    (w : Session) (o : Order) :
  orderObjs (heap w) !! ord = Some o →
  trades (wrapper w) !! orderKey (clientId o) (orderId o) (permId o) = None →
  ∃ w' : Session,
    cancel ord manualCancelOrderTime w = (Ok None, w')
    ∧ wrapper w' = wrapper w
    ∧ heap w' = heap w
    ∧ newEffects w w'
      = [ Call (client_cancelOrder (orderId o) manualCancelOrderTime);
          LogError ("cancelOrder: Unknown orderId " +:+ pretty (orderId o))
                   None ].
Proof.
  intros Hord Hkey. eexists. split.
  { unfold cancelOrder. exec. rewrite Hord. simpl. rewrite Hkey. simpl.
    reflexivity. }
  unfold newEffects. simpl.
  by rewrite <- (assoc_L (++)), drop_app_length.
Qed.

(** X5. An order that is placed with transmit off and then cancelled goes
    straight to [Cancelled]: [cancelOrder] finds the trade that
    [placeOrder] registered (the order carries the client id and order id
    that [placeOrder] stamped on it), the log reads [PendingSubmit] then
    [Cancelled], and the trade's cancelled event is emitted last.
    [PendingSubmit] must not be a done state. *)
Theorem place_then_cancel_untransmitted (c : Contract) (ord : loc)
    (manualCancelOrderTime : string) (w : Session) (o : Order) :
  orderObjs (heap w) !! ord = Some o →
  trades (wrapper w) !! placeKey o w = None →
  transmit o = false →
  done PendingSubmit = false →
  ∃ (w1 w2 : Session) (tr : loc),
    place c ord w = (Ok tr, w1)
    ∧ cancel ord manualCancelOrderTime w1 = (Ok (Some tr), w2)
    ∧ tradeObjs (heap w2) !! tr
      = Some (mkTrade c ord
                (mkOrderStatus (effectiveOrderId o w) Cancelled) []
                [ mkTradeLogEntry (clock w) PendingSubmit "";
                  mkTradeLogEntry (clock w) Cancelled "" ])
    ∧ last (newEffects w1 w2) = Some (EmitTrade tr cancelledEvent tr).
Proof.
  intros Hord Hkey Htransmit Hlive.
  destruct (afterOrderId_frame o w) as (Hw & Hh & Hc & Ht & Hm).
  set (tr := newLoc (tradeObjs (heap w))).
  set (o' := setOrderIds (wrapper_clientId (wrapper w)) (effectiveOrderId o w) o).
  set (w1 := placedWorld c ord o w).
  assert (Hord1 : orderObjs (heap w1) !! ord = Some o').
  { unfold w1, placedWorld. simpl. by rewrite Hh, lookup_alter_eq, Hord. }
  assert (Hfind : trades (wrapper w1)
                    !! orderKey (clientId o') (orderId o') (permId o')
                  = Some tr).
  { unfold w1, placedWorld, placeKey. simpl. by rewrite lookup_insert_eq. }
  assert (Htr1 : tradeObjs (heap w1) !! tr = Some (freshTrade c ord o w)).
  { unfold w1, placedWorld. simpl. by rewrite lookup_insert_eq. }
  assert (Hnew : cancelStatus PendingSubmit PendingCancel Cancelled Inactive
                   PendingSubmit (transmit o) = Cancelled).
  { unfold cancelStatus. by rewrite String.eqb_refl, Htransmit. }
  eexists w1, _, tr.
  split; [by apply placeOrder_new_run|].
  split.
  { by apply (cancelOrder_live_run ord manualCancelOrderTime w1 o' tr
                (freshTrade c ord o w)). }
  unfold cancelledWorld, newEffects. simpl. rewrite Hnew, String.eqb_refl.
  split.
  { rewrite !lookup_alter_eq, lookup_insert_eq. simpl. by rewrite Hc. }
  by rewrite drop_app_length.
Qed.

(** X6. Once a cancel has put a trade in a status that is a done state, a
    second cancel of the same order changes nothing and emits nothing; it
    only hands another cancel request to the client. *)
Theorem cancelOrder_twice (ord : loc) (manualCancelOrderTime : string)
    (w : Session) (o : Order) (tr : loc) (trade : Trade) :
  orderObjs (heap w) !! ord = Some o →
  trades (wrapper w) !! orderKey (clientId o) (orderId o) (permId o)
    = Some tr →
  tradeObjs (heap w) !! tr = Some trade →
  done (status (orderStatus trade)) = false →
  done (cancelStatus PendingSubmit PendingCancel Cancelled Inactive
          (status (orderStatus trade)) (transmit o)) = true →
  ∃ w1 w2 : Session,
    cancel ord manualCancelOrderTime w = (Ok (Some tr), w1)
    ∧ cancel ord manualCancelOrderTime w1 = (Ok (Some tr), w2)
    ∧ wrapper w2 = wrapper w1
    ∧ heap w2 = heap w1
    ∧ newEffects w1 w2
      = [Call (client_cancelOrder (orderId o) manualCancelOrderTime)].
Proof.
  intros Hord Hkey Htr Hlive Hdone.
  set (w1 := cancelledWorld ord manualCancelOrderTime o tr trade w).
  eexists w1, _.
  split; [by apply cancelOrder_live_run|].
  split.
  { eapply (cancelOrder_done_run ord manualCancelOrderTime w1 o tr).
    - exact Hord.
    - exact Hkey.
    - unfold w1, cancelledWorld. simpl. by rewrite !lookup_alter_eq, Htr.
    - exact Hdone. }
  unfold newEffects. simpl. by rewrite drop_app_length.
Qed.

End OrderLifecycle.

(** * More of the subscriptions and of the composite orders *)

Section Subscriptions.

Set Default Proof Using "Type".

Context {K : Type} `{Countable K}.

Local Abbreviation Session := (World (K := K)).

Ltac exec :=
  repeat (unfold mbind, M_bind, mret, M_ret, bind, ret, gets, modify, perform,
            assert, raise, now, deref, try_except; simpl).

(** ** [IB.cancelPnL] and [IB.cancelPnLSingle] (ib.py, lines 1008-1025,
    1052-1071) *)

(** The calls on [self.client] that cancel a P&L subscription.  The
    methods return nothing in Python; here each returns the calls of this
    kind that it made (at most one, and then it logs nothing). *)
Inductive CancelCall :=
  | client_cancelPnL (reqId : Z)
  | client_cancelPnLSingle (reqId : Z).

(** The truth value of [reqId] after [pop(key, None)]: [None] and 0 are
    false. *)
Definition truthy (reqId : option Z) : bool :=
  match reqId with
  | Some r => negb (r =? 0)
  | None => false
  end.

Definition cancelPnL (account modelCode : string) : M (K := K) (list CancelCall) :=
  let key := (account, modelCode) in
  reqId ← gets (λ w, pnlKey2ReqId (wrapper w) !! key);
  modify (with_wrapper (setPnlKey2ReqId (delete key)));;
  if truthy reqId then
    let r := default 0 reqId in
    modify (with_wrapper (setReqId2PnL (delete r)));;
    mret [client_cancelPnL r]
  else
    perform (LogError ("cancelPnL: No subscription for "
                       +:+ "account " +:+ account
                       +:+ ", modelCode " +:+ modelCode) None);;
    mret [].

Definition cancelPnLSingle (account modelCode : string) (conId : Z)
  : M (K := K) (list CancelCall) :=
  let key := (account, modelCode, conId) in
  reqId ← gets (λ w, pnlSingleKey2ReqId (wrapper w) !! key);
  modify (with_wrapper (setPnlSingleKey2ReqId (delete key)));;
  if truthy reqId then
    let r := default 0 reqId in
    modify (with_wrapper (setReqId2PnlSingle (delete r)));;
    mret [client_cancelPnLSingle r]
  else
    perform (LogError ("cancelPnLSingle: No subscription for "
                       +:+ "account " +:+ account
                       +:+ ", modelCode " +:+ modelCode
                       +:+ ", conId " +:+ pretty conId) None);;
    mret [].

(** The session after [reqPnL] has subscribed. *)
Definition subscribedWorld (account modelCode : string) (w : Session)
  : Session :=
  let reqId := reqIdSeq (client w) in
  let pnl := newLoc (pnlObjs (heap w)) in
  with_trace (λ t, t ++ [Call (client_reqPnL reqId account modelCode)])
    (with_wrapper (λ wr,
       setReqId2PnL (insert reqId pnl)
         (setPnlKey2ReqId (insert (account, modelCode) reqId) wr))
       (with_heap (setPnlObjs (insert pnl (mkPnL account modelCode)))
          (with_client (λ c,
             mkClient (isConnected c) (isReady c) (reqId + 1) (host c)
                      (port c) (client_clientId c) (accounts c)
                      (serverVersion c) (connectionStats c)) w))).

Lemma reqPnL_run (account modelCode : string) (w : Session) :
  pnlKey2ReqId (wrapper w) !! (account, modelCode) = None →
  reqPnL account modelCode w
  = (Ok (newLoc (pnlObjs (heap w))), subscribedWorld account modelCode w).
Proof.
  intros Hk. unfold reqPnL, getReqId. exec. rewrite Hk. simpl. reflexivity.
Qed.

(** X7. Subscribing to the P&L of a key and cancelling it again is a round
    trip on the wrapper: both maps are as before, the cancel request
    carries the request id of the subscription, nothing is logged, and the
    key can be subscribed to again.  The request id must not be 0 and must
    not be in use in [reqId2PnL]. *)
Theorem reqPnL_cancelPnL (account modelCode : string) (w : Session) :
  pnlKey2ReqId (wrapper w) !! (account, modelCode) = None →
  reqId2PnL (wrapper w) !! reqIdSeq (client w) = None →
  reqIdSeq (client w) ≠ 0 →
  ∃ (w1 w2 w3 : Session) (pnl pnl' : loc),
    reqPnL account modelCode w = (Ok pnl, w1)
    ∧ cancelPnL account modelCode w1
      = (Ok [client_cancelPnL (reqIdSeq (client w))], w2)
    ∧ pnlKey2ReqId (wrapper w2) = pnlKey2ReqId (wrapper w)
    ∧ reqId2PnL (wrapper w2) = reqId2PnL (wrapper w)
    ∧ trace w2 = trace w1
    ∧ reqPnL account modelCode w2 = (Ok pnl', w3).
Proof.
  intros Hk Hr Hid.
  assert (Hnz : (reqIdSeq (client w) =? 0) = false) by by apply Z.eqb_neq.
  eexists (subscribedWorld account modelCode w), _, _, _, _.
  split; [by apply reqPnL_run|].
  split.
  { unfold cancelPnL. exec. rewrite lookup_insert_eq. simpl.
    rewrite Hnz. simpl. reflexivity. }
  simpl.
  assert (Hk2 : delete (account, modelCode)
                  (<[(account, modelCode) := reqIdSeq (client w)]>
                     (pnlKey2ReqId (wrapper w)))
                = pnlKey2ReqId (wrapper w)).
  { by rewrite delete_insert_eq, delete_id. }
  split; [exact Hk2|].
  split; [by rewrite delete_insert_eq, delete_id|].
  split; [done|].
  apply reqPnL_run. simpl. rewrite Hk2. exact Hk.
Qed.

(** X8. Cancelling the P&L of a key that is not subscribed makes no call on
    the client and logs "cancelPnL: No subscription for account ...,
    modelCode ..."; the wrapper and the objects are as before. *)
Theorem cancelPnL_unknown (account modelCode : string) (w : Session) :
  pnlKey2ReqId (wrapper w) !! (account, modelCode) = None →
  ∃ w' : Session,
    cancelPnL account modelCode w = (Ok [], w')
    ∧ pnlKey2ReqId (wrapper w') = pnlKey2ReqId (wrapper w)
    ∧ reqId2PnL (wrapper w') = reqId2PnL (wrapper w)
    ∧ heap w' = heap w
    ∧ newEffects w w'
      = [LogError ("cancelPnL: No subscription for account " +:+ account
                   +:+ ", modelCode " +:+ modelCode) None].
Proof.
  intros Hk. eexists. split.
  { unfold cancelPnL. exec. rewrite Hk. simpl. reflexivity. }
  unfold newEffects. simpl. rewrite drop_app_length.
  split; [by apply delete_id|]. done.
Qed.

(** X9. A second [reqPnL] for a key that the first call has subscribed
    fails with an assertion error and leaves the first subscription as it
    is. *)
Theorem reqPnL_twice (account modelCode : string) (w : Session) :
  pnlKey2ReqId (wrapper w) !! (account, modelCode) = None →
  ∃ (w1 : Session) (pnl : loc),
    reqPnL account modelCode w = (Ok pnl, w1)
    ∧ reqPnL account modelCode w1 = (Raise AssertionError, w1)
    ∧ pnlKey2ReqId (wrapper w1) !! (account, modelCode)
      = Some (reqIdSeq (client w))
    ∧ reqId2PnL (wrapper w1) !! reqIdSeq (client w) = Some pnl.
Proof.
  intros Hk. eexists (subscribedWorld account modelCode w), _.
  split; [by apply reqPnL_run|].
  split.
  { unfold reqPnL. exec. rewrite lookup_insert_eq. simpl. reflexivity. }
  simpl. by rewrite !lookup_insert_eq.
Qed.

(** The session after [reqPnLSingle] has subscribed. *)
Definition subscribedSingleWorld (account modelCode : string) (conId : Z)
    (w : Session) : Session :=
  let reqId := reqIdSeq (client w) in
  let pnlSingle := newLoc (pnlSingleObjs (heap w)) in
  with_trace (λ t, t ++ [Call (client_reqPnLSingle reqId account modelCode
                                 conId)])
    (with_wrapper (λ wr,
       setReqId2PnlSingle (insert reqId pnlSingle)
         (setPnlSingleKey2ReqId (insert (account, modelCode, conId) reqId) wr))
       (with_heap (setPnlSingleObjs
          (insert pnlSingle (mkPnLSingle account modelCode conId)))
          (with_client (λ c,
             mkClient (isConnected c) (isReady c) (reqId + 1) (host c)
                      (port c) (client_clientId c) (accounts c)
                      (serverVersion c) (connectionStats c)) w))).

Lemma reqPnLSingle_run (account modelCode : string) (conId : Z) (w : Session) :
  pnlSingleKey2ReqId (wrapper w) !! (account, modelCode, conId) = None →
  reqPnLSingle account modelCode conId w
  = (Ok (newLoc (pnlSingleObjs (heap w))),
     subscribedSingleWorld account modelCode conId w).
Proof.
  intros Hk. unfold reqPnLSingle, getReqId. exec. rewrite Hk. simpl.
  reflexivity.
Qed.

(** X10. [reqPnLSingle] followed by [cancelPnLSingle] for the same key is a
    round trip on the wrapper as well, under the same conditions on the
    request id; and [cancelPnLSingle] for a key that is not subscribed only
    logs an error. *)
Theorem reqPnLSingle_cancelPnLSingle (account modelCode : string) (conId : Z)
    (w : Session) :
  pnlSingleKey2ReqId (wrapper w) !! (account, modelCode, conId) = None →
  reqId2PnlSingle (wrapper w) !! reqIdSeq (client w) = None →
  reqIdSeq (client w) ≠ 0 →
  (∃ w0 : Session,
     cancelPnLSingle account modelCode conId w = (Ok [], w0)
     ∧ wrapper w0 = wrapper w
     ∧ newEffects w w0
       = [LogError ("cancelPnLSingle: No subscription for account "
                    +:+ account +:+ ", modelCode " +:+ modelCode
                    +:+ ", conId " +:+ pretty conId) None])
  ∧ ∃ (w1 w2 : Session) (pnlSingle : loc),
      reqPnLSingle account modelCode conId w = (Ok pnlSingle, w1)
      ∧ cancelPnLSingle account modelCode conId w1
        = (Ok [client_cancelPnLSingle (reqIdSeq (client w))], w2)
      ∧ pnlSingleKey2ReqId (wrapper w2) = pnlSingleKey2ReqId (wrapper w)
      ∧ reqId2PnlSingle (wrapper w2) = reqId2PnlSingle (wrapper w)
      ∧ trace w2 = trace w1.
Proof.
  intros Hk Hr Hid.
  assert (Hnz : (reqIdSeq (client w) =? 0) = false) by by apply Z.eqb_neq.
  split.
  - eexists. split.
    { unfold cancelPnLSingle. exec. rewrite Hk. simpl. reflexivity. }
    unfold newEffects. simpl. rewrite drop_app_length. split; [|done].
    destruct (wrapper w) as [cid tr k2r r2p sk2r r2s]. simpl in *.
    unfold setPnlSingleKey2ReqId. simpl. by rewrite delete_id.
  - eexists (subscribedSingleWorld account modelCode conId w), _, _.
    split; [by apply reqPnLSingle_run|].
    split.
    { unfold cancelPnLSingle. exec. rewrite lookup_insert_eq. simpl.
      rewrite Hnz. simpl. reflexivity. }
    simpl. split; [by rewrite delete_insert_eq, delete_id|].
    split; [by rewrite delete_insert_eq, delete_id|done].
Qed.

End Subscriptions.

Section Composite.

Set Default Proof Using "Type".

Context {K : Type} `{Countable K}.
Variable formatSI : Q → string.

Local Abbreviation Session := (World (K := K)).

Ltac exec :=
  repeat (unfold mbind, M_bind, mret, M_ret, bind, ret, gets, modify, perform,
            assert, raise, now, deref, try_except; simpl).

(** X11. [bracketOrder] takes three consecutive request ids: the entry
    order is a limit order with the first id, the given action and limit
    price; the take-profit order is a limit order with the second id and
    the stop-loss order a stop order with the third, both with the opposite
    action, the same quantity and the entry order's id as parent.  The
    client's next id has advanced by three; nothing is sent, logged or
    emitted, the wrapper is untouched and so is every order that existed
    before. *)
Theorem bracketOrder_ids (action : string)
    (quantity limitPrice takeProfitPrice stopLossPrice : Q) (w : Session) :
  action = "BUY" ∨ action = "SELL" →
  let n := reqIdSeq (client w) in
  let reverse := if String.eqb action "SELL" then "BUY" else "SELL" in
  ∃ (w' : Session) (b : BracketOrder),
    bracketOrder action quantity limitPrice takeProfitPrice stopLossPrice w
      = (Ok b, w')
    ∧ orderObjs (heap w') !! parent b
      = Some (mkOrder LimitOrderClass n 0 0 action quantity limitPrice
                false 0 "" 0)
    ∧ orderObjs (heap w') !! takeProfit b
      = Some (mkOrder LimitOrderClass (n + 1) 0 0 reverse quantity
                takeProfitPrice false n "" 0)
    ∧ orderObjs (heap w') !! stopLoss b
      = Some (mkOrder StopOrderClass (n + 2) 0 0 reverse quantity
                stopLossPrice true n "" 0)
    ∧ reverse ≠ action
    ∧ reqIdSeq (client w') = n + 3
    ∧ (∀ l o, orderObjs (heap w) !! l = Some o →
              orderObjs (heap w') !! l = Some o)
    ∧ wrapper w' = wrapper w
    ∧ tradeObjs (heap w') = tradeObjs (heap w)
    ∧ trace w' = trace w.
Proof.
  intros Hact n reverse.
  assert (Hok : bool_decide (action ∈ ["BUY"; "SELL"]) = true).
  { apply bool_decide_eq_true.
    destruct Hact as [-> | ->];
      [apply list_elem_of_here | apply list_elem_of_further, list_elem_of_here]. }
  set (m0 := orderObjs (heap w)).
  set (p := LimitOrder action quantity limitPrice n false 0).
  set (l1 := newLoc m0).
  set (m1 := <[l1 := p]> m0).
  set (t := LimitOrder reverse quantity takeProfitPrice (n + 1) false n).
  set (l2 := newLoc m1).
  set (m2 := <[l2 := t]> m1).
  set (l3 := newLoc m2).
  assert (H0 : m0 !! l1 = None) by apply newLoc_fresh.
  assert (H1 : m1 !! l1 = Some p) by apply lookup_insert_eq.
  assert (H12 : l1 ≠ l2) by (eapply newLoc_ne; exact H1).
  assert (H2 : m2 !! l1 = Some p) by (unfold m2; by rewrite lookup_insert_ne).
  assert (H2' : m2 !! l2 = Some t) by apply lookup_insert_eq.
  assert (H13 : l1 ≠ l3) by (eapply newLoc_ne; exact H2).
  assert (H23 : l2 ≠ l3) by (eapply newLoc_ne; exact H2').
  eexists _, (mkBracketOrder l1 l2 l3). split.
  { unfold bracketOrder. exec. rewrite Hok. simpl.
    unfold getReqId, newOrder. exec.
    fold m0 n p l1. fold m1. rewrite H1. simpl.
    rewrite lookup_insert_ne by exact (not_eq_sym H12).
    rewrite lookup_insert_eq. simpl. reflexivity. }
  simpl. fold m0 n p l1. fold m1. fold reverse.
  split; [by rewrite !lookup_insert_ne|].
  split; [by rewrite lookup_insert_ne, lookup_insert_eq|].
  split.
  { rewrite lookup_insert_eq. f_equal. unfold StopOrder. f_equal. lia. }
  split; [unfold reverse; by destruct Hact as [-> | ->]|].
  split; [lia|].
  split; [|done].
  intros l o Hl.
  assert (l ≠ l1).
  { intros ->. change (m0 !! l1 = Some o) in Hl. rewrite H0 in Hl. discriminate. }
  assert (Hl1 : m1 !! l = Some o) by (unfold m1; by rewrite lookup_insert_ne).
  assert (l ≠ l2) by (eapply newLoc_ne; exact Hl1).
  assert (Hl2 : m2 !! l = Some o) by (unfold m2; by rewrite lookup_insert_ne).
  assert (l ≠ l3) by (eapply newLoc_ne; exact Hl2).
  by rewrite !lookup_insert_ne.
Qed.

(** X12. [bracketOrder] with an action that is neither "BUY" nor "SELL"
    fails with an assertion error before anything happens: no request id is
    taken and no order is created. *)
Theorem bracketOrder_bad_action (action : string)
    (quantity limitPrice takeProfitPrice stopLossPrice : Q) (w : Session) :
  action ≠ "BUY" →
  action ≠ "SELL" →
  bracketOrder action quantity limitPrice takeProfitPrice stopLossPrice w
  = (Raise AssertionError, w).
Proof.
  intros Hb Hs.
  assert (Hno : bool_decide (action ∈ ["BUY"; "SELL"]) = false).
  { apply bool_decide_eq_false. intros Hin.
    apply elem_of_cons in Hin as [->|Hin]; [done|].
    apply elem_of_cons in Hin as [->|Hin]; [done|].
    by apply elem_of_nil in Hin. }
  unfold bracketOrder. exec. by rewrite Hno.
Qed.

Lemma stampAll_stampAll (g1 g2 : string) (t1 t2 : Z) (orders : list loc)
    (m : gmap loc Order) :
  stampAll g2 t2 orders (stampAll g1 t1 orders m) = stampAll g2 t2 orders m.
Proof.
  apply map_eq. intros l. rewrite !stampAll_lookup.
  destruct (bool_decide (l ∈ orders)); [|done]. by destruct (m !! l).
Qed.

(** X13. Tagging the same orders a second time overrides the first tags:
    [oneCancelsAll] with a second group and type after a first leaves the
    session exactly as the second alone would; in particular tagging twice
    with the same values is the same as tagging once. *)
Theorem oneCancelsAll_last_wins (orders : list loc) (g1 g2 : string)
    (t1 t2 : Z) (w : Session) :
  snd (oneCancelsAll orders g2 t2 (snd (oneCancelsAll orders g1 t1 w)))
  = snd (oneCancelsAll orders g2 t2 w).
Proof.
  rewrite !oneCancelsAll_run. simpl.
  unfold with_heap, setOrderObjs. simpl. by rewrite stampAll_stampAll.
Qed.

(** ** [IB.isConnected] (ib.py, lines 410-412) *)

Definition IB_isConnected : M (K := K) bool :=
  gets (λ w, isReady (client w)).

(** X14. After [disconnect] on a connected client, [IB.isConnected] answers
    false, and a second [disconnect] returns [None] and changes nothing. *)
Theorem disconnect_twice (w : Session) :
  isConnected (client w) = true →
  ∃ (w1 : Session) (status : string),
    disconnect formatSI w = (Ok (Some status), w1)
    ∧ IB_isConnected w1 = (Ok false, w1)
    ∧ disconnect formatSI w1 = (Ok None, w1).
Proof.
  intros Hc. destruct (disconnect_on formatSI w Hc) as (w1 & Hrun & Hc1 & Hr1 & _).
  exists w1, (disconnectStatus formatSI (client w)).
  split; [exact Hrun|]. split.
  - unfold IB_isConnected, gets. by rewrite Hr1.
  - by apply disconnect_off.
Qed.

End Composite.

(** * More of the startup synchronisation *)

Section Startup.

Set Default Proof Using "Type".

Context {K : Type} `{Countable K}.
Variable formatSI : Q → string.

Local Abbreviation Session := (World (K := K)).
Local Abbreviation Comp := (M (K := K)).

Ltac exec :=
  repeat (unfold mbind, M_bind, mret, M_ret, bind, ret, gets, modify, perform,
            assert, raise, now, deref, try_except, capture; simpl).

(** ** Computations that only add to the trace *)

(** Whatever [m] returns or raises, it leaves the trace it found in place
    and every effect that it appends satisfies [P]. *)
Definition Adds {A} (P : Effect → Prop) (m : Comp A) : Prop :=
  ∀ w : Session,
    ∃ delta, trace (snd (m w)) = trace w ++ delta ∧ Forall P delta.

Lemma Adds_ret {A} (P : Effect → Prop) (a : A) : Adds P (ret a).
Proof. intros w. exists []. split; [exec; by rewrite app_nil_r|constructor]. Qed.

Lemma Adds_raise {A} (P : Effect → Prop) (e : Exn) : Adds P (raise (A := A) e).
Proof. intros w. exists []. split; [exec; by rewrite app_nil_r|constructor]. Qed.

Lemma Adds_gets {A} (P : Effect → Prop) (f : Session → A) : Adds P (gets f).
Proof. intros w. exists []. split; [exec; by rewrite app_nil_r|constructor]. Qed.

Lemma Adds_modify (P : Effect → Prop) (f : Session → Session) :
  (∀ w, trace (f w) = trace w) → Adds P (modify f).
Proof.
  intros Hf w. exists []. split; [exec; by rewrite Hf, app_nil_r|constructor].
Qed.

Lemma Adds_perform (P : Effect → Prop) (e : Effect) : P e → Adds P (perform e).
Proof. intros He w. exists [e]. split; [done|by constructor]. Qed.

Lemma Adds_bind {A B} (P : Effect → Prop) (m : Comp A) (k : A → Comp B) :
  Adds P m → (∀ a, Adds P (k a)) → Adds P (m ≫= k).
Proof.
  intros Hm Hk w. destruct (Hm w) as (d1 & E1 & F1).
  unfold mbind, M_bind, bind. destruct (m w) as [[a|e] w1]; simpl in *.
  - destruct (Hk a w1) as (d2 & E2 & F2). exists (d1 ++ d2).
    rewrite E2, E1, (assoc_L (++)). split; [done|by apply Forall_app].
  - by exists d1.
Qed.

Lemma Adds_try_except {A} (P : Effect → Prop) (m : Comp A) (h : Exn → Comp A) :
  Adds P m → (∀ e, Adds P (h e)) → Adds P (try_except m h).
Proof.
  intros Hm Hh w. destruct (Hm w) as (d1 & E1 & F1).
  unfold try_except. destruct (m w) as [[a|e] w1]; simpl in *.
  - by exists d1.
  - destruct (Hh e w1) as (d2 & E2 & F2). exists (d1 ++ d2).
    rewrite E2, E1, (assoc_L (++)). split; [done|by apply Forall_app].
Qed.

Lemma Adds_capture {A} (P : Effect → Prop) (m : Comp A) :
  Adds P m → Adds P (capture m).
Proof.
  intros Hm w. destruct (Hm w) as (delta & E & F).
  unfold capture. destruct (m w) as [r w1]. by exists delta.
Qed.

(** Awaiting adds nothing to the trace, unless the socket goes down. *)
Lemma Adds_wait_for (P : Effect → Prop) (env : Env) (p : Awaited) :
  P (EmitIB disconnectedEvent None) → Adds P (wait_for env p).
Proof.
  intros HP w.
  destruct (wait_for_spec env p w) as (w' & E & _ & _ & _ & [T|T]);
    rewrite E; simpl.
  - exists []. by rewrite T, app_nil_r.
  - exists [EmitIB disconnectedEvent None]. split; [done|by constructor].
Qed.

Lemma Adds_gather (P : Effect → Prop) (env : Env) (ps : list Awaited) :
  P (EmitIB disconnectedEvent None) → Adds P (gather env ps).
Proof.
  intros HP. induction ps as [|p ps IH]; simpl; [apply Adds_ret|].
  apply Adds_bind; [by apply Adds_capture, Adds_wait_for|intros r].
  apply Adds_bind; [exact IH|intros rs]. apply Adds_ret.
Qed.

Ltac adds :=
  first [ apply Adds_ret | apply Adds_raise | apply Adds_gets
        | apply Adds_wait_for | apply Adds_perform
        | apply Adds_bind; [adds | intros ?; adds]
        | apply Adds_try_except; [adds | intros ?; adds]
        | idtac ].

(** ** What [connectAsync] does after the initial requests are out *)

(** The effects of the later part of the synchronisation: awaiting the
    initial requests, during which the socket may go down, the serial phase
    over the accounts, and the request for executions, which is made only
    with the [EXECUTIONS] flag. *)
Definition laterEffect (fetchFields : StartupFetch) (e : Effect) : bool :=
  match e with
  | StartReq (KeyName name) => String.eqb name "accountValues"
  | StartReq (KeyId _) => hasFlag fetchFields EXECUTIONS
  | Call (client_reqAccountUpdates subscribe _) => subscribe
  | Call (client_reqExecutions _) => hasFlag fetchFields EXECUTIONS
  | EmitIB disconnectedEvent None => true
  | LogInfo _ None => true
  | LogError _ None => true
  | _ => false
  end.

Local Abbreviation Later fetchFields :=
  (λ e : Effect, laterEffect fetchFields e = true).

Lemma Adds_collectTimeouts (fetchFields : StartupFetch)
    (resps : list (string * Result unit)) (errors : list string) :
  Adds (Later fetchFields) (collectTimeouts resps errors).
Proof.
  revert errors. induction resps as [|[name resp] rest IH]; intros errors;
    simpl.
  - apply Adds_ret.
  - destruct (isTimeout resp); [|apply IH].
    apply Adds_bind; [by apply Adds_perform|intros _; apply IH].
Qed.

Lemma Adds_syncAccounts (fetchFields : StartupFetch) (env : Env)
    (accs : list string) (errors : list string) :
  Adds (Later fetchFields) (syncAccounts env accs errors).
Proof.
  revert errors. induction accs as [|acc rest IH]; intros errors; simpl.
  - apply Adds_ret.
  - apply Adds_bind; [|intros errors'; apply IH].
    apply Adds_try_except.
    + unfold reqAccountUpdatesAsync. adds; done.
    + intros e. destruct e; adds; done.
Qed.

Lemma Adds_syncSubAccounts (fetchFields : StartupFetch) (env : Env)
    (accs : list string) (errors : list string) :
  Adds (Later fetchFields) (syncSubAccounts env accs errors).
Proof.
  unfold syncSubAccounts. apply Adds_bind; [apply Adds_gets|intros ceiling].
  destruct (Z.of_nat (length accs) <=? ceiling); [|apply Adds_ret].
  apply Adds_bind; [apply Adds_syncAccounts|intros errors'].
  adds; done.
Qed.

Lemma Adds_syncExecutions (fetchFields : StartupFetch) (env : Env)
    (errors : list string) :
  Adds (Later fetchFields) (syncExecutions env fetchFields errors).
Proof.
  unfold syncExecutions.
  destruct (hasFlag fetchFields EXECUTIONS) eqn:Hflag; [|apply Adds_ret].
  apply Adds_try_except.
  - unfold reqExecutionsAsync, getReqId.
    repeat first [ apply Adds_ret | apply Adds_gets
                 | apply Adds_wait_for; reflexivity
                 | apply Adds_perform; simpl; exact Hflag
                 | apply Adds_modify; intros ?; reflexivity
                 | apply Adds_bind; [|intros ?] ].
  - intros e. destruct e; adds; done.
Qed.

(** ** The calls that open the synchronisation *)

(** Lines 2043-2047: the connection, and the binding of manual orders for
    client 0. *)
Definition connectCalls (host : string) (port clientId : Z)
    (timeout : option Q) : list Effect :=
  Call (client_connectAsync host port clientId timeout)
  :: (if clientId =? 0 then [Call (client_reqAutoOpenOrders true)] else []).

(** Lines 2055-2068: the initial requests, in the order in which they are
    sent. *)
Definition startupCalls (readonly : bool) (version : Z) (account : string)
    (fetchFields : StartupFetch) : list Effect :=
  [StartReq (KeyName "positions"); Call client_reqPositions]
  ++ (if negb readonly && hasFlag fetchFields ORDERS_OPEN
      then [StartReq (KeyName "openOrders"); Call client_reqOpenOrders]
      else [])
  ++ (if negb readonly && (150 <=? version)
         && hasFlag fetchFields ORDERS_COMPLETE
      then [StartReq (KeyName "completedOrders");
            Call (client_reqCompletedOrders false)]
      else [])
  ++ (if negb (String.eqb account "") && hasFlag fetchFields ACCOUNT_UPDATES
      then [StartReq (KeyName "accountValues");
            Call (client_reqAccountUpdates true account)]
      else []).

Lemma prepareRequests_trace (readonly : bool) (account : string)
    (fetchFields : StartupFetch) (w : Session) :
  trace (snd (prepareRequests readonly account fetchFields w))
  = trace w
    ++ startupCalls readonly (serverVersion (client w)) account fetchFields.
Proof.
  unfold prepareRequests, startupCalls, reqPositionsAsync, reqOpenOrdersAsync,
    reqCompletedOrdersAsync, reqAccountUpdatesAsync.
  destruct readonly, (hasFlag fetchFields ORDERS_OPEN),
    (150 <=? serverVersion (client w)) eqn:Hv,
    (hasFlag fetchFields ORDERS_COMPLETE),
    (negb (String.eqb account "")), (hasFlag fetchFields ACCOUNT_UPDATES);
    exec; rewrite ?Hv; simpl; rewrite <- ?(assoc_L (++)); reflexivity.
Qed.

Lemma bind_step {A B} (m : Comp A) (k : A → Comp B) (w w1 : Session) (a : A) :
  m w = (Ok a, w1) → (m ≫= k) w = k a w1.
Proof. intros E. unfold mbind, M_bind, bind. by rewrite E. Qed.

Lemma bind_fail {A B} (m : Comp A) (k : A → Comp B) (w w1 : Session)
    (e : Exn) :
  m w = (Raise e, w1) → (m ≫= k) w = (Raise e, w1).
Proof. intros E. unfold mbind, M_bind, bind. by rewrite E. Qed.

(** When the connection is established, [synchronize] first makes the
    opening calls and sends the initial requests, whatever happens later. *)
Lemma synchronize_trace (env : Env) (host : string) (port clientId : Z)
    (timeout : option Q) (readonly : bool) (account : string)
    (fetchFields : StartupFetch) (w : Session) :
  connectFailure env = None →
  ∃ delta,
    trace (snd (synchronize env host port clientId timeout readonly account
                  fetchFields w))
    = trace w
      ++ connectCalls host port clientId timeout
      ++ startupCalls readonly (negotiatedVersion env)
           (mainAccount account (managedAccounts env)) fetchFields
      ++ delta
    ∧ Forall (Later fetchFields) delta.
Proof.
  intros Hfail. unfold synchronize.
  set (wc := with_client (λ c,
               mkClient true true (reqIdSeq c) host port clientId
                        (managedAccounts env) (negotiatedVersion env)
                        (connectionStats c))
               (with_trace (λ t, t ++ [Call (client_connectAsync host port
                                              clientId timeout)]) w)).
  assert (Hc : clientConnect env host port clientId timeout w = (Ok tt, wc)).
  { unfold clientConnect. exec. by rewrite Hfail. }
  rewrite (bind_step _ _ _ _ _ Hc).
  set (wb := if clientId =? 0
             then with_trace (λ t, t ++ [Call (client_reqAutoOpenOrders true)])
                    wc
             else wc).
  assert (Hb : (if clientId =? 0 then reqAutoOpenOrders true else mret tt) wc
               = (Ok tt, wb)).
  { unfold wb. by destruct (clientId =? 0). }
  rewrite (bind_step _ _ _ _ _ Hb).
  assert (Hcb : client wb = client wc).
  { unfold wb. by destruct (clientId =? 0). }
  assert (Htb : trace wb = trace w ++ connectCalls host port clientId timeout).
  { unfold wb, connectCalls. destruct (clientId =? 0); simpl;
      by rewrite <- ?(assoc_L (++)). }
  rewrite (bind_step (gets (λ w, accounts (client w))) _ wb wb _ eq_refl).
  cbv beta zeta. rewrite Hcb.
  change (accounts (client wc)) with (managedAccounts env).
  destruct (prepareRequests_spec readonly
              (mainAccount account (managedAccounts env)) fetchFields wb)
    as (wp & Ep & _).
  pose proof (prepareRequests_trace readonly
                (mainAccount account (managedAccounts env)) fetchFields wb)
    as Tp.
  rewrite Ep in Tp. simpl in Tp. rewrite Hcb in Tp.
  change (serverVersion (client wc)) with (negotiatedVersion env) in Tp.
  rewrite (bind_step _ _ _ _ _ Ep).
  match goal with
  | |- context [snd (?m wp)] => assert (Ht : Adds (Later fetchFields) m)
  end.
  { apply Adds_bind; [by apply Adds_gather|intros resps].
    apply Adds_bind; [apply Adds_collectTimeouts|intros errors0].
    apply Adds_bind; [apply Adds_syncSubAccounts|intros errors1].
    apply Adds_syncExecutions. }
  destruct (Ht wp) as (delta & E & F). exists delta. split; [|done].
  rewrite E, Tp, Htb. by rewrite <- !(assoc_L (++)).
Qed.

(** What [disconnect] adds to the trace for a client. *)
Definition unwinding (c : Client) : list Effect :=
  if isConnected c
  then [ LogInfo (disconnectStatus formatSI c) None;
         Call client_disconnect;
         EmitIB disconnectedEvent None ]
  else [].

Lemma disconnect_trace (w : Session) :
  trace (snd (disconnect formatSI w)) = trace w ++ unwinding (client w)
  ∧ isConnected (client (snd (disconnect formatSI w))) = false.
Proof.
  unfold disconnect, clientDisconnect, unwinding. exec.
  destruct (isConnected (client w)) eqn:E; simpl.
  - by rewrite <- !(assoc_L (++)).
  - by rewrite app_nil_r.
Qed.

Lemma connectAsync_refused_run (env : Env) (host : string) (port clientId : Z)
    (timeout : option Q) (readonly : bool) (account : string)
    (raiseSyncErrors : bool) (fetchFields : StartupFetch) (w : Session)
    (e : Exn) :
  connectFailure env = Some e →
  connectAsync formatSI env host port clientId timeout readonly account
    raiseSyncErrors fetchFields w
  = (Raise e,
     snd (disconnect formatSI
            (with_trace (λ t, t ++ [Call (client_connectAsync host port
                                           clientId (orNone timeout))])
               (with_wrapper (setWrapperClientId clientId) w)))).
Proof.
  intros Hfail. rewrite connectAsync_unfold.
  unfold connectBody, synchronize, clientConnect. exec. by rewrite Hfail.
Qed.

(** The whole trace of a connect attempt whose connection is established:
    the opening calls, the initial requests, the later part, and then either
    the two closing lines of a completed attempt or what [disconnect] does
    after a failed one. *)
Lemma connectAsync_trace (env : Env) (host : string) (port clientId : Z)
    (timeout : option Q) (readonly : bool) (account : string)
    (raiseSyncErrors : bool) (fetchFields : StartupFetch) (w : Session) :
  connectFailure env = None →
  ∃ delta closing,
    newEffects w (snd (connectAsync formatSI env host port clientId timeout
                         readonly account raiseSyncErrors fetchFields w))
    = connectCalls host port clientId (orNone timeout)
      ++ startupCalls readonly (negotiatedVersion env)
           (mainAccount account (managedAccounts env)) fetchFields
      ++ delta ++ closing
    ∧ Forall (Later fetchFields) delta
    ∧ match fst (connectAsync formatSI env host port clientId timeout
                   readonly account raiseSyncErrors fetchFields w) with
      | Ok _ => closing = [ LogInfo "Synchronization complete" None;
                            EmitIB connectedEvent None ]
      | Raise _ => ∃ c, closing = unwinding c
      end.
Proof.
  intros Hfail. rewrite connectAsync_unfold.
  set (w0 := with_wrapper (setWrapperClientId clientId) w).
  destruct (synchronize_trace env host port clientId (orNone timeout) readonly
              account fetchFields w0 Hfail) as (delta & Ts & Fs).
  change (trace w0) with (trace w) in Ts.
  exists delta.
  destruct (synchronize env host port clientId (orNone timeout) readonly
              account fetchFields w0) as [[errors|e] w1] eqn:Hs;
    cbn [snd] in Ts.
  - rewrite (connectBody_after_sync _ _ _ _ _ _ _ _ _ _ _ _ Hs).
    destruct (raiseSyncErrors && bool_decide (0 < length errors)%nat).
    + exists (unwinding (client w1)). cbn [fst snd].
      destruct (disconnect_trace w1) as [Td _].
      split; [|split; [done|eexists; reflexivity]].
      apply newEffects_app. rewrite Td, Ts. by rewrite <- !(assoc_L (++)).
    + destruct (isReady (client w1)).
      * eexists. cbn [fst snd]. split; [|split; [done|reflexivity]].
        apply newEffects_app. unfold with_trace. cbn [trace]. rewrite Ts.
        by rewrite <- !(assoc_L (++)).
      * exists (unwinding (client w1)). cbn [fst snd].
        destruct (disconnect_trace w1) as [Td _].
        split; [|split; [done|eexists; reflexivity]].
        apply newEffects_app. rewrite Td, Ts. by rewrite <- !(assoc_L (++)).
  - unfold connectBody. rewrite (bind_fail _ _ _ _ _ Hs).
    exists (unwinding (client w1)). cbn [fst snd].
    destruct (disconnect_trace w1) as [Td _].
    split; [|split; [done|eexists; reflexivity]].
    apply newEffects_app. rewrite Td, Ts. by rewrite <- !(assoc_L (++)).
Qed.

(** X15. When the client cannot establish the connection, [connectAsync]
    raises the client's exception after that one call: no request is sent,
    nothing is logged or emitted, and, the client not being connected,
    [disconnect] unwinds nothing.  The wrapper keeps the client id that the
    attempt has set. *)
Theorem connectAsync_refused (env : Env) (host : string) (port clientId : Z)
    (timeout : option Q) (readonly : bool) (account : string)
    (raiseSyncErrors : bool) (fetchFields : StartupFetch) (w : Session)
    (e : Exn) :
  connectFailure env = Some e →
  isConnected (client w) = false →
  connectAsync formatSI env host port clientId timeout readonly account
    raiseSyncErrors fetchFields w
  = (Raise e,
     with_trace (λ t, t ++ [Call (client_connectAsync host port clientId
                                    (orNone timeout))])
       (with_wrapper (setWrapperClientId clientId) w)).
Proof.
  intros Hfail Hc. rewrite (connectAsync_refused_run _ _ _ _ _ _ _ _ _ _ _ Hfail).
  by rewrite disconnect_off.
Qed.

(** X16. A connect attempt that returns has established the connection and
    leaves the client ready; [connectedEvent] is its last effect and its
    only emission; and with [raiseSyncErrors] on, it has logged no error. *)
Theorem connectAsync_returns (env : Env) (host : string) (port clientId : Z)
    (timeout : option Q) (readonly : bool) (account : string)
    (raiseSyncErrors : bool) (fetchFields : StartupFetch) (w w' : Session) :
  connectAsync formatSI env host port clientId timeout readonly account
    raiseSyncErrors fetchFields w = (Ok tt, w') →
  connectFailure env = None
  ∧ isReady (client w') = true
  ∧ ∃ delta,
      newEffects w w'
      = delta ++ [ LogInfo "Synchronization complete" None;
                   EmitIB connectedEvent None ]
      ∧ Forall (λ e, isEmission e = false) delta
      ∧ (raiseSyncErrors = true → errorLog delta = []).
Proof.
  intros Hrun. rewrite connectAsync_unfold in Hrun.
  set (w0 := with_wrapper (setWrapperClientId clientId) w) in *.
  destruct (connectBody env host port clientId (orNone timeout) readonly
              account raiseSyncErrors fetchFields w0)
    as [[[]|e] wb] eqn:Hbody; [|done].
  apply Ok_inj in Hrun as [_ <-].
  pose proof Hbody as Hb. unfold connectBody in Hb.
  apply bind_Ok in Hb as (errors & w1 & Hs & _).
  rewrite (connectBody_after_sync _ _ _ _ _ _ _ _ _ _ _ _ Hs) in Hbody.
  destruct (raiseSyncErrors && bool_decide (0 < length errors)%nat) eqn:Hr;
    [done|].
  destruct (isReady (client w1)) eqn:Hready; [|done].
  apply Ok_inj in Hbody as [_ <-].
  apply synchronize_Ok in Hs as (Hfail & (delta & Ht & Hlog & Hq) & _).
  destruct Hq as [Hq|Hq]; [|congruence].
  split; [done|]. split; [done|].
  exists delta. split.
  { apply newEffects_app. unfold with_trace. cbn [trace]. rewrite Ht.
    change (trace w0) with (trace w). by rewrite <- !(assoc_L (++)). }
  split; [done|]. intros ->. rewrite Hlog.
  simpl in Hr. apply bool_decide_eq_false in Hr.
  destruct errors; [done|]. simpl in Hr. lia.
Qed.

Lemma later_not_connected (fetchFields : StartupFetch) (e : Effect) :
  laterEffect fetchFields e = true → emitsIB connectedEvent e = false.
Proof.
  destruct e as [c|key|ev arg|tr ev arg|msg obj|msg obj]; try done.
  by destruct ev, arg.
Qed.

Lemma unwinding_not_connected (c : Client) :
  Forall (λ e, emitsIB connectedEvent e = false) (unwinding c).
Proof. unfold unwinding. destruct (isConnected c); by repeat constructor. Qed.

(** X17. A connect attempt that raises leaves the client not connected and
    has not emitted [connectedEvent], wherever the exception came from. *)
Theorem connectAsync_raises (env : Env) (host : string) (port clientId : Z)
    (timeout : option Q) (readonly : bool) (account : string)
    (raiseSyncErrors : bool) (fetchFields : StartupFetch) (w w' : Session)
    (e : Exn) :
  connectAsync formatSI env host port clientId timeout readonly account
    raiseSyncErrors fetchFields w = (Raise e, w') →
  isConnected (client w') = false
  ∧ Forall (λ x, emitsIB connectedEvent x = false) (newEffects w w').
Proof.
  intros Hrun. split.
  - rewrite connectAsync_unfold in Hrun.
    destruct (connectBody _ _ _ _ _ _ _ _ _ _) as [[a|e1] w1]; [done|].
    apply (f_equal snd) in Hrun. cbn [snd] in Hrun. rewrite <- Hrun.
    apply disconnect_trace.
  - destruct (connectFailure env) as [e0|] eqn:Hfail.
    + rewrite (connectAsync_refused_run _ _ _ _ _ _ _ _ _ _ _ Hfail) in Hrun.
      apply (f_equal snd) in Hrun. cbn [snd] in Hrun. rewrite <- Hrun.
      match goal with
      | |- context [disconnect formatSI ?x] =>
          destruct (disconnect_trace x) as [Td _];
          change (trace x)
            with (trace w ++ [Call (client_connectAsync host port clientId
                                      (orNone timeout))]) in Td;
          change (client x) with (client w) in Td
      end.
      rewrite <- (assoc_L (++)) in Td. rewrite (newEffects_app w _ _ Td).
      apply Forall_app. split; [by repeat constructor|].
      apply unwinding_not_connected.
    + destruct (connectAsync_trace env host port clientId timeout readonly
                  account raiseSyncErrors fetchFields w Hfail)
        as (delta & closing & Hn & Fd & Hcl).
      rewrite Hrun in Hn, Hcl. cbn [fst snd] in Hn, Hcl.
      destruct Hcl as [c ->]. rewrite Hn.
      rewrite !Forall_app. split; [|split; [|split]].
      * unfold connectCalls. destruct (clientId =? 0); by repeat constructor.
      * unfold startupCalls.
        repeat match goal with
               | |- context [if ?b then _ else _] => destruct b
               end; by repeat constructor.
      * eapply Forall_impl; [exact Fd|]. apply later_not_connected.
      * apply unwinding_not_connected.
Qed.

Lemma elem_of_if {A} (b : bool) (l : list A) (x : A) :
  x ∈ (if b then l else []) ↔ b = true ∧ x ∈ l.
Proof.
  destruct b; split.
  - by intros ?.
  - by intros [_ ?].
  - by intros ?%elem_of_nil.
  - by intros [? _].
Qed.

(** A call other than [disconnect] and those of the later part is sent by
    a connect attempt exactly if it is among the opening calls and the
    initial requests. *)
Lemma call_sent (env : Env) (host : string) (port clientId : Z)
    (timeout : option Q) (readonly : bool) (account : string)
    (raiseSyncErrors : bool) (fetchFields : StartupFetch) (w : Session)
    (c : ClientCall) :
  connectFailure env = None →
  laterEffect fetchFields (Call c) = false →
  c ≠ client_disconnect →
  Call c ∈ newEffects w (snd (connectAsync formatSI env host port clientId
                                timeout readonly account raiseSyncErrors
                                fetchFields w))
  ↔ Call c ∈ connectCalls host port clientId (orNone timeout)
             ++ startupCalls readonly (negotiatedVersion env)
                  (mainAccount account (managedAccounts env)) fetchFields.
Proof.
  intros Hfail Hlater Hc.
  destruct (connectAsync_trace env host port clientId timeout readonly
              account raiseSyncErrors fetchFields w Hfail)
    as (delta & closing & -> & Fd & Hcl).
  rewrite (assoc_L (++)), (elem_of_app (_ ++ _)). split; [|by left].
  intros [Hin|Hin]; [done|exfalso].
  apply elem_of_app in Hin as [Hin|Hin].
  - rewrite Forall_forall in Fd. apply Fd in Hin. congruence.
  - destruct (fst _).
    + subst closing.
      apply elem_of_cons in Hin as [Hin|Hin]; [discriminate Hin|].
      apply elem_of_cons in Hin as [Hin|Hin]; [discriminate Hin|].
      by apply elem_of_nil in Hin.
    + destruct Hcl as [c0 ->]. unfold unwinding in Hin.
      destruct (isConnected c0); [|by apply elem_of_nil in Hin].
      apply elem_of_cons in Hin as [Hin|Hin]; [discriminate Hin|].
      apply elem_of_cons in Hin as [Hin|Hin]; [congruence|].
      apply elem_of_cons in Hin as [Hin|Hin]; [discriminate Hin|].
      by apply elem_of_nil in Hin.
Qed.

(** X18. Once the connection is established, a connect attempt starts with
    the same effects whatever happens later: the connection call, the
    binding of manual orders if the client id is 0, and then the initial
    requests in the order positions, open orders, completed orders, account
    updates, of which the request for positions is made whatever
    [readonly] and [fetchFields] are.  The only calls after these are
    subscriptions to account updates, the request for executions and
    [disconnect]. *)
Theorem connectAsync_initial_requests (env : Env) (host : string)
    (port clientId : Z) (timeout : option Q) (readonly : bool)
    (account : string) (raiseSyncErrors : bool) (fetchFields : StartupFetch)
    (w : Session) :
  connectFailure env = None →
  let sent := newEffects w (snd (connectAsync formatSI env host port clientId
                                   timeout readonly account raiseSyncErrors
                                   fetchFields w)) in
  Call client_reqPositions ∈ sent
  ∧ ∃ rest,
      sent = connectCalls host port clientId (orNone timeout)
             ++ startupCalls readonly (negotiatedVersion env)
                  (mainAccount account (managedAccounts env)) fetchFields
             ++ rest
      ∧ Forall (λ e, ∀ c, e = Call c →
                  c = client_disconnect
                  ∨ (∃ acc, c = client_reqAccountUpdates true acc)
                  ∨ (∃ reqId, c = client_reqExecutions reqId)) rest.
Proof.
  intros Hfail sent. unfold sent.
  destruct (connectAsync_trace env host port clientId timeout readonly
              account raiseSyncErrors fetchFields w Hfail)
    as (delta & closing & -> & Fd & Hcl).
  split.
  { apply elem_of_app. right. apply elem_of_app. left. unfold startupCalls.
    apply elem_of_app. left.
    apply list_elem_of_further, list_elem_of_here. }
  exists (delta ++ closing). split; [done|].
  apply Forall_app. split.
  - eapply Forall_impl; [exact Fd|]. intros x Hx c ->.
    destruct c; try done; simpl in Hx.
    + right. left. exists account0. by rewrite Hx.
    + right. right. by exists reqId.
  - destruct (fst _).
    + subst closing.
      constructor; [by intros c ?|]. constructor; [by intros c ?|].
      constructor.
    + destruct Hcl as [c0 ->]. unfold unwinding.
      destruct (isConnected c0); [|constructor].
      constructor; [by intros c ?|].
      constructor; [intros c E; left; congruence|].
      constructor; [by intros c ?|]. constructor.
Qed.

Ltac break :=
  repeat match goal with
         | H : _ ∨ _ |- _ => destruct H as [H|H]
         | H : _ ∧ _ |- _ => destruct H as [? ?]
         | H : False |- _ => destruct H
         | H : Call _ = _ |- _ => first [discriminate H | injection H as H]
         | H : _ ∈ [] |- _ => by apply elem_of_nil in H
         end.

(** X19. Which requests a connect attempt makes, once the connection is
    established: open orders are requested exactly if [readonly] is off and
    [fetchFields] has [ORDERS_OPEN]; completed orders exactly if moreover
    the server version is at least 150 and the flag is [ORDERS_COMPLETE],
    and then with [apiOnly] off; executions only if [fetchFields] has
    [EXECUTIONS]; and manual orders are bound exactly for client id 0. *)
Theorem connectAsync_requests_gated (env : Env) (host : string)
    (port clientId : Z) (timeout : option Q) (readonly : bool)
    (account : string) (raiseSyncErrors : bool) (fetchFields : StartupFetch)
    (w : Session) :
  connectFailure env = None →
  let sent := newEffects w (snd (connectAsync formatSI env host port clientId
                                   timeout readonly account raiseSyncErrors
                                   fetchFields w)) in
  (Call client_reqOpenOrders ∈ sent
   ↔ readonly = false ∧ hasFlag fetchFields ORDERS_OPEN = true)
  ∧ (∀ apiOnly,
       Call (client_reqCompletedOrders apiOnly) ∈ sent
       ↔ apiOnly = false ∧ readonly = false ∧ 150 ≤ negotiatedVersion env
         ∧ hasFlag fetchFields ORDERS_COMPLETE = true)
  ∧ (∀ reqId,
       Call (client_reqExecutions reqId) ∈ sent →
       hasFlag fetchFields EXECUTIONS = true)
  ∧ (∀ autoBind,
       Call (client_reqAutoOpenOrders autoBind) ∈ sent
       ↔ autoBind = true ∧ clientId = 0).
Proof.
  intros Hfail sent. unfold sent. split; [|split; [|split]].
  - rewrite call_sent by done.
    unfold connectCalls, startupCalls.
    rewrite !elem_of_app, !elem_of_cons, !elem_of_if, !elem_of_cons,
      !andb_true_iff, negb_true_iff.
    split.
    + intros Hin. break. done.
    + intros [? ?]. right. right. left. split; [done|]. right. by left.
  - intros apiOnly. rewrite call_sent by done.
    unfold connectCalls, startupCalls.
    rewrite !elem_of_app, !elem_of_cons, !elem_of_if, !elem_of_cons,
      !andb_true_iff, negb_true_iff, Z.leb_le.
    split.
    + intros Hin. break. done.
    + intros (-> & ? & ? & ?). right. right. right. left.
      split; [done|]. right. by left.
  - intros reqId Hin.
    destruct (connectAsync_trace env host port clientId timeout readonly
                account raiseSyncErrors fetchFields w Hfail)
      as (delta & closing & E & Fd & Hcl).
    rewrite E in Hin. clear E.
    assert (Hcl' : Call (client_reqExecutions reqId) ∉ closing).
    { intros Hc. destruct (fst _).
      - subst closing. rewrite !elem_of_cons in Hc. break.
      - destruct Hcl as [c0 ->]. unfold unwinding in Hc.
        destruct (isConnected c0); rewrite ?elem_of_cons in Hc; break. }
    unfold connectCalls, startupCalls in Hin.
    rewrite !elem_of_app, !elem_of_cons, !elem_of_if, !elem_of_cons in Hin.
    rewrite Forall_forall in Fd.
    break; try done. by apply Fd in Hin.
  - intros autoBind. rewrite call_sent by done.
    unfold connectCalls, startupCalls.
    rewrite !elem_of_app, !elem_of_cons, !elem_of_if, !elem_of_cons, Z.eqb_eq.
    split.
    + intros Hin. break. by subst.
    + intros [-> ->]. left. right. split; [done|by left].
Qed.

End Startup.

(** * Qualifying contracts: [IB.qualifyContractsAsync] (ib.py, lines
      2121-2191) *)

(** The log of [qualifyContractsAsync]: its two warnings, with the objects
    that the message shows. *)
Inductive Warning :=
  | UnknownContract (contract : loc)
  | AmbiguousContract (contract : loc) (possibles : list (option loc)).

(** One position of the result: [None], the contract that was passed in,
    or the list of candidates. *)
Inductive Slot :=
  | NoContract
  | Qualified (contract : loc)
  | Possibles (contracts : list (option loc)).

(** The contract objects, by identity, and the warnings logged so far. *)
Record Book := mkBook {
  contractObjs : gmap loc Contract;
  warnings : list Warning
}.

Section Qualify.

Set Default Proof Using "Type".

(** [util.dataclassUpdate(obj, src)] (util.py is not part of the sources at
    hand): the value of [obj] once it has been updated from [src].  It is
    left open, and every result below holds for any such function. *)
Variable dataclassUpdate : Contract → Contract → Contract.

Definition QM (A : Type) : Type := Book → Result A * Book.

Local Instance QM_ret : MRet QM := λ A a b, (Ok a, b).

Local Instance QM_bind : MBind QM :=
  λ A B k m b, match m b with
               | (Ok a, b') => k a b'
               | (Raise e, b') => (Raise e, b')
               end.

Definition fail {A} (e : Exn) : QM A := λ b, (Raise e, b).

Definition warn (x : Warning) : QM unit :=
  λ b, (Ok tt, mkBook (contractObjs b) (warnings b ++ [x])).

Definition getContract (l : loc) : QM Contract :=
  λ b, match contractObjs b !! l with
       | Some c => (Ok c, b)
       | None => (Raise (OtherError "dangling reference"), b)
       end.

Definition putContract (l : loc) (c : Contract) : QM unit :=
  λ b, (Ok tt, mkBook (<[l := c]> (contractObjs b)) (warnings b)).

Definition setExchange (e : string) (c : Contract) : Contract :=
  mkContract (conId c) (symbol c) (secType c) e (currency c).

(** Lines 2161-2167 and 2182-2189: the contract [c] of the details becomes
    generic if SMART was asked for, then [contract] is updated from it in
    place and goes into the result.  The details are given by the value of
    their [contract] attribute. *)
Definition adopt (contract c : loc) : QM Slot :=
  cv ← getContract contract;
  (if String.eqb (exchange cv) "SMART"
   then dv ← getContract c; putContract c (setExchange (exchange cv) dv)
   else mret tt);;
  cv ← getContract contract;
  dv ← getContract c;
  putContract contract (dataclassUpdate cv dv);;
  mret (Qualified contract).

(** Lines 2152-2156: the contracts of the details whose [secType] is the
    one asked for.  Details without a contract have no [secType]. *)
Fixpoint matching (wanted : string) (detailsList : list (option loc))
  : QM (list (option loc)) :=
  match detailsList with
  | [] => mret []
  | d :: rest =>
      match d with
      | None => fail (OtherError "AttributeError")
      | Some c =>
          dv ← getContract c;
          possibles ← matching wanted rest;
          mret (if String.eqb wanted (secType dv)
                then d :: possibles else possibles)
      end
  end.

(** Lines 2173-2180. *)
Definition ambiguous (returnAll : bool) (contract : loc)
    (possibles : list (option loc)) : QM Slot :=
  warn (AmbiguousContract contract possibles);;
  mret (if returnAll then Possibles possibles else NoContract).

(** Lines 2143-2189, the body of the loop. *)
Definition qualifyOne (returnAll : bool) (contract : loc)
    (detailsList : list (option loc)) : QM Slot :=
  match detailsList with
  | [] =>
      warn (UnknownContract contract);;
      mret NoContract
  | _ :: _ :: _ =>
      cv ← getContract contract;
      if negb (String.eqb (secType cv) "") then
        possibles ← matching (secType cv) detailsList;
        match possibles with
        | [Some c] => adopt contract c
        | _ => ambiguous returnAll contract possibles
        end
      else
        (* else, return all matches if no specific secType requested *)
        ambiguous returnAll contract detailsList
  | [d] =>
      match d with
      | None => fail AssertionError
      | Some c => adopt contract c
      end
  end.

Fixpoint qualifyEach (returnAll : bool)
    (pairs : list (loc * list (option loc))) : QM (list Slot) :=
  match pairs with
  | [] => mret []
  | (contract, detailsList) :: rest =>
      slot ← qualifyOne returnAll contract detailsList;
      slots ← qualifyEach returnAll rest;
      mret (slot :: slots)
  end.

(** [detailsLists] is what the requests of line 2135 have brought in, one
    list of details for each contract. *)
Definition qualifyContractsAsync (contracts : list loc) (returnAll : bool)
    (detailsLists : list (list (option loc))) : QM (list Slot) :=
  qualifyEach returnAll (zip contracts detailsLists).

(** ** Properties *)

Ltac qexec :=
  repeat (unfold mbind, QM_bind, mret, QM_ret, fail, warn, getContract,
            putContract; simpl).

(** The details carry a contract object. *)
Definition known (b : Book) (d : option loc) : Prop :=
  ∃ c, d = Some c ∧ is_Some (contractObjs b !! c).

(** Does the contract of the details have the [secType] asked for? *)
Definition hasSecType (m : gmap loc Contract) (wanted : string)
    (d : option loc) : bool :=
  match d with
  | Some c => match m !! c with
              | Some dv => String.eqb wanted (secType dv)
              | None => false
              end
  | None => false
  end.

Lemma matching_state (wanted : string) (ds : list (option loc)) (b : Book) :
  snd (matching wanted ds b) = b.
Proof.
  induction ds as [|[c|] ds IH]; simpl; [done| |done].
  qexec. destruct (contractObjs b !! c) as [dv|]; [|done]. simpl.
  destruct (matching wanted ds b) as [[ps|e] b1]; simpl in *; by subst.
Qed.

Lemma matching_run (wanted : string) (ds : list (option loc)) (b : Book) :
  Forall (known b) ds →
  matching wanted ds b
  = (Ok (List.filter (hasSecType (contractObjs b) wanted) ds), b).
Proof.
  induction 1 as [|d ds (c & -> & [dv Hc]) _ IH]; [done|].
  simpl. qexec. rewrite Hc. simpl. rewrite IH. simpl.
  by destruct (String.eqb wanted (secType dv)).
Qed.

(** The contract objects after [adopt]. *)
Definition adopted (contract c : loc) (m : gmap loc Contract)
  : gmap loc Contract :=
  match m !! contract, m !! c with
  | Some cv, Some dv =>
      let m1 := if String.eqb (exchange cv) "SMART"
                then <[c := setExchange "SMART" dv]> m else m in
      match m1 !! contract, m1 !! c with
      | Some cv1, Some dv1 => <[contract := dataclassUpdate cv1 dv1]> m1
      | _, _ => m1
      end
  | _, _ => m
  end.

Lemma adopt_run (contract c : loc) (b : Book) :
  is_Some (contractObjs b !! contract) →
  is_Some (contractObjs b !! c) →
  adopt contract c b
  = (Ok (Qualified contract),
     mkBook (adopted contract c (contractObjs b)) (warnings b)).
Proof.
  intros [cv Hcv] [dv Hdv]. unfold adopt, adopted.
  destruct (decide (contract = c)) as [->|Hne].
  - assert (dv = cv) as -> by congruence.
    qexec. rewrite Hcv. simpl.
    destruct (String.eqb (exchange cv) "SMART") eqn:Hsmart; simpl.
    + apply String.eqb_eq in Hsmart. rewrite Hsmart.
      repeat (first [rewrite lookup_insert_eq | rewrite Hcv]; simpl).
      reflexivity.
    + repeat (rewrite Hcv; simpl). reflexivity.
  - qexec. rewrite Hcv. simpl. rewrite Hdv.
    destruct (String.eqb (exchange cv) "SMART") eqn:Hsmart; simpl.
    + apply String.eqb_eq in Hsmart. rewrite Hsmart.
      repeat (first [ rewrite lookup_insert_eq
                    | rewrite lookup_insert_ne by done
                    | rewrite Hcv | rewrite Hdv ]; simpl).
      reflexivity.
    + repeat (first [rewrite Hcv | rewrite Hdv]; simpl). reflexivity.
Qed.

Lemma adopt_Ok (contract c : loc) (b b' : Book) (slot : Slot) :
  adopt contract c b = (Ok slot, b') →
  slot = Qualified contract ∧ warnings b' = warnings b.
Proof.
  unfold adopt. qexec.
  destruct (contractObjs b !! contract) as [cv|] eqn:Hcv; [simpl|done].
  destruct (String.eqb (exchange cv) "SMART"); simpl.
  - destruct (contractObjs b !! c) as [dv|] eqn:Hdv; [simpl|done].
    destruct (<[c:=setExchange (exchange cv) dv]> (contractObjs b) !! contract);
      [simpl|done].
    rewrite lookup_insert_eq. simpl. by intros [= <- <-].
  - rewrite Hcv. simpl.
    destruct (contractObjs b !! c); [simpl|done]. by intros [= <- <-].
Qed.

Lemma adopted_known (contract c : loc) (m : gmap loc Contract) (l : loc) :
  is_Some (m !! l) → is_Some (adopted contract c m !! l).
Proof.
  intros Hl. unfold adopted.
  destruct (m !! contract) as [cv|]; [|done].
  destruct (m !! c) as [dv|]; [|done]. simpl.
  set (m1 := if String.eqb (exchange cv) "SMART"
             then <[c := setExchange "SMART" dv]> m else m).
  assert (H1 : is_Some (m1 !! l)).
  { unfold m1. destruct (String.eqb (exchange cv) "SMART"); [|done].
    apply lookup_insert_is_Some. destruct (decide (c = l)); auto. }
  destruct (m1 !! contract); [|done]. destruct (m1 !! c); [|done].
  apply lookup_insert_is_Some. destruct (decide (contract = l)); auto.
Qed.

(** X20. What one position of the result tells: either the contract was
    qualified, and then the slot holds the very object that was passed in
    and no warning was logged; or it was not, and then no contract object
    was touched and exactly one warning was logged, "Unknown contract" for
    an empty list of details and "Ambiguous contract" for a list of more
    than one, and the slot is [None], or the list of candidates that the
    warning shows if [returnAll] is on. *)
Theorem qualifyOne_outcome (returnAll : bool) (contract : loc)
    (detailsList : list (option loc)) (b b' : Book) (slot : Slot) :
  qualifyOne returnAll contract detailsList b = (Ok slot, b') →
  (slot = Qualified contract ∧ warnings b' = warnings b ∧ detailsList ≠ [])
  ∨ (contractObjs b' = contractObjs b
     ∧ ((detailsList = [] ∧ slot = NoContract
         ∧ warnings b' = warnings b ++ [UnknownContract contract])
        ∨ (∃ possibles,
             (1 < length detailsList)%nat
             ∧ warnings b' = warnings b
                             ++ [AmbiguousContract contract possibles]
             ∧ slot = if returnAll then Possibles possibles
                      else NoContract))).
Proof.
  intros Hrun.
  assert (Hamb : ∀ ps d1 d2 rest,
            detailsList = d1 :: d2 :: rest →
            ambiguous returnAll contract ps b = (Ok slot, b') →
            contractObjs b' = contractObjs b
            ∧ ∃ possibles,
                (1 < length detailsList)%nat
                ∧ warnings b' = warnings b
                                ++ [AmbiguousContract contract possibles]
                ∧ slot = if returnAll then Possibles possibles
                         else NoContract).
  { intros ps d1 d2 rest -> Ha. unfold ambiguous in Ha. revert Ha. qexec.
    intros [= <- <-]. split; [done|]. exists ps. simpl.
    split; [lia|done]. }
  destruct detailsList as [|d1 [|d2 rest]].
  - right. revert Hrun. unfold qualifyOne. qexec. intros [= <- <-].
    split; [done|]. by left.
  - left. simpl in Hrun. destruct d1 as [c|]; [|done].
    apply adopt_Ok in Hrun as [-> ->]. done.
  - unfold qualifyOne in Hrun. unfold mbind at 1, QM_bind at 1 in Hrun.
    unfold getContract at 1 in Hrun.
    destruct (contractObjs b !! contract) as [cv|]; [|done].
    destruct (negb (String.eqb (secType cv) "")).
    + unfold mbind at 1, QM_bind at 1 in Hrun.
      pose proof (matching_state (secType cv) (d1 :: d2 :: rest) b) as Hst.
      destruct (matching (secType cv) (d1 :: d2 :: rest) b) as [[ps|e] b1];
        [|done].
      simpl in Hst. subst b1.
      destruct ps as [|[c|] [|p2 ps]];
        try (right; destruct (Hamb _ _ _ _ eq_refl Hrun) as [? ?];
             split; [done|by right]).
      left. apply adopt_Ok in Hrun as [-> ->]. done.
    + right. destruct (Hamb _ _ _ _ eq_refl Hrun) as [? ?].
      split; [done|by right].
Qed.

Lemma qualifyOne_known (returnAll : bool) (contract : loc)
    (detailsList : list (option loc)) (b : Book) :
  is_Some (contractObjs b !! contract) →
  Forall (known b) detailsList →
  ∃ slot b',
    qualifyOne returnAll contract detailsList b = (Ok slot, b')
    ∧ (∀ l, is_Some (contractObjs b !! l) → is_Some (contractObjs b' !! l)).
Proof.
  intros Hc Hds.
  assert (Hadopt : ∀ c, is_Some (contractObjs b !! c) →
            ∃ slot b',
              adopt contract c b = (Ok slot, b')
              ∧ (∀ l, is_Some (contractObjs b !! l) →
                      is_Some (contractObjs b' !! l))).
  { intros c Hk. eexists _, _. split; [by apply adopt_run|].
    simpl. intros l. apply adopted_known. }
  assert (Hamb : ∀ ps,
            ∃ slot b',
              ambiguous returnAll contract ps b = (Ok slot, b')
              ∧ (∀ l, is_Some (contractObjs b !! l) →
                      is_Some (contractObjs b' !! l))).
  { intros ps. eexists _, _. split; [reflexivity|]. done. }
  destruct detailsList as [|d1 [|d2 rest]].
  - eexists _, _. split; [reflexivity|]. done.
  - apply Forall_cons in Hds as [(c & -> & Hk) _]. simpl. by apply Hadopt.
  - unfold qualifyOne. unfold mbind at 1, QM_bind at 1.
    unfold getContract at 1. destruct Hc as [cv Hcv]. rewrite Hcv.
    destruct (negb (String.eqb (secType cv) "")); [|apply Hamb].
    unfold mbind at 1, QM_bind at 1. rewrite (matching_run _ _ _ Hds).
    set (ps := List.filter _ _).
    assert (Hps : Forall (known b) ps).
    { apply Forall_forall. intros d Hd. unfold ps in Hd.
      apply list_elem_of_In, List.filter_In in Hd as [Hd _].
      apply list_elem_of_In in Hd. rewrite Forall_forall in Hds. auto. }
    destruct ps as [|[c|] [|p2 ps']]; try apply Hamb.
    apply Forall_cons in Hps as [(c' & [= <-] & Hk) _]. by apply Hadopt.
Qed.

(** X21. When every contract passed in is an object at hand, there is a
    list of details for each, and all details carry a contract, then
    [qualifyContractsAsync] returns, and its result has one slot for each
    contract, in the same position: [None], the object passed in, or, only
    with [returnAll] on, a list of candidates. *)
Theorem qualifyContractsAsync_positional (contracts : list loc)
    (returnAll : bool) (detailsLists : list (list (option loc))) (b : Book) :
  Forall (λ contract, is_Some (contractObjs b !! contract)) contracts →
  Forall (Forall (known b)) detailsLists →
  length detailsLists = length contracts →
  ∃ slots b',
    qualifyContractsAsync contracts returnAll detailsLists b = (Ok slots, b')
    ∧ Forall2 (λ contract slot,
                 slot = NoContract ∨ slot = Qualified contract
                 ∨ (returnAll = true ∧ ∃ ps, slot = Possibles ps))
              contracts slots.
Proof.
  intros Hcs Hds Hlen. unfold qualifyContractsAsync.
  revert detailsLists b Hcs Hds Hlen.
  induction contracts as [|contract contracts IH];
    intros [|ds detailsLists] b Hcs Hds Hlen; try done.
  - by exists [], b.
  - simpl. apply Forall_cons in Hcs as [Hc Hcs].
    apply Forall_cons in Hds as [Hd Hds].
    destruct (qualifyOne_known returnAll contract ds b Hc Hd)
      as (slot & b1 & Hrun & Hkeep).
    unfold mbind at 1, QM_bind at 1. rewrite Hrun.
    destruct (IH detailsLists b1) as (slots & b2 & Hrest & Hall).
    { eapply Forall_impl; [exact Hcs|]. intros l. apply Hkeep. }
    { eapply Forall_impl; [exact Hds|]. intros l Hl.
      eapply Forall_impl; [exact Hl|]. intros d (c & -> & Hk).
      exists c. split; [done|by apply Hkeep]. }
    { simpl in Hlen. lia. }
    unfold mbind at 1, QM_bind at 1. rewrite Hrest.
    exists (slot :: slots), b2. split; [done|].
    constructor; [|done].
    destruct (qualifyOne_outcome _ _ _ _ _ _ Hrun)
      as [(-> & _)|(_ & [(_ & -> & _)|(ps & _ & _ & ->)])];
      [by right; left|by left|].
    destruct returnAll; [|by left]. right. right. split; [done|by exists ps].
Qed.

(** X22. A list of several details of which exactly one has the [secType]
    asked for is treated as if that one had come alone: the contract is
    qualified from it, nothing is logged, and the contract of the details
    has taken the exchange "SMART" if that is what was asked for. *)
Theorem qualifyOne_unique_secType (returnAll : bool) (contract c : loc)
    (detailsList : list (option loc)) (b : Book) (cv dv : Contract) :
  contractObjs b !! contract = Some cv →
  contractObjs b !! c = Some dv →
  contract ≠ c →
  secType cv ≠ "" →
  Forall (known b) detailsList →
  List.filter (hasSecType (contractObjs b) (secType cv)) detailsList
    = [Some c] →
  let dv' := if String.eqb (exchange cv) "SMART"
             then setExchange "SMART" dv else dv in
  qualifyOne returnAll contract detailsList b
    = qualifyOne returnAll contract [Some c] b
  ∧ qualifyOne returnAll contract detailsList b
    = (Ok (Qualified contract),
       mkBook (<[contract := dataclassUpdate cv dv']>
                 (<[c := dv']> (contractObjs b)))
              (warnings b)).
Proof.
  intros Hcv Hdv Hne Hsec Hds Hfilter dv'.
  assert (Hadopt : adopt contract c b
                   = (Ok (Qualified contract),
                      mkBook (<[contract := dataclassUpdate cv dv']>
                                (<[c := dv']> (contractObjs b)))
                             (warnings b))).
  { rewrite adopt_run by done. unfold adopted, dv'. rewrite Hcv, Hdv.
    destruct (String.eqb (exchange cv) "SMART").
    - rewrite lookup_insert_ne by done. rewrite Hcv, lookup_insert_eq. done.
    - rewrite Hcv, Hdv. by rewrite (insert_id _ c dv). }
  assert (Hone : qualifyOne returnAll contract detailsList b
                 = adopt contract c b).
  { destruct detailsList as [|d1 [|d2 rest]].
    - done.
    - simpl in Hfilter. destruct (hasSecType _ _ d1); [|done].
      by injection Hfilter as ->.
    - unfold qualifyOne. unfold mbind at 1, QM_bind at 1.
      unfold getContract at 1. rewrite Hcv.
      assert (Hn : negb (String.eqb (secType cv) "") = true).
      { apply negb_true_iff. by apply String.eqb_neq. }
      rewrite Hn. unfold mbind at 1, QM_bind at 1.
      rewrite (matching_run _ _ _ Hds). by rewrite Hfilter. }
  split; [by rewrite Hone|by rewrite Hone].
Qed.

(** X23. Details without a contract.  Alone, they make the call fail with
    an assertion error; among several details, when a [secType] is asked
    for, with an attribute error, as soon as the comparison reaches them;
    but when no [secType] is asked for they are not looked at, and go into
    the list of candidates as they are.  In every case the contract objects
    are left as they were. *)
Theorem qualifyOne_missing_contract (returnAll : bool) (contract : loc)
    (before after : list (option loc)) (b : Book) (cv : Contract) :
  contractObjs b !! contract = Some cv →
  Forall (known b) before →
  (1 ≤ length (before ++ after))%nat →
  qualifyOne returnAll contract [None] b = (Raise AssertionError, b)
  ∧ (secType cv ≠ "" →
     qualifyOne returnAll contract (before ++ None :: after) b
     = (Raise (OtherError "AttributeError"), b))
  ∧ (secType cv = "" →
     qualifyOne returnAll contract (before ++ None :: after) b
     = (Ok (if returnAll then Possibles (before ++ None :: after)
            else NoContract),
        mkBook (contractObjs b)
               (warnings b
                ++ [AmbiguousContract contract (before ++ None :: after)]))).
Proof.
  intros Hcv Hbefore Hlen. split; [done|].
  assert (Hshape : ∃ d1 d2 rest, before ++ None :: after = d1 :: d2 :: rest).
  { destruct before as [|d1 [|d2 before]]; simpl in *.
    - destruct after; simpl in *; [lia|]. by eexists _, _, _.
    - by eexists _, _, _.
    - by eexists _, _, _. }
  destruct Hshape as (d1 & d2 & rest & Hshape).
  split.
  - intros Hsec.
    assert (Hn : negb (String.eqb (secType cv) "") = true).
    { apply negb_true_iff. by apply String.eqb_neq. }
    assert (Hm : matching (secType cv) (before ++ None :: after) b
                 = (Raise (OtherError "AttributeError"), b)).
    { clear Hshape Hlen. induction Hbefore as [|d ds (c & -> & [dv Hc]) _ IH];
        [done|].
      simpl. qexec. rewrite Hc. simpl.
      unfold mbind, QM_bind in IH. by rewrite IH. }
    rewrite Hshape in *. unfold qualifyOne.
    unfold mbind at 1, QM_bind at 1. unfold getContract at 1.
    rewrite Hcv, Hn. unfold mbind at 1, QM_bind at 1. by rewrite Hm.
  - intros Hsec.
    assert (Hn : negb (String.eqb (secType cv) "") = false).
    { apply negb_false_iff. by apply String.eqb_eq. }
    rewrite Hshape in *. unfold qualifyOne.
    unfold mbind at 1, QM_bind at 1. unfold getContract at 1.
    by rewrite Hcv, Hn.
Qed.

End Qualify.

(** * The further results on the concrete session *)

(** A session that is not connected and holds [sampleOrder], not yet
    placed. *)
Definition orderOnly : World (K := OrderKey) :=
  with_heap (setOrderObjs (insert 1%positive sampleOrder))
    (with_wrapper (setWrapperClientId 1) freshWorld).

Lemma placeOrder_new_witness :
  ∃ (w' : World) (tr : loc),
    placeOrder tripleKey "PendingSubmit" sampleDoneStates sampleContract
      1%positive orderOnly = (Ok tr, w')
    ∧ tradeObjs (heap orderOnly) !! tr = None
    ∧ tradeObjs (heap w') !! tr
      = Some (mkTrade sampleContract 1%positive
                (mkOrderStatus 7 "PendingSubmit") []
                [mkTradeLogEntry 1000 "PendingSubmit" ""]).
Proof.
  destruct (placeOrder_new tripleKey "PendingSubmit" sampleDoneStates
              sampleContract 1%positive orderOnly sampleOrder)
    as (w' & tr & Hrun & Hfresh & _ & Htr & _); [reflexivity|reflexivity|].
  exists w', tr. split; [exact Hrun|]. split; [exact Hfresh|exact Htr].
Defined.

Lemma placeOrder_done_raises_witness :
  ∃ w' : World,
    placeOrder tripleKey "PendingSubmit" sampleDoneStates sampleContract
      1%positive (tradingWorld "Filled") = (Raise AssertionError, w')
    ∧ heap w' = heap (tradingWorld "Filled").
Proof.
  destruct (placeOrder_done_raises tripleKey "PendingSubmit" sampleDoneStates
              sampleContract 1%positive (tradingWorld "Filled") sampleOrder
              1%positive (sampleTrade "Filled"))
    as (w' & Hrun & _ & Hh & _);
    [reflexivity|reflexivity|reflexivity|vm_compute; reflexivity|].
  exists w'. split; [exact Hrun|exact Hh].
Defined.

Lemma placeOrder_twice_witness :
  ∃ (w1 w2 : World) (tr : loc),
    placeOrder tripleKey "PendingSubmit" sampleDoneStates sampleContract
      1%positive orderOnly = (Ok tr, w1)
    ∧ placeOrder tripleKey "PendingSubmit" sampleDoneStates sampleContract
        1%positive w1 = (Ok tr, w2)
    ∧ size (trades (wrapper w2)) = S (size (trades (wrapper orderOnly))).
Proof.
  destruct (placeOrder_twice tripleKey "PendingSubmit" sampleDoneStates
              sampleContract 1%positive orderOnly sampleOrder)
    as (w1 & w2 & tr & Hfirst & Hsecond & _ & Hsize & _);
    [reflexivity|reflexivity|by vm_compute|vm_compute; reflexivity|].
  exists w1, w2, tr. split; [exact Hfirst|]. split; [exact Hsecond|exact Hsize].
Defined.

Lemma cancelOrder_unknown_witness :
  ∃ w' : World,
    cancelOrder tripleKey "PendingSubmit" "PendingCancel" "Cancelled"
      "Inactive" sampleDoneStates 1%positive "" orderOnly = (Ok None, w')
    ∧ heap w' = heap orderOnly.
Proof.
  destruct (cancelOrder_unknown tripleKey "PendingSubmit" "PendingCancel"
              "Cancelled" "Inactive" sampleDoneStates 1%positive ""
              orderOnly sampleOrder)
    as (w' & Hrun & _ & Hh & _); [reflexivity|reflexivity|].
  exists w'. split; [exact Hrun|exact Hh].
Defined.

Lemma place_then_cancel_untransmitted_witness :
  ∃ (w1 w2 : World) (tr : loc),
    placeOrder tripleKey "PendingSubmit" sampleDoneStates sampleContract
      1%positive orderOnly = (Ok tr, w1)
    ∧ cancelOrder tripleKey "PendingSubmit" "PendingCancel" "Cancelled"
        "Inactive" sampleDoneStates 1%positive "" w1 = (Ok (Some tr), w2)
    ∧ last (newEffects w1 w2) = Some (EmitTrade tr cancelledEvent tr).
Proof.
  destruct (place_then_cancel_untransmitted tripleKey "PendingSubmit"
              "PendingCancel" "Cancelled" "Inactive" sampleDoneStates
              sampleContract 1%positive "" orderOnly sampleOrder)
    as (w1 & w2 & tr & Hplace & Hcancel & _ & Hlast);
    [reflexivity|reflexivity|reflexivity|vm_compute; reflexivity|].
  exists w1, w2, tr. split; [exact Hplace|]. split; [exact Hcancel|exact Hlast].
Defined.

Lemma cancelOrder_twice_witness :
  ∃ w1 w2 : World,
    cancelOrder tripleKey "PendingSubmit" "PendingCancel" "Cancelled"
      "Inactive" sampleDoneStates 1%positive ""
      (tradingWorld "PendingSubmit") = (Ok (Some 1%positive), w1)
    ∧ cancelOrder tripleKey "PendingSubmit" "PendingCancel" "Cancelled"
        "Inactive" sampleDoneStates 1%positive "" w1
      = (Ok (Some 1%positive), w2)
    ∧ heap w2 = heap w1.
Proof.
  destruct (cancelOrder_twice tripleKey "PendingSubmit" "PendingCancel"
              "Cancelled" "Inactive" sampleDoneStates 1%positive ""
              (tradingWorld "PendingSubmit") sampleOrder 1%positive
              (sampleTrade "PendingSubmit"))
    as (w1 & w2 & Hfirst & Hsecond & _ & Hh & _);
    [reflexivity|reflexivity|reflexivity|vm_compute; reflexivity
    |vm_compute; reflexivity|].
  exists w1, w2. split; [exact Hfirst|]. split; [exact Hsecond|exact Hh].
Defined.

Lemma reqPnL_cancelPnL_witness :
  ∃ (w1 w2 : World (K := OrderKey)) (pnl : loc),
    reqPnL "DU2" "" (tradingWorld "Submitted") = (Ok pnl, w1)
    ∧ cancelPnL "DU2" "" w1 = (Ok [client_cancelPnL 8], w2)
    ∧ pnlKey2ReqId (wrapper w2)
      = pnlKey2ReqId (wrapper (tradingWorld "Submitted")).
Proof.
  destruct (reqPnL_cancelPnL "DU2" "" (tradingWorld "Submitted"))
    as (w1 & w2 & _ & pnl & _ & Hsub & Hcancel & Hkeys & _);
    [reflexivity|reflexivity|by vm_compute|].
  exists w1, w2, pnl. split; [exact Hsub|]. split; [exact Hcancel|exact Hkeys].
Defined.

Lemma cancelPnL_unknown_witness :
  ∃ w' : World (K := OrderKey),
    cancelPnL "DU2" "" (tradingWorld "Submitted") = (Ok [], w')
    ∧ heap w' = heap (tradingWorld "Submitted").
Proof.
  destruct (cancelPnL_unknown "DU2" "" (tradingWorld "Submitted"))
    as (w' & Hrun & _ & _ & Hh & _); [reflexivity|].
  exists w'. split; [exact Hrun|exact Hh].
Defined.

Lemma reqPnL_twice_witness :
  ∃ (w1 : World (K := OrderKey)) (pnl : loc),
    reqPnL "DU2" "" (tradingWorld "Submitted") = (Ok pnl, w1)
    ∧ reqPnL "DU2" "" w1 = (Raise AssertionError, w1).
Proof.
  destruct (reqPnL_twice "DU2" "" (tradingWorld "Submitted"))
    as (w1 & pnl & Hfirst & Hsecond & _); [reflexivity|].
  exists w1, pnl. split; [exact Hfirst|exact Hsecond].
Defined.

Lemma reqPnLSingle_cancelPnLSingle_witness :
  ∃ (w1 w2 : World (K := OrderKey)) (pnlSingle : loc),
    reqPnLSingle "DU1" "" 265598 (tradingWorld "Submitted")
      = (Ok pnlSingle, w1)
    ∧ cancelPnLSingle "DU1" "" 265598 w1 = (Ok [client_cancelPnLSingle 8], w2)
    ∧ reqId2PnlSingle (wrapper w2)
      = reqId2PnlSingle (wrapper (tradingWorld "Submitted")).
Proof.
  destruct (reqPnLSingle_cancelPnLSingle "DU1" "" 265598
              (tradingWorld "Submitted"))
    as (_ & w1 & w2 & pnlSingle & Hsub & Hcancel & _ & Hids & _);
    [reflexivity|reflexivity|by vm_compute|].
  exists w1, w2, pnlSingle.
  split; [exact Hsub|]. split; [exact Hcancel|exact Hids].
Defined.

Lemma bracketOrder_ids_witness :
  ∃ (w' : World (K := OrderKey)) (b : BracketOrder),
    bracketOrder "BUY" 100 10 11 9 (tradingWorld "Submitted") = (Ok b, w')
    ∧ reqIdSeq (client w') = 8 + 3.
Proof.
  destruct (bracketOrder_ids "BUY" 100 10 11 9 (tradingWorld "Submitted"))
    as (w' & b & Hrun & _ & _ & _ & _ & Hseq & _); [left; reflexivity|].
  exists w', b. split; [exact Hrun|exact Hseq].
Defined.

Lemma bracketOrder_bad_action_witness :
  bracketOrder "HOLD" 100 10 11 9 (tradingWorld "Submitted")
  = (Raise AssertionError, tradingWorld "Submitted").
Proof.
  apply (bracketOrder_bad_action "HOLD" 100 10 11 9
           (tradingWorld "Submitted")); discriminate.
Defined.

Lemma disconnect_twice_witness :
  ∃ (w1 : World (K := OrderKey)) (status : string),
    disconnect plainSI (tradingWorld "Submitted") = (Ok (Some status), w1)
    ∧ IB_isConnected w1 = (Ok false, w1)
    ∧ disconnect plainSI w1 = (Ok None, w1).
Proof.
  apply (disconnect_twice plainSI (tradingWorld "Submitted")). reflexivity.
Defined.

(** ** Startup runs, continued *)

(** A gateway that refuses the connection. *)
Definition refusing : Env (K := OrderKey) :=
  mkEnv (Some (OtherError "ConnectionRefusedError")) [] 0 (λ _, quiet).

Lemma connectAsync_refused_witness :
  connectAsync plainSI refusing "127.0.0.1" 7497 1 (Some 4%Q) false ""
    false StartupFetchALL freshWorld
  = (Raise (OtherError "ConnectionRefusedError"),
     with_trace (λ t, t ++ [Call (client_connectAsync "127.0.0.1" 7497 1
                                    (orNone (Some 4%Q)))])
       (with_wrapper (setWrapperClientId 1) freshWorld)).
Proof.
  apply (connectAsync_refused plainSI refusing "127.0.0.1" 7497 1 (Some 4%Q)
           false "" false StartupFetchALL freshWorld); reflexivity.
Defined.

(** The session after a connect attempt with two accounts has returned. *)
Definition connectedSession : World (K := OrderKey) :=
  snd (connectAsync plainSI twoAccounts "127.0.0.1" 7497 1 (Some 4%Q) false ""
         false StartupFetchALL freshWorld).

Lemma connectAsync_returns_witness :
  connectFailure twoAccounts = None
  ∧ isReady (client connectedSession) = true.
Proof.
  destruct (connectAsync_returns plainSI twoAccounts "127.0.0.1" 7497 1
              (Some 4%Q) false "" false StartupFetchALL freshWorld
              connectedSession)
    as (Hfail & Hready & _); [vm_compute; reflexivity|].
  split; [exact Hfail|exact Hready].
Defined.

(** The session after the connect attempt of [ordersThenCutOff] has
    raised. *)
Definition failedSession : World (K := OrderKey) :=
  snd (connectAsync plainSI ordersThenCutOff "127.0.0.1" 7497 1 (Some 4%Q)
         false "" false StartupFetchALL freshWorld).

Lemma connectAsync_raises_witness :
  isConnected (client failedSession) = false
  ∧ Forall (λ x, emitsIB connectedEvent x = false)
      (newEffects freshWorld failedSession).
Proof.
  apply (connectAsync_raises plainSI ordersThenCutOff "127.0.0.1" 7497 1
           (Some 4%Q) false "" false StartupFetchALL freshWorld failedSession
           (ConnectionError
              (ArgText "Socket connection broken while connecting"))).
  vm_compute. reflexivity.
Defined.

Lemma connectAsync_initial_requests_witness :
  Call client_reqPositions
  ∈ newEffects freshWorld
      (snd (connectAsync plainSI twoAccounts "127.0.0.1" 7497 1 (Some 4%Q)
              true "" false StartupFetchNONE freshWorld)).
Proof.
  destruct (connectAsync_initial_requests plainSI twoAccounts "127.0.0.1"
              7497 1 (Some 4%Q) true "" false StartupFetchNONE freshWorld)
    as [Hpos _]; [reflexivity|].
  exact Hpos.
Defined.

Lemma connectAsync_requests_gated_witness :
  Call client_reqOpenOrders
  ∈ newEffects freshWorld
      (snd (connectAsync plainSI twoAccounts "127.0.0.1" 7497 1 (Some 4%Q)
              false "" false StartupFetchALL freshWorld)).
Proof.
  destruct (connectAsync_requests_gated plainSI twoAccounts "127.0.0.1" 7497
              1 (Some 4%Q) false "" false StartupFetchALL freshWorld)
    as [Hopen _]; [reflexivity|].
  apply Hopen. split; reflexivity.
Defined.

(** ** Qualifying a future option *)

(** A stand-in for [util.dataclassUpdate] in the examples: every field is
    taken from the source. *)
Definition takeAll (obj src : Contract) : Contract := src.

(** The contract asked for, and the two contracts that the gateway sends
    for it: an option on a future, and the future option itself. *)
Definition futureOptions : Book :=
  mkBook {[ 1%positive := mkContract 0 "ES" "FOP" "SMART" "USD";
            2%positive := mkContract 11 "ES" "EC" "CME" "USD";
            3%positive := mkContract 12 "ES" "FOP" "CME" "USD" ]} [].

Lemma qualifyOne_outcome_witness :
  contractObjs
    (snd (qualifyOne takeAll true 1%positive
            [Some 2%positive; Some 2%positive] futureOptions))
  = contractObjs futureOptions.
Proof.
  destruct (qualifyOne_outcome takeAll true 1%positive
              [Some 2%positive; Some 2%positive] futureOptions
              (snd (qualifyOne takeAll true 1%positive
                      [Some 2%positive; Some 2%positive] futureOptions))
              (Possibles []))
    as [(Hq & _)|(Hsame & _)]; [vm_compute; reflexivity|discriminate Hq|].
  exact Hsame.
Defined.

Lemma qualifyContractsAsync_positional_witness :
  ∃ slots b',
    qualifyContractsAsync takeAll [1%positive; 2%positive] false
      [[Some 2%positive; Some 3%positive]; []] futureOptions = (Ok slots, b')
    ∧ length slots = 2%nat.
Proof.
  destruct (qualifyContractsAsync_positional takeAll [1%positive; 2%positive]
              false [[Some 2%positive; Some 3%positive]; []] futureOptions)
    as (slots & b' & Hrun & Hall).
  - repeat constructor; by eexists.
  - repeat constructor; eexists; (split; [reflexivity|by eexists]).
  - reflexivity.
  - exists slots, b'. split; [exact Hrun|].
    by rewrite <- (Forall2_length _ _ _ Hall).
Defined.

Lemma qualifyOne_unique_secType_witness :
  qualifyOne takeAll false 1%positive [Some 2%positive; Some 3%positive]
    futureOptions
  = (Ok (Qualified 1%positive),
     mkBook (<[1%positive := mkContract 12 "ES" "FOP" "SMART" "USD"]>
               (<[3%positive := mkContract 12 "ES" "FOP" "SMART" "USD"]>
                  (contractObjs futureOptions)))
            []).
Proof.
  apply (qualifyOne_unique_secType takeAll false 1%positive 3%positive
           [Some 2%positive; Some 3%positive] futureOptions
           (mkContract 0 "ES" "FOP" "SMART" "USD")
           (mkContract 12 "ES" "FOP" "CME" "USD")).
  - reflexivity.
  - reflexivity.
  - discriminate.
  - discriminate.
  - repeat constructor; eexists; (split; [reflexivity|by eexists]).
  - reflexivity.
Defined.

Lemma qualifyOne_missing_contract_witness :
  qualifyOne takeAll true 1%positive [Some 2%positive; None] futureOptions
  = (Raise (OtherError "AttributeError"), futureOptions).
Proof.
  destruct (qualifyOne_missing_contract takeAll true 1%positive
              [Some 2%positive] [] futureOptions
              (mkContract 0 "ES" "FOP" "SMART" "USD"))
    as (_ & Hattr & _).
  - reflexivity.
  - repeat constructor; eexists; (split; [reflexivity|by eexists]).
  - simpl. lia.
  - apply Hattr. discriminate.
Defined.
